(** * EcoPulse: observation trust and integrity

    A shallow embedding of the parts of the EcoPulse code base that decide
    how an observation's location is disclosed, how its timestamp and
    justification are validated, how batch (CSV) imports are filtered and
    what the backend's account routes answer; and, modelled from the
    specification where the code base has no implementation, of the conflict
    detector and of the verification of observations with its credibility
    ledger.

    Conventions.
    - A JavaScript [number] is modelled by [JsNumber.num]: NaN, +Infinity,
      -Infinity or a rational ([Qc]).  Addition, multiplication and division
      round their exact result to the nearest number with a 53-bit
      significand, ties to the even significand, as IEEE 754 binary64 does
      ([Binary64.round]).  The exponent is not bounded: overflow to Infinity
      and gradual underflow (magnitudes above about 1.8e308 or below about
      2.2e-308) are not represented, and neither is the sign of zero.
      Division by zero, NaN propagation and comparisons with NaN follow the
      language.
    - Library calls whose result is decided outside the code are explicit
      arguments: the draws of [Math.random], the value of [Math.cos], the
      haversine distance, [parseFloat] on CSV cells and [Date] parsing.
    - React state is threaded explicitly: a handler is a function from the
      current state (and its inputs) to the next state or to its outcome. *)

From Stdlib Require Import ZArith QArith Qcanon Qround Qpower Qabs Lqa List Bool Ascii
  String.
From stdpp Require Import base numbers strings list gmap pretty.

(** ** Rounding to binary64 *)

Module Binary64.
Local Open Scope Q_scope.

(** The exponent [e] with [2^e <= m < 2^(e+1)], for a positive [m]. *)
Definition ilog2 (m : Q) : Z :=
  let e0 := (Z.log2 (Qnum m) - Z.log2 (Zpos (Qden m)))%Z in
  if Qle_bool (2 ^ e0) m then e0 else (e0 - 1)%Z.

(** The nearest integer, the even one on a tie. *)
Definition nearestEven (s : Q) : Z :=
  let f := Qfloor s in
  match Qcompare (s - inject_Z f) (1 # 2) with
  | Lt => f
  | Gt => (f + 1)%Z
  | Eq => if Z.even f then f else (f + 1)%Z
  end.

(** A positive number rounded to 53 significant bits. *)
Definition roundPositive (m : Q) : Q :=
  let k := (ilog2 m - 52)%Z in
  inject_Z (nearestEven (m / 2 ^ k)) * 2 ^ k.

(** The numbers with a significand of at most 53 bits. *)
Definition isFloatQ (x : Q) : Prop :=
  ∃ M j : Z, (Z.abs M < 2 ^ 53)%Z ∧ x == inject_Z M * 2 ^ j.

(** Rounding to the nearest float, ties to the even significand. *)
Definition round (q : Qc) : Qc :=
  if bool_decide (q = 0%Qc) then 0%Qc
  else if bool_decide (q < 0)%Qc then (- Q2Qc (roundPositive (- q)%Qc))%Qc
  else Q2Qc (roundPositive q).

Definition isFloat (x : Qc) : Prop := isFloatQ x.

(** Half a unit in the last place, relative to the number: [2^-53]. *)
Definition unitRoundoff : Q := 1 # 9007199254740992.

End Binary64.

(** ** JavaScript numbers *)

Module JsNumber.
Import Binary64.
Local Open Scope Qc_scope.

Inductive num : Type :=
  | NaN
  | PInf
  | NInf
  | Fin (q : Qc).

Definition ofZ (n : Z) : num := Fin (Qc_of_Z n).

(** The number a decimal literal [n / 10^digits] denotes: [parseFloat] of
    its text. *)
Definition ofDecimal (n : Z) (digits : nat) : num :=
  Fin (round (Qc_of_Z n / Qc_of_Z (10 ^ Z.of_nat digits))).

Definition isNaN (x : num) : bool :=
  match x with NaN => true | _ => false end.

(** Truthiness of a number: [0] and [NaN] are falsy. *)
Definition truthy (x : num) : bool :=
  match x with
  | NaN => false
  | Fin q => negb (bool_decide (q = 0))
  | _ => true
  end.

(** [x || y] on numbers. *)
Definition or_else (x y : num) : num := if truthy x then x else y.

Definition inf_of_sign (positive : bool) : num :=
  if positive then PInf else NInf.

Definition neg (x : num) : num :=
  match x with
  | NaN => NaN
  | PInf => NInf
  | NInf => PInf
  | Fin q => Fin (- q)
  end.

Definition add (x y : num) : num :=
  match x, y with
  | NaN, _ | _, NaN => NaN
  | PInf, NInf | NInf, PInf => NaN
  | PInf, _ | _, PInf => PInf
  | NInf, _ | _, NInf => NInf
  | Fin a, Fin b => Fin (round (a + b))
  end.

Definition sub (x y : num) : num := add x (neg y).

Definition mul (x y : num) : num :=
  match x, y with
  | NaN, _ | _, NaN => NaN
  | Fin a, Fin b => Fin (round (a * b))
  | Fin a, PInf | PInf, Fin a =>
      if bool_decide (a = 0) then NaN else inf_of_sign (bool_decide (0 < a))
  | Fin a, NInf | NInf, Fin a =>
      if bool_decide (a = 0) then NaN else inf_of_sign (bool_decide (a < 0))
  | PInf, PInf | NInf, NInf => PInf
  | PInf, NInf | NInf, PInf => NInf
  end.

Definition div (x y : num) : num :=
  match x, y with
  | NaN, _ | _, NaN => NaN
  | Fin a, Fin b =>
      if bool_decide (b = 0)
      then (if bool_decide (a = 0) then NaN
            else inf_of_sign (bool_decide (0 < a)))
      else Fin (round (a / b))
  | Fin _, PInf | Fin _, NInf => Fin 0
  | PInf, Fin b => inf_of_sign (bool_decide (0 ≤ b))
  | NInf, Fin b => inf_of_sign (bool_decide (b < 0))
  | _, _ => NaN
  end.

(** [x <= y] and [x < y]: any comparison with NaN is false. *)
Definition leb (x y : num) : bool :=
  match x, y with
  | NaN, _ | _, NaN => false
  | NInf, _ | _, PInf => true
  | PInf, _ | _, NInf => false
  | Fin a, Fin b => bool_decide (a ≤ b)
  end.

Definition ltb (x y : num) : bool :=
  match x, y with
  | NaN, _ | _, NaN => false
  | PInf, _ | _, NInf => false
  | NInf, _ | _, PInf => true
  | Fin a, Fin b => bool_decide (a < b)
  end.

Definition magnitude (q : Qc) : Qc := if bool_decide (q < 0) then - q else q.

(** [Math.abs]. *)
Definition abs (x : num) : num :=
  match x with
  | NaN => NaN
  | PInf | NInf => PInf
  | Fin q => Fin (magnitude q)
  end.

Definition million : Qc := Qc_of_Z 1000000.
Definition half : Qc := Q2Qc (1 # 2).

(** Below this magnitude [toFixed] prints decimals; from it on it falls back
    to [String(x)], which [parseFloat] reads back as [x]. *)
Definition toFixedLimit : Qc := Qc_of_Z (10 ^ 21).

Definition Qcfloor (q : Qc) : Z := Qfloor q.

(** The decimal that [m.toFixed(6)] prints for a magnitude [m]: [n / 10^6]
    for the integer [n] for which it is closest to [m], the larger one on a
    tie. *)
Definition roundMagnitude6 (m : Qc) : Qc :=
  Qc_of_Z (Qcfloor (m * million + half)) / million.

(** [parseFloat(x.toFixed(6))]: the printed decimal, read back as the
    nearest float. *)
Definition toFixed6 (x : num) : num :=
  match x with
  | Fin q =>
      let m := magnitude q in
      if bool_decide (toFixedLimit ≤ m) then Fin q
      else Fin (if bool_decide (q < 0) then - round (roundMagnitude6 m)
                else round (roundMagnitude6 m))
  | _ => x
  end.

(** [x'] is [x] rounded to six decimals: the float nearest to a decimal with
    six digits after the point that is within half a millionth of [x]. *)
Definition roundsToSix (x x' : Qc) : Prop :=
  ∃ n : Z, magnitude (Qc_of_Z n / million - x) ≤ half / million
           ∧ x' = round (Qc_of_Z n / million).


End JsNumber.

(** ** The geofence warning screen (UV_GEOFENCE_WARNING) *)

Module Geofence.
Import JsNumber.
Local Open Scope Qc_scope.

(** The zone rules arrive as JSON and pass the zod schema, so their numeric
    fields are finite. *)
Record GeofenceRule : Type := {
  zone_id : string;
  iucn_category : string;
  geometry : string;
  buffer_zone_size : Qc;
  blur_radius : Qc
}.

Record GeofenceRulesResponse : Type := {
  rules : list GeofenceRule;
  default_blur_radius : Qc
}.

Record Coordinates : Type := { lat : num; lng : num }.

Record ObservationDraft : Type := {
  draft_id : string;
  category : option string;
  location : Coordinates;
  location_precision_meters : num;
  is_private : bool
}.

(** The local state of the screen that the disclosure depends on. *)
Record State : Type := {
  blurRadius : num;
  isInProtectedZone : bool;
  isInBufferZone : bool;
  selectedZone : option GeofenceRule
}.

Definition initialState : State :=
  {| blurRadius := ofZ 500;
     isInProtectedZone := false;
     isInBufferZone := false;
     selectedZone := None |}.

(** The screen renders (and so reaches its handlers) only for coordinates
    that are numbers within the geographic bounds. *)
Definition validCoordinates (c : Coordinates) : bool :=
  negb (isNaN (lat c) || isNaN (lng c)
        || ltb (ofZ 90) (abs (lat c)) || ltb (ofZ 180) (abs (lng c))).

(** Metres in one degree of latitude: the 111 km per degree by which
    [applyCoordinateBlurring] divides. *)
Definition metersPerDegree : Qc := Qc_of_Z 111000.

Section Screen.

(** [calculateDistance a b]: haversine distance in km. *)
Variable calculateDistance : Coordinates → Coordinates → num.

(** [cosDeg x] is [Math.cos(x * Math.PI / 180)]. *)
Variable cosDeg : num → num.

(** The effect that processes the fetched geofence rules. *)
Definition processRules (geofenceRules : option GeofenceRulesResponse)
    (position mapCenter : Coordinates) (st : State) : State :=
  match geofenceRules with
  | None => st
  | Some resp =>
      match rules resp with
      | [] => st
      | relevantZone :: _ =>
          let distanceToZone := calculateDistance position mapCenter in
          let buffer := buffer_zone_size relevantZone in
          let '(inProtected, inBuffer) :=
            if leb distanceToZone (Fin buffer) then (false, true)
            else if leb distanceToZone (Fin (buffer + Qc_of_Z 1000)) then (true, false)
            else (isInProtectedZone st, isInBufferZone st) in
          {| blurRadius :=
               or_else (Fin (blur_radius relevantZone)) (Fin (default_blur_radius resp));
             isInProtectedZone := inProtected;
             isInBufferZone := inBuffer;
             selectedZone := Some relevantZone |}
      end
  end.

(** The precision slider: [setBlurRadius(parseInt(e.target.value))]. *)
Definition sliderChange (v : Z) (st : State) : State :=
  {| blurRadius := ofZ v;
     isInProtectedZone := isInProtectedZone st;
     isInBufferZone := isInBufferZone st;
     selectedZone := selectedZone st |}.

(** [rand1] and [rand2] are the two draws of [Math.random], in call order. *)
Definition applyCoordinateBlurring (coordinates : Coordinates) (radius : num)
    (rand1 rand2 : Qc) : Coordinates :=
  let latOffset := mul (div radius (ofZ 111)) (sub (Fin rand1) (Fin half)) in
  let lngOffset :=
    mul (div radius (mul (ofZ 111) (cosDeg (lat coordinates))))
        (sub (Fin rand2) (Fin half)) in
  {| lat := toFixed6 (add (lat coordinates) latOffset);
     lng := toFixed6 (add (lng coordinates) lngOffset) |}.

(** [handleContinue]: the draft handed to [updateObservationDraft], or [None]
    when the handler returns early. *)
Definition handleContinue (observationDraft : option ObservationDraft)
    (position : Coordinates) (st : State) (rand1 rand2 : Qc)
    : option ObservationDraft :=
  match observationDraft, selectedZone st with
  | Some draft, Some _ =>
      let blurredCoordinates :=
        applyCoordinateBlurring position (blurRadius st) rand1 rand2 in
      Some {| draft_id := draft_id draft;
              category := category draft;
              location := blurredCoordinates;
              location_precision_meters := blurRadius st;
              is_private := true |}
  | _, _ => None
  end.

(** The data of the registry query: [useQuery] is set up with
    [enabled: !!latitude && !!longitude], so while the latitude or the
    longitude is 0 no answer of the registry reaches the screen. *)
Definition queryData (position : Coordinates)
    (answer : option GeofenceRulesResponse) : option GeofenceRulesResponse :=
  if truthy (lat position) && truthy (lng position) then answer else None.

(** The states the screen can be in for a given position: the effect runs
    whenever the query data, the position or the map centre change; the
    precision slider is part of the protected-zone view only, and a range
    input only yields values between its [min] and [max]. *)
Inductive reachable (position : Coordinates) : State → Prop :=
  | reachable_initial : reachable position initialState
  | reachable_rules st answer mapCenter :
      reachable position st →
      reachable position
        (processRules (queryData position answer) position mapCenter st)
  | reachable_slider st v :
      reachable position st →
      isInProtectedZone st = true →
      (100 ≤ v ≤ 2000)%Z →
      reachable position (sliderChange v st).

(** The registry answer the rules effect acts on: the query data when it
    holds at least one zone, and otherwise the answer it acted on before. *)
Definition actedOn (position : Coordinates) (answer : option GeofenceRulesResponse)
    (last : option GeofenceRulesResponse) : option GeofenceRulesResponse :=
  match queryData position answer with
  | Some resp => match rules resp with [] => last | _ :: _ => Some resp end
  | None => last
  end.

(** [reachableAfter position last st]: the screen can be in state [st], and
    [last] is the registry answer the rules effect last acted on. *)
Inductive reachableAfter (position : Coordinates)
    : option GeofenceRulesResponse → State → Prop :=
  | after_initial : reachableAfter position None initialState
  | after_rules last st answer mapCenter :
      reachableAfter position last st →
      reachableAfter position (actedOn position answer last)
        (processRules (queryData position answer) position mapCenter st)
  | after_slider last st v :
      reachableAfter position last st →
      isInProtectedZone st = true →
      (100 ≤ v ≤ 2000)%Z →
      reachableAfter position last (sliderChange v st).

End Screen.

End Geofence.

(** ** The batch (CSV) submission screen (UV_BATCH_SUBMISSION) *)

Module Batch.
Import JsNumber.

Record BatchObservation : Type := {
  user_id : string;
  species_name : string;
  observation_timestamp : string;
  latitude : num;
  longitude : num;
  notes : string;
  habitat_type : string;
  is_private : bool
}.

Inductive Severity : Type := error | warning.

Record ValidationIssue : Type := {
  row_index : nat;
  field : string;
  message : string;
  severity : Severity;
  suggested_correction : option string
}.

Record BatchValidationResult : Type := {
  valid_rows : list BatchObservation;
  validation_errors : list ValidationIssue;
  duplicate_observations : list BatchObservation
}.

(** A parsed CSV line: header to cell. *)
Abbreviation CsvRow := (gmap string string).

(** Truthiness of a possibly undefined string. *)
Definition present (v : option string) : bool :=
  match v with
  | Some s => negb (bool_decide (s = ""))
  | None => false
  end.

(** [v || ''] *)
Definition orEmpty (v : option string) : string :=
  if present v then default "" v else "".

(** [field.replace('_', ' ')]: only the first underscore is replaced. *)
Fixpoint replaceUnderscore (s : string) : string :=
  match s with
  | EmptyString => EmptyString
  | String c rest =>
      if bool_decide (c = "_"%char) then String " "%char rest
      else String c (replaceUnderscore rest)
  end.

Definition requiredFields : list string :=
  ["species_name"; "observation_timestamp"; "latitude"; "longitude"].

Section Validation.

(** [parseFloat] on a CSV cell. *)
Variable parseFloat : string → num.
(** [x.toFixed(6)] as text, used only in a suggestion message. *)
Variable toFixedText : num → string.
(** [new Date(s).getTime()]: [None] for an invalid date. *)
Variable parseDate : string → option Z.
(** The clock ([new Date()]) read while the row with the given index is
    validated, and the instant [setDate(now.getDate() - 90)] derived from it. *)
Variable now : nat → Z.
Variable ninetyDaysAgo : nat → Z.

(** Component state read by the validation. *)
Variable fileSelected : bool.
Variable columnMapping : gmap string string.
Variable currentUserId : option string.

(** [mappedRow[field]] after the column mapping has been applied. *)
Definition mappedRow (row : CsvRow) (field : string) : option string :=
  columnMapping !! field ≫= λ csvHeader, row !! csvHeader.

Definition issue (rowIndex : nat) (f m : string) (s : Severity)
    (c : option string) : ValidationIssue :=
  {| row_index := rowIndex + 2; field := f; message := m; severity := s;
     suggested_correction := c |}.

Definition requiredFieldErrors (rowIndex : nat) (row : CsvRow)
    : list ValidationIssue :=
  omap (λ f, if present (mappedRow row f) then None
             else Some (issue rowIndex f (replaceUnderscore f +:+ " is required")
                          error None))
       requiredFields.

(** [errors.filter(e => e.row_index === rowIndex + 2).length === 0] *)
Definition noErrorsForRow (rowIndex : nat) (errors : list ValidationIssue) : bool :=
  bool_decide (length (filter (λ e, row_index e = rowIndex + 2) errors) = 0).

(** The coordinate block of the loop body. *)
Definition validateCoordinates (rowIndex : nat) (row : CsvRow)
    (errors : list ValidationIssue) (validRows : list BatchObservation)
    : list ValidationIssue * list BatchObservation :=
  if present (mappedRow row "latitude") && present (mappedRow row "longitude") then
    let lat := parseFloat (orEmpty (mappedRow row "latitude")) in
    let lng := parseFloat (orEmpty (mappedRow row "longitude")) in
    if isNaN lat || isNaN lng then
      (errors ++ [issue rowIndex "coordinates" "Invalid coordinate format" error
                    (Some ("Try: " +:+ toFixedText lat +:+ ", " +:+ toFixedText lng))],
       validRows)
    else
      let errors1 :=
        if ltb lat (ofZ (-90)) || ltb (ofZ 90) lat
        then errors ++ [issue rowIndex "latitude"
                          "Latitude must be between -90 and 90" error None]
        else errors in
      let errors2 :=
        if ltb lng (ofZ (-180)) || ltb (ofZ 180) lng
        then errors1 ++ [issue rowIndex "longitude"
                           "Longitude must be between -180 and 180" error None]
        else errors1 in
      if noErrorsForRow rowIndex errors2 then
        (errors2,
         validRows ++ [{| user_id := orEmpty currentUserId;
                          species_name := orEmpty (mappedRow row "species_name");
                          observation_timestamp :=
                            orEmpty (mappedRow row "observation_timestamp");
                          latitude := lat;
                          longitude := lng;
                          notes := orEmpty (mappedRow row "notes");
                          habitat_type := orEmpty (mappedRow row "habitat_type");
                          is_private := false |}])
      else (errors2, validRows)
  else (errors, validRows).

(** The date block of the loop body. *)
Definition validateDate (rowIndex : nat) (row : CsvRow) : list ValidationIssue :=
  if present (mappedRow row "observation_timestamp") then
    match parseDate (orEmpty (mappedRow row "observation_timestamp")) with
    | None =>
        [issue rowIndex "observation_timestamp" "Invalid date format" error None]
    | Some date =>
        if (now rowIndex <? date)%Z then
          [issue rowIndex "observation_timestamp"
             "Observation date cannot be in the future" error None]
        else if (date <? ninetyDaysAgo rowIndex)%Z then
          [issue rowIndex "observation_timestamp"
             "Observation date older than 90 days" warning None]
        else []
    end
  else [].

(** One iteration of [csvData.forEach]. *)
Definition validateRow (rowIndex : nat) (row : CsvRow)
    (errors : list ValidationIssue) (validRows : list BatchObservation)
    : list ValidationIssue * list BatchObservation :=
  let errors1 := errors ++ requiredFieldErrors rowIndex row in
  let '(errors2, validRows2) := validateCoordinates rowIndex row errors1 validRows in
  (errors2 ++ validateDate rowIndex row, validRows2).

Fixpoint validateRows (rowIndex : nat) (csvData : list CsvRow)
    (errors : list ValidationIssue) (validRows : list BatchObservation)
    : list ValidationIssue * list BatchObservation :=
  match csvData with
  | [] => (errors, validRows)
  | row :: rest =>
      let '(errors', validRows') := validateRow rowIndex row errors validRows in
      validateRows (S rowIndex) rest errors' validRows'
  end.

Definition validateAndTransform (csvData : list CsvRow) : BatchValidationResult :=
  if negb fileSelected || bool_decide (length csvData = 0)
     || bool_decide (columnMapping = ∅)
  then {| valid_rows := []; validation_errors := []; duplicate_observations := [] |}
  else
    let '(errors, validRows) := validateRows 0 csvData [] [] in
    {| valid_rows := validRows;
       validation_errors := errors;
       duplicate_observations := [] |}.

(** What the import keeps of a CSV line: the parsed cells as they are, and
    a cleared privacy flag. *)
Definition importedFrom (row : CsvRow) (obs : BatchObservation) : Prop :=
  is_private obs = false
  ∧ latitude obs = parseFloat (orEmpty (mappedRow row "latitude"))
  ∧ longitude obs = parseFloat (orEmpty (mappedRow row "longitude")).

End Validation.

End Batch.

(** ** The temporal validation screen (UV_TEMPORAL_VALIDATION)

    Calendar dates (the value of the date input and the bounds of the
    validation window) are day numbers; texts are Rocq strings, one
    character per code unit. *)

Module Temporal.

Definition MAX_JUSTIFICATION_LENGTH : nat := 500.

Record ValidationResponse : Type := {
  is_valid : bool;
  response_message : string;
  corrected_timestamp : option string;
  timezone_mismatch : option bool
}.

Record JustificationRequest : Type := { justification_text : string }.

Record ValidationWindow : Type := { min_date : Z; max_date : Z }.

Record State : Type := {
  observationTimestamp : Z;
  isRetrospective : bool;
  justificationText : string;
  validationWindow : option ValidationWindow;
  validationMessage : string;
  isSubmitting : bool;
  submitError : option string
}.

(** The state on mount, from the URL parameters ([timestampParam] already
    defaulted to today's date). *)
Definition initialState (timestampParam : Z) (isRetrospectiveParam : bool) : State :=
  {| observationTimestamp := timestampParam;
     isRetrospective := isRetrospectiveParam;
     justificationText := "";
     validationWindow := None;
     validationMessage := "";
     isSubmitting := false;
     submitError := None |}.

(** The effect on [dataRetentionDays]: nothing is set while it is falsy. *)
Definition computeValidationWindow (today dataRetentionDays : Z) (st : State) : State :=
  if (dataRetentionDays =? 0)%Z then st
  else
    {| observationTimestamp := observationTimestamp st;
       isRetrospective := isRetrospective st;
       justificationText := justificationText st;
       validationWindow :=
         Some {| min_date := today - dataRetentionDays;
                 max_date := today + dataRetentionDays |};
       validationMessage := validationMessage st;
       isSubmitting := isSubmitting st;
       submitError := submitError st |}.

(** The [min]/[max] constraint of the date input ("Valid range"). *)
Definition withinValidRange (st : State) (date : Z) : bool :=
  match validationWindow st with
  | None => true
  | Some w => (min_date w <=? date)%Z && (date <=? max_date w)%Z
  end.

(** How the request of [validateTimestamp] ended. *)
Inductive ValidationReply : Type :=
  | Replied (response : ValidationResponse)
  | Refused (serverMessage : option string)
  | Unreachable.

Definition orText (v : option string) (fallback : string) : string :=
  match v with
  | Some s => if bool_decide (s = "") then fallback else s
  | None => fallback
  end.

(** The state updates of [validateTimestamp]. *)
Definition validateTimestamp (reply : ValidationReply) (st : State) : State :=
  let msg :=
    match reply with
    | Replied response => response_message response
    | Refused serverMessage => orText serverMessage "Validation failed"
    | Unreachable => "Unable to validate timestamp. Please try again."
    end in
  {| observationTimestamp := observationTimestamp st;
     isRetrospective := isRetrospective st;
     justificationText := justificationText st;
     validationWindow := validationWindow st;
     validationMessage := msg;
     isSubmitting := isSubmitting st;
     submitError := submitError st |}.

(** [s.includes(pattern)] *)
Definition includes (pattern s : string) : bool :=
  match String.index 0 pattern s with Some _ => true | None => false end.

Definition isTimestampValid (st : State) : bool :=
  negb (bool_decide (validationMessage st = ""))
  && negb (includes "outside the allowed window" (validationMessage st)).

Definition isWhiteSpace (c : ascii) : bool :=
  bool_decide (nat_of_ascii c ∈ [9; 10; 11; 12; 13; 32; 160]).

Fixpoint trimStart (s : string) : string :=
  match s with
  | EmptyString => EmptyString
  | String c rest => if isWhiteSpace c then trimStart rest else s
  end.

Fixpoint trimEnd (s : string) : string :=
  match s with
  | EmptyString => EmptyString
  | String c rest =>
      let rest' := trimEnd rest in
      if isWhiteSpace c && bool_decide (rest' = EmptyString) then EmptyString
      else String c rest'
  end.

Definition trim (s : string) : string := trimEnd (trimStart s).

(** [!justificationText.trim()] *)
Definition blank (s : string) : bool := bool_decide (trim s = "").

(** The [disabled] attribute of the submit button. *)
Definition submitDisabled (st : State) : bool :=
  isSubmitting st || negb (isTimestampValid st)
  || (isRetrospective st && blank (justificationText st)).

(** The textarea's [onChange]. *)
Definition changeJustification (value : string) (st : State) : State :=
  if bool_decide (String.length value ≤ MAX_JUSTIFICATION_LENGTH) then
    {| observationTimestamp := observationTimestamp st;
       isRetrospective := isRetrospective st;
       justificationText := value;
       validationWindow := validationWindow st;
       validationMessage := validationMessage st;
       isSubmitting := isSubmitting st;
       submitError := None |}
  else st.

(** The checkbox's [onChange]. *)
Definition changeRetrospective (checked : bool) (st : State) : State :=
  {| observationTimestamp := observationTimestamp st;
     isRetrospective := checked;
     justificationText := if checked then justificationText st else "";
     validationWindow := validationWindow st;
     validationMessage := validationMessage st;
     isSubmitting := isSubmitting st;
     submitError := None |}.

(** The date input's [onChange] and the "Use corrected timestamp" button. *)
Definition changeTimestamp (date : Z) (clearError : bool) (st : State) : State :=
  {| observationTimestamp := date;
     isRetrospective := isRetrospective st;
     justificationText := justificationText st;
     validationWindow := validationWindow st;
     validationMessage := validationMessage st;
     isSubmitting := isSubmitting st;
     submitError := if clearError then None else submitError st |}.

Definition withSubmitError (msg : string) (st : State) : State :=
  {| observationTimestamp := observationTimestamp st;
     isRetrospective := isRetrospective st;
     justificationText := justificationText st;
     validationWindow := validationWindow st;
     validationMessage := validationMessage st;
     isSubmitting := isSubmitting st;
     submitError := Some msg |}.

(** [handleSubmit]: the next state and the body handed to
    [submitJustification], if any. *)
Definition handleSubmit (observation_id : option string) (st : State)
    : State * option JustificationRequest :=
  if bool_decide (orText observation_id "" = "") then
    (withSubmitError "Observation ID is missing. Cannot submit justification." st,
     None)
  else if isRetrospective st && blank (justificationText st) then
    (withSubmitError
       "Justification text is required for retrospective observations." st,
     None)
  else
    ({| observationTimestamp := observationTimestamp st;
        isRetrospective := isRetrospective st;
        justificationText := justificationText st;
        validationWindow := validationWindow st;
        validationMessage := validationMessage st;
        isSubmitting := true;
        submitError := None |},
     Some {| justification_text := justificationText st |}).

(** The outcome of the mutation: [onSuccess] or [onError]. *)
Definition mutationSettled (failure : option string) (st : State) : State :=
  {| observationTimestamp := observationTimestamp st;
     isRetrospective := isRetrospective st;
     justificationText := justificationText st;
     validationWindow := validationWindow st;
     validationMessage := validationMessage st;
     isSubmitting := isSubmitting st;
     submitError := failure |}.

(** The states of the screen.  The textarea exists only while the
    retrospective box is ticked. *)
Inductive reachable : State → Prop :=
  | reachable_mount timestampParam isRetrospectiveParam :
      reachable (initialState timestampParam isRetrospectiveParam)
  | reachable_window st today dataRetentionDays :
      reachable st → reachable (computeValidationWindow today dataRetentionDays st)
  | reachable_validated st reply :
      reachable st → reachable (validateTimestamp reply st)
  | reachable_justification st value :
      reachable st → isRetrospective st = true →
      reachable (changeJustification value st)
  | reachable_retrospective st checked :
      reachable st → reachable (changeRetrospective checked st)
  | reachable_timestamp st date clearError :
      reachable st → reachable (changeTimestamp date clearError st)
  | reachable_submit st observation_id :
      reachable st → reachable (fst (handleSubmit observation_id st))
  | reachable_settled st failure :
      reachable st → reachable (mutationSettled failure st).

End Temporal.

(** ** The backend (backend/server.ts) *)

Module Server.

(** A row of the [users] table as the handlers select it. *)
Record UserRow : Type := {
  id : string;
  email : string;
  full_name : string;
  created_at : string;
  updated_at : string
}.

Record DataPrivacySettings : Type := {
  share_anonymized : bool;
  private_observations_visible : bool
}.

Record UserProfileData : Type := {
  userData : UserRow;
  expertise_level : string;
  primary_location : option string;
  interests : list string;
  credibility_score : Z;
  data_privacy_settings : DataPrivacySettings
}.

Definition generateUserProfileData (userData : UserRow) : UserProfileData :=
  {| userData := userData;
     expertise_level := "beginner";
     primary_location := None;
     interests := [];
     credibility_score := 0;
     data_privacy_settings :=
       {| share_anonymized := true; private_observations_visible := false |} |}.

Record UserResponse : Type := {
  res_id : string;
  res_email : string;
  res_full_name : string;
  res_expertise_level : string;
  res_credibility_score : Z
}.

(** [GET /api/users/:user_id] behind [authenticateToken], for an
    authenticated request: the profile sent back, or [None] for 404. *)
Definition getUser (users : list UserRow) (user_id : string) : option UserResponse :=
  match filter (λ u, id u = user_id) users with
  | [] => None
  | user :: _ =>
      let profileData := generateUserProfileData user in
      Some {| res_id := id user;
              res_email := email user;
              res_full_name := full_name user;
              res_expertise_level := expertise_level profileData;
              res_credibility_score := credibility_score profileData |}
  end.

End Server.

(** ** The conflict detector *)

Module ConflictDetector.

(** Modelled from the spec: the resolution options of section 4.3; the
    server code that would return them is not part of the sources. *)
Inductive ResolutionOption : Type := keep_existing | keep_new | merge.

(** Modelled from the spec: the candidate observation handed to the Conflict
    Detector (section 4.3: species, coordinate, timestamp, contributor id,
    optional idempotency key), with the remaining material content as one
    text; the submission endpoints are missing from the sources. *)
Record Candidate : Type := {
  c_contributor : string;
  c_species : string;
  c_content : string;
  c_coordinate : Z * Z;
  c_timestamp : Z;
  c_idempotency_key : option string
}.

(** Modelled from the spec: a stored observation, reduced to what the
    Conflict Detector reads and writes; no observation table or model is
    part of the sources. *)
Record Observation : Type := {
  obs_id : nat;
  contributor : string;
  species : string;
  content : string;
  coordinate : Z * Z;
  timestamp : Z;
  idempotency_key : option string;
  conflict_detected : bool
}.

(** Modelled from the spec: the three results of section 4.3 (retry,
    conflict with its options, accepted); the endpoints that would produce
    them are missing from the sources. *)
Inductive Outcome : Type :=
  | Retry (existing : Observation)
  | Conflict (created : Observation) (options : list ResolutionOption)
  | Accepted (created : Observation).

(** Modelled from the spec: what happens to the store over time, a
    submission or the resolution a human picks for a detected conflict
    (section 4.3); neither endpoint is part of the sources. *)
Inductive Event : Type :=
  | Submission (c : Candidate)
  | Resolution (choice : ResolutionOption) (existingId newId : nat).

Definition isSubmission (event : Event) : bool :=
  match event with Submission _ => true | Resolution _ _ _ => false end.

Section Detector.

(** Modelled from the spec: the spatial tolerance ("e.g., same rounded
    coordinate cell") and the temporal tolerance ("e.g., same calendar day")
    of section 4.3; no server code for them is part of the sources. *)
Variable withinSpatialTolerance : Z * Z → Z * Z → bool.
Variable withinTemporalTolerance : Z → Z → bool.

(** Modelled from the spec: what a picked resolution does to the store.  The
    spec names the three options and says that superseded records are
    marked, not removed (section 3); what each option does to the two
    records is left open there, so it is a parameter. *)
Variable applyResolution :
  ResolutionOption → nat → nat → list Observation → list Observation.

(** Modelled from the spec: "an existing observation shares the same
    idempotency key" (section 4.3); the submission endpoints are missing
    from the sources. *)
Definition sharesKey (c : Candidate) (o : Observation) : bool :=
  match c_idempotency_key c with
  | Some k => bool_decide (idempotency_key o = Some k)
  | None => false
  end.

(** Modelled from the spec: "existing observations fall within the
    spatial+temporal tolerance" (section 4.3), among the contributor's own
    observations.  Scenario C of section 8 expects the conflict also for a
    second observation of the same species, and the key of a retry has been
    dealt with before, so every other record of the contributor within both
    tolerances counts: no further difference in content is asked for. *)
Definition conflictsWith (c : Candidate) (o : Observation) : bool :=
  bool_decide (contributor o = c_contributor c)
  && withinSpatialTolerance (coordinate o) (c_coordinate c)
  && withinTemporalTolerance (timestamp o) (c_timestamp c).

(** Modelled from the spec: the record created for an accepted submission,
    carrying the [conflict_detected] mark of section 4.3; the code that
    inserts observations is not part of the sources. *)
Definition create (c : Candidate) (newId : nat) (conflict : bool) : Observation :=
  {| obs_id := newId;
     contributor := c_contributor c;
     species := c_species c;
     content := c_content c;
     coordinate := c_coordinate c;
     timestamp := c_timestamp c;
     idempotency_key := c_idempotency_key c;
     conflict_detected := conflict |}.

(** Modelled from the spec: the three-way behaviour of the Conflict Detector
    (section 4.3) over the stored observations; the server code that would
    implement it is not part of the sources. *)
Definition submit (c : Candidate) (store : list Observation)
    : Outcome * list Observation :=
  match filter (λ o, sharesKey c o = true) store with
  | existing :: _ => (Retry existing, store)
  | [] =>
      match filter (λ o, conflictsWith c o = true) store with
      | _ :: _ =>
          let created := create c (length store) true in
          (Conflict created [keep_existing; keep_new; merge], store ++ [created])
      | [] =>
          let created := create c (length store) false in
          (Accepted created, store ++ [created])
      end
  end.

(** Modelled from the spec: the store after the same candidate has been
    submitted [n] times (the retries of section 4.3 and of the offline
    sync); the sync endpoint is missing from the sources. *)
Fixpoint resubmit (n : nat) (c : Candidate) (store : list Observation)
    : list Observation :=
  match n with
  | O => store
  | S n' => resubmit n' c (snd (submit c store))
  end.

(** Modelled from the spec: the store after a sequence of submissions and
    picked resolutions; the endpoints are missing from the sources. *)
Definition step (store : list Observation) (event : Event) : list Observation :=
  match event with
  | Submission c => snd (submit c store)
  | Resolution choice existingId newId => applyResolution choice existingId newId store
  end.

Definition run (events : list Event) (store : list Observation) : list Observation :=
  fold_left step events store.

End Detector.

End ConflictDetector.

(** ** The credibility ledger and the verification of observations *)

Module Verification.

(** Modelled from the spec: the verification states of section 4.5; no
    verification code is part of the sources. *)
Inductive VerificationState : Type :=
  | pending
  | verified
  | disputed
  | under_review
  | resolved_upheld
  | resolved_overturned.

(** Modelled from the spec: a VerificationRecord of section 3 (verifier,
    tier, confidence, notes); no verification table is part of the
    sources. *)
Record VerificationRecord : Type := {
  verifier_id : string;
  tier : nat;
  confidence : Qc;
  notes : string
}.

(** Modelled from the spec: an observation as the Verification State
    Machine of section 4.5 sees it (owner, state, the verifications so far);
    no observation table is part of the sources. *)
Record Observation : Type := {
  owner : string;
  state : VerificationState;
  verifications : list VerificationRecord
}.

(** Modelled from the spec: an entry of the credibility history of section
    3, reduced to its change and its reason; the ledger is missing from the
    sources. *)
Record HistoryEntry : Type := {
  delta : Z;
  change_reason : string
}.

(** Modelled from the spec: the CredibilityRecord of section 3: the score a
    user started with and the append-only history of changes; the backend
    under src reports a constant score and keeps no ledger. *)
Record CredibilityRecord : Type := {
  initial_score : Z;
  history : list HistoryEntry
}.

(** Modelled from the spec: "clamps resulting score to [0,100]" (section
    4.4); no ledger code is part of the sources. *)
Definition clamp (score : Z) : Z := Z.max 0 (Z.min 100 score).

(** Modelled from the spec: "current score always equals the fold of the
    history" (section 3); no ledger code is part of the sources. *)
Definition current (record : CredibilityRecord) : Z :=
  fold_left (λ score entry, clamp (score + delta entry)) (history record)
    (initial_score record).

(** Modelled from the spec: the persisted state of section 6 that
    verification touches: the observations and one credibility record per
    user; neither store is part of the sources. *)
Record System : Type := {
  observations : gmap string Observation;
  ledger : string → CredibilityRecord
}.

Definition score (sys : System) (user : string) : Z := current (ledger sys user).

Definition isPending (observation : Observation) : bool :=
  match state observation with pending => true | _ => false end.

(** Modelled from the spec: "new users start in [0, 20]" (section 3), for
    every record of the ledger. *)
Definition wellFormed (sys : System) : Prop :=
  ∀ user, (0 ≤ initial_score (ledger sys user) ≤ 20)%Z.

(** Modelled from the spec: the typed errors of [submit_verification]
    (section 4.5 and 7); the route is missing from the sources. *)
Inductive VerificationError : Type :=
  | InsufficientCredibility
  | InvalidTier
  | UnknownObservation.

Section Policy.

(** Modelled from the spec: the configured minimum scores of the two tiers
    ("e.g. >= 20", "e.g. >= 70") and two entries of the "tunable policy
    table" of section 4.4: the credit for an observation reaching verified
    and the modest credit for taking part as a verifier. *)
Variable tier1Minimum tier2Minimum : Z.
Variable verifiedCredit participationCredit : Z.

Definition threshold (tier : nat) : option Z :=
  match tier with
  | 1 => Some tier1Minimum
  | 2 => Some tier2Minimum
  | _ => None
  end.

(** Modelled from the spec: [record_outcome(user_id, reason, delta)] of
    section 4.4: appends a history entry and returns the new (clamped)
    score; the ledger is missing from the sources. *)
Definition record_outcome (records : string → CredibilityRecord) (user reason : string)
    (change : Z) : (string → CredibilityRecord) * Z :=
  let record := records user in
  let record' :=
    {| initial_score := initial_score record;
       history := history record ++ [{| delta := change; change_reason := reason |}] |} in
  (λ other, if bool_decide (other = user) then record' else records other,
   current record').

(** Modelled from the spec: [submit_verification] of section 4.5: refused
    unless the verifier's score meets the tier's minimum; "on first
    verification at tier 1 with no prior verification, state -> verified;
    triggers a credibility credit to the observation owner"; and, from
    section 4.4, "active tier-appropriate participation as a verifier credits
    the verifier modestly".  The route is missing from the sources. *)
Definition submit_verification (sys : System) (observation_id verifier : string)
    (verificationTier : nat) (verifierConfidence : Qc) (verifierNotes : string)
    : System + VerificationError :=
  match observations sys !! observation_id with
  | None => inr UnknownObservation
  | Some observation =>
      match threshold verificationTier with
      | None => inr InvalidTier
      | Some minimum =>
          if (score sys verifier <? minimum)%Z then inr InsufficientCredibility
          else
            let first :=
              bool_decide (verificationTier = 1)
              && isPending observation
              && bool_decide (length (verifications observation) = 0) in
            let record :=
              {| verifier_id := verifier; tier := verificationTier;
                 confidence := verifierConfidence; notes := verifierNotes |} in
            let observation' :=
              {| owner := owner observation;
                 state := if first then verified else state observation;
                 verifications := verifications observation ++ [record] |} in
            let credited :=
              if first
              then fst (record_outcome (ledger sys) (owner observation)
                          "observation verified" verifiedCredit)
              else ledger sys in
            inl {| observations := <[observation_id := observation']> (observations sys);
                   ledger :=
                     fst (record_outcome credited verifier
                            "verification participation" participationCredit) |}
      end
  end.

End Policy.

End Verification.

(** ** Concrete scenarios used by the examples below *)

Module Scenarios.
Import JsNumber.

Definition zoneA : Geofence.GeofenceRule :=
  {| Geofence.zone_id := "reserve-a";
     Geofence.iucn_category := "Ia";
     Geofence.geometry := "POINT(1 1)";
     Geofence.buffer_zone_size := Qc_of_Z 500;
     Geofence.blur_radius := Qc_of_Z 1000 |}.

Definition zoneB : Geofence.GeofenceRule :=
  {| Geofence.zone_id := "reserve-b";
     Geofence.iucn_category := "II";
     Geofence.geometry := "POINT(1 1)";
     Geofence.buffer_zone_size := Qc_of_Z 500;
     Geofence.blur_radius := Qc_of_Z 200 |}.

Definition registryA : Geofence.GeofenceRulesResponse :=
  {| Geofence.rules := [zoneA]; Geofence.default_blur_radius := Qc_of_Z 500 |}.

Definition registryAB : Geofence.GeofenceRulesResponse :=
  {| Geofence.rules := [zoneA; zoneB]; Geofence.default_blur_radius := Qc_of_Z 500 |}.

(** The contributor stands at latitude 1, longitude 1; the map is centred
    on the same meridian, at latitude 2, 10 or 60. *)
Definition position : Geofence.Coordinates :=
  {| Geofence.lat := ofZ 1; Geofence.lng := ofZ 1 |}.

Definition centreAt (latitude : Z) : Geofence.Coordinates :=
  {| Geofence.lat := ofZ latitude; Geofence.lng := ofZ 1 |}.

(** [Math.PI] and the haversine distance in km of two points on one
    meridian, [6371 * |deg2rad(dLat)|]; between such points the code's value
    differs from it only by the rounding of its sine, square root and arc
    tangent.  From latitude 1 it gives about 111 km to latitude 2, 1001 km
    to latitude 10 and 6560 km to latitude 60. *)
Definition PI : num := ofDecimal 3141592653589793 15.

Definition meridianDistance (pointA pointB : Geofence.Coordinates) : num :=
  mul (ofZ 6371)
      (abs (mul (sub (Geofence.lat pointB) (Geofence.lat pointA)) (div PI (ofZ 180)))).

(** [Math.cos(1 * Math.PI / 180)]. *)
Definition cosAtOneDegree : num → num := λ _, ofDecimal 9998476951563913 16.

Definition draft : Geofence.ObservationDraft :=
  {| Geofence.draft_id := "obs-1";
     Geofence.category := None;
     Geofence.location := position;
     Geofence.location_precision_meters := ofZ 10;
     Geofence.is_private := false |}.

(** A one-line CSV file and the way its columns are mapped. *)
Definition csvRow (date : string) : gmap string string :=
  {[ "species" := "Lynx lynx"; "lat" := "37.7749"; "lng" := "-122.4194";
     "date" := date ]}.

Definition mapping : gmap string string :=
  {[ "species_name" := "species"; "latitude" := "lat"; "longitude" := "lng";
     "observation_timestamp" := "date" ]}.

(** What [parseFloat], [toFixed] and [Date] give on the cells above; the
    clock stands at 2025-11-02T00:00:00Z. *)
Definition parseFloatOf (s : string) : num :=
  if bool_decide (s = "37.7749") then ofDecimal 377749 4
  else if bool_decide (s = "-122.4194") then ofDecimal (-1224194) 4
  else NaN.

Definition toFixedTextOf (x : num) : string := "NaN".

Definition parseDateOf (s : string) : option Z :=
  if bool_decide (s = "2025-10-01") then Some 1759276800000%Z
  else if bool_decide (s = "2031-01-01") then Some 1924992000000%Z
  else None.

Definition clock : nat → Z := λ _, 1762041600000%Z.
Definition clockMinus90Days : nat → Z := λ _, 1754265600000%Z.

Definition importedRow (date : string) : Batch.BatchObservation :=
  {| Batch.user_id := "user-1";
     Batch.species_name := "Lynx lynx";
     Batch.observation_timestamp := date;
     Batch.latitude := ofDecimal 377749 4;
     Batch.longitude := ofDecimal (-1224194) 4;
     Batch.notes := "";
     Batch.habitat_type := "";
     Batch.is_private := false |}.

Definition validateScenario (csvData : list (gmap string string))
    : Batch.BatchValidationResult :=
  Batch.validateAndTransform parseFloatOf toFixedTextOf parseDateOf clock
    clockMinus90Days true mapping (Some "user-1") csvData.

(** The temporal validation screen on 2025-11-02 (day 20394) with a window
    of 90 days, showing tomorrow's date after the validation request could
    not reach the server. *)
Definition today : Z := 20394.

Definition screenWithTomorrow : Temporal.State :=
  Temporal.validateTimestamp Temporal.Unreachable
    (Temporal.changeTimestamp (today + 1) true
       (Temporal.computeValidationWindow today 90
          (Temporal.initialState today false))).

(** The screen as it was opened the day before, with the date 90 days back
    from then in its URL and the retrospective box left unticked: the window
    is computed once, on mount, so the date lies in the valid range of the
    date input, and on 2025-11-02 it is 91 days old. *)
Definition screenWithOldDate : Temporal.State :=
  Temporal.validateTimestamp Temporal.Unreachable
    (Temporal.computeValidationWindow (today - 1) 90
       (Temporal.initialState (today - 91) false)).

(** A user row and an observation of the conflict detector's store. *)
Definition alice : Server.UserRow :=
  {| Server.id := "user-1"; Server.email := "alice@example.com";
     Server.full_name := "Alice"; Server.created_at := "2025-01-01";
     Server.updated_at := "2025-01-01" |}.

Definition sameCell (a b : Z * Z) : bool := bool_decide (a = b).
Definition sameDay (a b : Z) : bool := bool_decide ((a / 86400000)%Z = (b / 86400000)%Z).

Definition stored : ConflictDetector.Observation :=
  {| ConflictDetector.obs_id := 0;
     ConflictDetector.contributor := "user-1";
     ConflictDetector.species := "species_1";
     ConflictDetector.content := "";
     ConflictDetector.coordinate := (377749, -1224194)%Z;
     ConflictDetector.timestamp := 1762041600000%Z;
     ConflictDetector.idempotency_key := Some "local_1";
     ConflictDetector.conflict_detected := false |}.

Definition candidate (speciesName : string) (key : option string)
    : ConflictDetector.Candidate :=
  {| ConflictDetector.c_contributor := "user-1";
     ConflictDetector.c_species := speciesName;
     ConflictDetector.c_content := "";
     ConflictDetector.c_coordinate := (377749, -1224194)%Z;
     ConflictDetector.c_timestamp := 1762045200000%Z;
     ConflictDetector.c_idempotency_key := key |}.

(** A resolution that leaves the store as it is. *)
Definition noResolution (choice : ConflictDetector.ResolutionOption)
    (existingId newId : nat) (store : list ConflictDetector.Observation)
    : list ConflictDetector.Observation := store.

(** A pending observation of user-1 and a ledger in which the verifier
    stands at 25 and everybody else at 10. *)
Definition pendingObservation : Verification.Observation :=
  {| Verification.owner := "user-1";
     Verification.state := Verification.pending;
     Verification.verifications := [] |}.

Definition startingLedger (user : string) : Verification.CredibilityRecord :=
  {| Verification.initial_score := 10;
     Verification.history :=
       if bool_decide (user = "expert-1")
       then [{| Verification.delta := 15;
                Verification.change_reason := "observation verified" |}]
       else [] |}.

Definition verificationSystem : Verification.System :=
  {| Verification.observations := {[ "obs-1" := pendingObservation ]};
     Verification.ledger := startingLedger |}.

(** The same ledger with seven pending observations of user-1, and the
    system after the verifier has verified the given ones at tier 1 under
    the policy (20, 70, credit 15, participation 1). *)
Definition sevenPending : Verification.System :=
  {| Verification.observations :=
       {[ "obs-1" := pendingObservation; "obs-2" := pendingObservation;
          "obs-3" := pendingObservation; "obs-4" := pendingObservation;
          "obs-5" := pendingObservation; "obs-6" := pendingObservation;
          "obs-7" := pendingObservation ]};
     Verification.ledger := startingLedger |}.

Definition verifyEach (ids : list string) (sys : Verification.System)
    : Verification.System :=
  fold_left
    (λ current observation_id,
       match Verification.submit_verification 20 70 15 1 current observation_id
               "expert-1" 1 1%Qc "" with
       | inl next => next
       | inr _ => current
       end)
    ids sys.

End Scenarios.

(** ** The geofence warning screen over time *)

Module GeofenceFlow.
Import JsNumber Geofence.

Section Flow.

Variable calculateDistance : Coordinates → Coordinates → num.

(** [evolves position st st']: the screen gets from [st] to [st'] through
    runs of the rules effect and moves of the precision slider. *)
Inductive evolves (position : Coordinates) : State → State → Prop :=
  | evolves_here st : evolves position st st
  | evolves_rules st st' answer mapCenter :
      evolves position st st' →
      evolves position st
        (processRules calculateDistance (queryData position answer) position
           mapCenter st')
  | evolves_slider st st' v :
      evolves position st st' →
      isInProtectedZone st' = true →
      (100 ≤ v ≤ 2000)%Z →
      evolves position st (sliderChange v st').

End Flow.

End GeofenceFlow.

(** ** The batch submission screen: reading the file and submitting *)

Module CsvImport.
Import JsNumber Batch.

(** [s.split(sep)] for a one-character separator. *)
Fixpoint split (sep : ascii) (s : string) : list string :=
  match s with
  | EmptyString => [EmptyString]
  | String c rest =>
      if bool_decide (c = sep) then EmptyString :: split sep rest
      else match split sep rest with
           | first :: others => String c first :: others
           | [] => [String c EmptyString]
           end
  end.

Definition newline : ascii := ascii_of_nat 10.
Definition comma : ascii := ascii_of_nat 44.

(** [headers.forEach((header, index) => row[header] = index < values.length
    ? values[index] : '')], from the header at position [index] on.  The map
    holds the row's own properties: an assignment to the key [__proto__]
    reaches the setter of [Object.prototype], which ignores a string, and
    creates none. *)
Fixpoint fillRow (index : nat) (headers values : list string) (row : CsvRow)
    : CsvRow :=
  match headers with
  | [] => row
  | header :: rest =>
      fillRow (S index) rest values
        (if bool_decide (header = "__proto__") then row
         else <[header := default "" (values !! index)]> row)
  end.

(** One data line of the file: skipped when blank. *)
Definition parseLine (headers : list string) (line : string) : option CsvRow :=
  let line := Temporal.trim line in
  if bool_decide (line = "") then None
  else Some (fillRow 0 headers (map Temporal.trim (split comma line)) ∅).

Definition parseCsv (csvText : string) : list string * list CsvRow :=
  match split newline csvText with
  | [] => ([], [])
  | first :: rest =>
      let headers := map Temporal.trim (split comma (Temporal.trim first)) in
      (headers, omap (parseLine headers) rest)
  end.

(** [l.findIndex(p)], with [None] for -1. *)
Fixpoint findIndex (p : string → bool) (l : list string) : option nat :=
  match l with
  | [] => None
  | x :: rest => if p x then Some 0 else S <$> findIndex p rest
  end.

Record BatchSubmissionResult : Type := {
  success_count : Z;
  error_count : Z;
  processed_observations : Z;
  invalid_observations : Z;
  duplicate_count : Z;
  error_report_url : option string
}.

(** The local state of the screen. *)
Record Screen : Type := {
  file : option string;
  isProcessing : bool;
  validationErrors : list ValidationIssue;
  validObservations : list BatchObservation;
  duplicateObservations : list BatchObservation;
  submissionResult : option BatchSubmissionResult;
  screenError : option string;
  columnMapping : gmap string string;
  csvData : list CsvRow;
  headers : list string
}.

Definition initialScreen : Screen :=
  {| file := None; isProcessing := false; validationErrors := [];
     validObservations := []; duplicateObservations := [];
     submissionResult := None; screenError := None; columnMapping := ∅;
     csvData := []; headers := [] |}.

(** How a request to the server ended: its data, or the message of the
    error response if there was one. *)
Inductive Reply (A : Type) : Type :=
  | Answered (data : A)
  | Failed (message : option string).
Arguments Answered {A} data.
Arguments Failed {A} message.

Inductive Request : Type :=
  | PostValidate (observations : list BatchObservation)
  | PostImport (observations : list BatchObservation).

Definition isError (e : ValidationIssue) : bool :=
  match severity e with error => true | warning => false end.

Section Screen.

Variable parseFloat : string → num.
Variable toFixedText : num → string.
Variable parseDate : string → option Z.
(** [s.toLowerCase()] *)
Variable toLowerCase : string → string.
Variable currentUserId : option string.

(** The first header whose lower-case form contains one of the keywords. *)
Definition detect (keywords headers : list string) : option string :=
  findIndex (λ h, existsb (λ k, Temporal.includes k h) keywords)
            (map toLowerCase headers)
  ≫= λ index, headers !! index.

Definition detectInto (field : string) (keywords headers : list string)
    (mapping : gmap string string) : gmap string string :=
  match detect keywords headers with
  | Some header => <[field := header]> mapping
  | None => mapping
  end.

Definition autoDetectColumns (headers : list string) : gmap string string :=
  detectInto "habitat_type" ["habitat"; "ecosystem"; "environment"] headers
    (detectInto "notes" ["notes"; "comments"; "description"] headers
       (detectInto "observation_timestamp"
          ["date"; "timestamp"; "time"; "observation"] headers
          (detectInto "longitude" ["longitude"; "lng"; "long"; "x-coordinate"] headers
             (detectInto "latitude" ["latitude"; "lat"; "y-coordinate"] headers
                (detectInto "species_name" ["species"; "name"; "bird"; "plant"]
                   headers ∅))))).

(** The keywords that [autoDetectColumns] looks for, field by field. *)
Definition fieldKeywords : list (string * list string) :=
  [("species_name", ["species"; "name"; "bird"; "plant"]);
   ("latitude", ["latitude"; "lat"; "y-coordinate"]);
   ("longitude", ["longitude"; "lng"; "long"; "x-coordinate"]);
   ("observation_timestamp", ["date"; "timestamp"; "time"; "observation"]);
   ("notes", ["notes"; "comments"; "description"]);
   ("habitat_type", ["habitat"; "ecosystem"; "environment"])].

(** [validateAndTransform()] as a handler sees it: on the state of the
    render in which the handler was created. *)
Definition validateOn (now ninetyDaysAgo : nat → Z) (st : Screen)
    : BatchValidationResult :=
  validateAndTransform parseFloat toFixedText parseDate now ninetyDaysAgo
    (bool_decide (is_Some (file st))) (columnMapping st) currentUserId (csvData st).

(** [handleFileUpload] for a file whose text could be read: the setters
    take effect with the next render, so the validation at the end still
    sees the file, rows and mapping of the current one. *)
Definition handleFileUpload (fileName csvText : string)
    (now ninetyDaysAgo : nat → Z) (st : Screen) : Screen :=
  let '(newHeaders, rows) := parseCsv csvText in
  let result := validateOn now ninetyDaysAgo st in
  {| file := Some fileName;
     isProcessing := false;
     validationErrors := validation_errors result;
     validObservations := valid_rows result;
     duplicateObservations := duplicate_observations result;
     submissionResult := submissionResult st;
     screenError := None;
     columnMapping := autoDetectColumns newHeaders;
     csvData := rows;
     headers := newHeaders |}.

(** [handleColumnMappingChange]. *)
Definition handleColumnMappingChange (csvHeader field : string)
    (now ninetyDaysAgo : nat → Z) (st : Screen) : Screen :=
  let revalidate :=
    bool_decide (is_Some (file st)) && negb (bool_decide (length (csvData st) = 0)) in
  let result := validateOn now ninetyDaysAgo st in
  {| file := file st;
     isProcessing := isProcessing st;
     validationErrors :=
       if revalidate then validation_errors result else validationErrors st;
     validObservations :=
       if revalidate then valid_rows result else validObservations st;
     duplicateObservations :=
       if revalidate then duplicate_observations result else duplicateObservations st;
     submissionResult := submissionResult st;
     screenError := screenError st;
     columnMapping := <[field := csvHeader]> (columnMapping st);
     csvData := csvData st;
     headers := headers st |}.

(** [resetForm]; [isProcessing] is not one of the fields it clears. *)
Definition resetForm (st : Screen) : Screen :=
  {| file := None; isProcessing := isProcessing st; validationErrors := [];
     validObservations := []; duplicateObservations := [];
     submissionResult := None; screenError := None; columnMapping := ∅;
     csvData := []; headers := [] |}.

Definition withOutcome (st : Screen) (processing : bool)
    (errors : list ValidationIssue) (duplicates : list BatchObservation)
    (result : option BatchSubmissionResult) (err : option string) : Screen :=
  {| file := file st; isProcessing := processing; validationErrors := errors;
     validObservations := validObservations st;
     duplicateObservations := duplicates;
     submissionResult := result; screenError := err;
     columnMapping := columnMapping st; csvData := csvData st;
     headers := headers st |}.

Definition failureMessage (message : option string) : string :=
  Temporal.orText message "Failed to submit batch observations".

(** [submitBatch], run to its end against the replies of the two
    requests: the state it leaves and the requests it has made. *)
Definition submitBatch (validateReply : Reply BatchValidationResult)
    (importReply : Reply BatchSubmissionResult) (st : Screen)
    : Screen * list Request :=
  if bool_decide (length (validObservations st) = 0) then
    (withOutcome st (isProcessing st) (validationErrors st)
       (duplicateObservations st) (submissionResult st)
       (Some "No valid observations to submit. Please fix errors and try again."),
     [])
  else
    let observations := validObservations st in
    match validateReply with
    | Failed message =>
        (withOutcome st false (validationErrors st) (duplicateObservations st)
           (submissionResult st) (Some (failureMessage message)),
         [PostValidate observations])
    | Answered validation =>
        let errors := validation_errors validation in
        let duplicates := duplicate_observations validation in
        let criticalErrors := filter (λ e, isError e = true) errors in
        if negb (bool_decide (length criticalErrors = 0)) then
          (withOutcome st false errors duplicates (submissionResult st)
             (Some ("Validation failed with " +:+ pretty (length criticalErrors)
                    +:+ " critical errors. Please fix and resubmit.")),
           [PostValidate observations])
        else
          match importReply with
          | Failed message =>
              (withOutcome st false errors duplicates (submissionResult st)
                 (Some (failureMessage message)),
               [PostValidate observations; PostImport observations])
          | Answered result =>
              let finished :=
                withOutcome st false errors duplicates (Some result) None in
              (if (0 <? success_count result)%Z then resetForm finished
               else finished,
               [PostValidate observations; PostImport observations])
          end
    end.

End Screen.

End CsvImport.

(** ** The temporal validation screen over time, and its audit trail *)

Module TemporalFlow.
Import Temporal.

(** [evolves st st']: the screen gets from [st] to [st'] through its
    effects and handlers. *)
Inductive evolves : State → State → Prop :=
  | evolves_here st : evolves st st
  | evolves_window st st' today dataRetentionDays :
      evolves st st' →
      evolves st (computeValidationWindow today dataRetentionDays st')
  | evolves_validated st st' reply :
      evolves st st' → evolves st (validateTimestamp reply st')
  | evolves_justification st st' value :
      evolves st st' → isRetrospective st' = true →
      evolves st (changeJustification value st')
  | evolves_retrospective st st' checked :
      evolves st st' → evolves st (changeRetrospective checked st')
  | evolves_timestamp st st' date clearError :
      evolves st st' → evolves st (changeTimestamp date clearError st')
  | evolves_submit st st' observation_id :
      evolves st st' → evolves st (fst (handleSubmit observation_id st'))
  | evolves_settled st st' failure :
      evolves st st' → evolves st (mutationSettled failure st').

(** An active submission of the store, as the audit trail reads it. *)
Record Submission : Type := {
  submission_id : string;
  created_at : string;
  last_modified : option string
}.

Record AuditEntry : Type := {
  entry_timestamp : string;
  action : string;
  details : string
}.

Section Audit.

(** [new Date(s).toLocaleString()] *)
Variable toLocaleString : string → string.

Definition submissionEntries (submission : Submission) : list AuditEntry :=
  {| entry_timestamp := created_at submission;
     action := "Observation created";
     details := "Initial submission at " +:+ toLocaleString (created_at submission) |}
  :: match last_modified submission with
     | Some modified =>
         if bool_decide (modified = "") then []
         else [{| entry_timestamp := modified;
                  action := "Observation updated";
                  details := "Modified at " +:+ toLocaleString modified |}]
     | None => []
     end.

(** [getAuditTrailEntries]; [nowIso] is [new Date().toISOString()]. *)
Definition getAuditTrailEntries (activeSubmissionsData : option (list Submission))
    (observation_id : option string) (nowIso : string) (st : State)
    : list AuditEntry :=
  (match activeSubmissionsData with
   | Some submissions =>
       if bool_decide (orText observation_id "" = "") then []
       else match List.find (λ sub, bool_decide (Some (submission_id sub) = observation_id))
                            submissions with
            | Some currentSubmission => submissionEntries currentSubmission
            | None => []
            end
   | None => []
   end)
  ++ [{| entry_timestamp := nowIso;
         action := "Timestamp validation";
         details := validationMessage st |}].

End Audit.

End TemporalFlow.

(** ** The backend's account handlers

    The fields of a signup body, of a query string and of a profile update
    are strings or absent; the email and the password of a login body are
    any JSON value or absent ([loginRequest]), and [login] is the same
    handler on bodies whose two fields are strings.  The database is the
    [users] table with its primary key on [id] and its unique [email]. *)

Module Accounts.

Record StoredUser : Type := {
  row : Server.UserRow;
  password_hash : string
}.

Record ErrorDetails : Type := {
  error_name : string;
  error_message : string;
  error_stack : string
}.

Record ErrorBody : Type := {
  success : bool;
  message : string;
  timestamp : string;
  error_code : option string;
  details : option ErrorDetails
}.

Record CreatedUser : Type := {
  new_id : string;
  new_email : string;
  new_full_name : string;
  new_created_at : string
}.

Record UserListItem : Type := {
  item_id : string;
  item_email : string;
  item_full_name : string;
  item_expertise_level : string;
  item_credibility_score : Z;
  item_created_at : string;
  item_updated_at : string
}.

Record UserPage : Type := {
  items : list UserListItem;
  total : nat;
  page_limit : nat;
  page_offset : nat;
  has_more : bool
}.

Record UpdatedProfile : Type := {
  upd_id : string;
  upd_email : string;
  upd_full_name : string;
  upd_expertise_level : string;
  upd_primary_location : option string;
  upd_interests : list string;
  upd_credibility_score : Z;
  upd_data_privacy_settings : Server.DataPrivacySettings;
  upd_created_at : string;
  upd_updated_at : string
}.

Inductive Response : Type :=
  | Error (status : nat) (body : ErrorBody)
  | SignedUp (user : CreatedUser)
  | LoggedIn (access_token : string) (user : Server.UserResponse)
  | Listed (page : UserPage)
  | Updated (profile : UpdatedProfile).

Record SignupBody : Type := {
  signup_email : option string;
  signup_password : option string;
  signup_full_name : option string
}.

(** A login body whose email and password are strings or absent. *)
Record LoginBody : Type := {
  login_email : option string;
  login_password : option string
}.

(** A value of a parsed JSON body. *)
Unset Elimination Schemes.
Inductive Json : Type :=
  | JNull
  | JBool (b : bool)
  | JNumber (x : JsNumber.num)
  | JString (s : string)
  | JArray (items : list Json)
  | JObject (fields : list (string * Json)).
Set Elimination Schemes.

(** [v !== text] for a possibly absent field of the body. *)
Definition differsFromText (v : option Json) (text : string) : bool :=
  match v with
  | Some (JString s) => negb (bool_decide (s = text))
  | _ => true
  end.

(** Truthiness of a possibly absent field of the body. *)
Definition truthyField (v : option Json) : bool :=
  match v with
  | None | Some JNull => false
  | Some (JBool b) => b
  | Some (JNumber x) => JsNumber.truthy x
  | Some (JString s) => negb (bool_decide (s = ""))
  | Some (JArray _) | Some (JObject _) => true
  end.

Record SearchQuery : Type := {
  query : option string;
  limit : option string;
  offset : option string;
  sort_by : option string;
  sort_order : option string
}.

Record PrivacyUpdate : Type := {
  set_share_anonymized : option bool;
  set_private_observations_visible : option bool
}.

(** The allowed fields of a profile update that the body carries. *)
Record UpdateBody : Type := {
  body_full_name : option string;
  body_expertise_level : option string;
  body_primary_location : option string;
  body_interests : option (list string);
  body_data_privacy_settings : option PrivacyUpdate
}.

(** Truthiness of a possibly absent string. *)
Definition given (v : option string) : bool :=
  match v with
  | Some s => negb (bool_decide (s = ""))
  | None => false
  end.

Definition emailOf (u : StoredUser) : string := Server.email (row u).
Definition idOf (u : StoredUser) : string := Server.id (row u).

Section Handlers.

(** [s.toLowerCase()], the check behind zod's [.email()], [parseInt], the
    [ILIKE] match of a pattern, and the environment's [NODE_ENV]. *)
Variable toLowerCase : string → string.
Variable isEmail : string → bool.
Variable parseInt : string → option Z.
Variable ilike : string → string → bool.
Variable nodeEnv : string.
(** [ORDER BY sort_by sort_order] *)
Variable orderBy : string → string → list StoredUser → list StoredUser.

Definition createErrorResponse (msg : string) (err : option ErrorDetails)
    (errorCode : option string) (nowIso : string) : ErrorBody :=
  {| success := false;
     message := msg;
     timestamp := nowIso;
     error_code := if given errorCode then errorCode else None;
     details :=
       match err with
       | Some e => if bool_decide (nodeEnv = "development") then Some e else None
       | None => None
       end |}.

Definition lengthBetween (lo hi : nat) (s : string) : bool :=
  bool_decide (lo ≤ String.length s) && bool_decide (String.length s ≤ hi).

(** [createUserInputSchema.parse]: the validated data, or [None] for a
    [ZodError]. *)
Definition parseCreateUserInput (body : SignupBody)
    : option (string * string * string) :=
  match signup_email body, signup_password body, signup_full_name body with
  | Some email, Some password, Some fullName =>
      if isEmail email && lengthBetween 1 255 email
         && lengthBetween 8 255 password && lengthBetween 1 100 fullName
      then Some (email, password, fullName)
      else None
  | _, _, _ => None
  end.

(** [POST /api/auth/signup]; [userId] is the generated id, [nowText] the
    database's current timestamp, [thrown] what the failed statement or the
    validation threw. *)
Definition signup (body : SignupBody) (userId nowText nowIso : string)
    (thrown : ErrorDetails) (users : list StoredUser)
    : Response * list StoredUser :=
  match parseCreateUserInput body with
  | None =>
      (Error 400 (createErrorResponse "Invalid input data" (Some thrown)
                    (Some "VALIDATION_ERROR") nowIso), users)
  | Some (email, password, fullName) =>
      if negb (bool_decide
                 (filter (λ u, emailOf u = toLowerCase email) users = []))
      then (Error 409 (createErrorResponse "User with this email already exists"
                         None (Some "USER_ALREADY_EXISTS") nowIso), users)
      else
        let storedEmail := Temporal.trim (toLowerCase email) in
        if negb (bool_decide
                   (filter (λ u, idOf u = userId ∨ emailOf u = storedEmail) users
                    = []))
        then (Error 500 (createErrorResponse "Internal server error" (Some thrown)
                           (Some "INTERNAL_SERVER_ERROR") nowIso), users)
        else
          let created :=
            {| row := {| Server.id := userId;
                         Server.email := storedEmail;
                         Server.full_name := Temporal.trim fullName;
                         Server.created_at := nowText;
                         Server.updated_at := nowText |};
               password_hash := password |} in
          (SignedUp {| new_id := userId;
                       new_email := storedEmail;
                       new_full_name := Temporal.trim fullName;
                       new_created_at := nowText |},
           users ++ [created])
  end.

(** [POST /api/auth/login]; [token] is the signed token. *)
Definition login (body : LoginBody) (token nowIso : string)
    (users : list StoredUser) : Response :=
  if negb (given (login_email body)) || negb (given (login_password body)) then
    Error 400 (createErrorResponse "Email and password are required" None
                 (Some "MISSING_CREDENTIALS") nowIso)
  else
    let email := default "" (login_email body) in
    let password := default "" (login_password body) in
    match filter (λ u, emailOf u = Temporal.trim (toLowerCase email)) users with
    | [] =>
        Error 401 (createErrorResponse "Invalid email or password" None
                     (Some "INVALID_CREDENTIALS") nowIso)
    | user :: _ =>
        if negb (bool_decide (password = password_hash user)) then
          Error 401 (createErrorResponse "Invalid email or password" None
                       (Some "INVALID_CREDENTIALS") nowIso)
        else
          let profileData := Server.generateUserProfileData (row user) in
          LoggedIn token
            {| Server.res_id := idOf user;
               Server.res_email := emailOf user;
               Server.res_full_name := Server.full_name (row user);
               Server.res_expertise_level := Server.expertise_level profileData;
               Server.res_credibility_score := Server.credibility_score profileData |}
    end.

(** [POST /api/auth/login] on any JSON body: [email.toLowerCase()] throws
    for an email that is truthy but not a string, and the handler answers
    the caught error [thrown] with status 500; a password that is not a
    string differs from every stored one. *)
Definition loginRequest (email password : option Json) (token nowIso : string)
    (thrown : ErrorDetails) (users : list StoredUser) : Response :=
  if negb (truthyField email) || negb (truthyField password) then
    Error 400 (createErrorResponse "Email and password are required" None
                 (Some "MISSING_CREDENTIALS") nowIso)
  else
    match email with
    | Some (JString emailText) =>
        match filter (λ u, emailOf u = Temporal.trim (toLowerCase emailText)) users with
        | [] =>
            Error 401 (createErrorResponse "Invalid email or password" None
                         (Some "INVALID_CREDENTIALS") nowIso)
        | user :: _ =>
            if differsFromText password (password_hash user) then
              Error 401 (createErrorResponse "Invalid email or password" None
                           (Some "INVALID_CREDENTIALS") nowIso)
            else
              let profileData := Server.generateUserProfileData (row user) in
              LoggedIn token
                {| Server.res_id := idOf user;
                   Server.res_email := emailOf user;
                   Server.res_full_name := Server.full_name (row user);
                   Server.res_expertise_level := Server.expertise_level profileData;
                   Server.res_credibility_score :=
                     Server.credibility_score profileData |}
        end
    | _ =>
        Error 500 (createErrorResponse "Internal server error" (Some thrown)
                     (Some "INTERNAL_SERVER_ERROR") nowIso)
    end.

(** [req.query.x ? parseInt(req.query.x) : fallback] *)
Definition intParam (v : option string) (fallback : Z) : option Z :=
  if given v then parseInt (default "" v) else Some fallback.

(** [searchUserInputSchema.parse] on the handler's arguments. *)
Definition parseSearchInput (q : SearchQuery)
    : option (option string * nat * nat * string * string) :=
  match intParam (limit q) 10, intParam (offset q) 0 with
  | Some l, Some o =>
      let sortBy := Temporal.orText (sort_by q) "created_at" in
      let sortOrder := Temporal.orText (sort_order q) "desc" in
      if (0 <? l)%Z && (0 <=? o)%Z
         && bool_decide (sortBy ∈ ["id"; "email"; "full_name"; "created_at"; "updated_at"])
         && bool_decide (sortOrder ∈ ["asc"; "desc"])
      then Some (query q, Z.to_nat l, Z.to_nat o, sortBy, sortOrder)
      else None
  | _, _ => None
  end.

Definition listItem (u : StoredUser) : UserListItem :=
  let profileData := Server.generateUserProfileData (row u) in
  {| item_id := idOf u;
     item_email := emailOf u;
     item_full_name := Server.full_name (row u);
     item_expertise_level := Server.expertise_level profileData;
     item_credibility_score := Server.credibility_score profileData;
     item_created_at := Server.created_at (row u);
     item_updated_at := Server.updated_at (row u) |}.

(** The rows the [WHERE] clause keeps. *)
Definition matching (search : option string) (users : list StoredUser)
    : list StoredUser :=
  if given search && negb (bool_decide (Temporal.trim (default "" search) = "")) then
    let pattern := "%" +:+ Temporal.trim (default "" search) +:+ "%" in
    filter (λ u, ilike pattern (Server.full_name (row u)) = true
                 ∨ ilike pattern (emailOf u) = true) users
  else users.

(** [GET /api/users] for an authenticated request. *)
Definition searchUsers (q : SearchQuery) (nowIso : string) (thrown : ErrorDetails)
    (users : list StoredUser) : Response :=
  match parseSearchInput q with
  | None =>
      Error 400 (createErrorResponse "Invalid query parameters" (Some thrown)
                   (Some "VALIDATION_ERROR") nowIso)
  | Some (search, l, o, sortBy, sortOrder) =>
      let found := matching search users in
      let page := take l (drop o (orderBy sortBy sortOrder found)) in
      Listed {| items := map listItem page;
                total := length found;
                page_limit := l;
                page_offset := o;
                has_more := bool_decide (o + l < length found) |}
  end.

Definition hasAllowedField (body : UpdateBody) : bool :=
  bool_decide (is_Some (body_full_name body))
  || bool_decide (is_Some (body_expertise_level body))
  || bool_decide (is_Some (body_primary_location body))
  || bool_decide (is_Some (body_interests body))
  || bool_decide (is_Some (body_data_privacy_settings body)).

(** The [UPDATE] statement on one row. *)
Definition applyUpdate (user_id nowText : string) (body : UpdateBody)
    (u : StoredUser) : StoredUser :=
  if bool_decide (idOf u = user_id) then
    {| row := {| Server.id := idOf u;
                 Server.email := emailOf u;
                 Server.full_name :=
                   if given (body_full_name body)
                   then default "" (body_full_name body)
                   else Server.full_name (row u);
                 Server.created_at := Server.created_at (row u);
                 Server.updated_at := nowText |};
       password_hash := password_hash u |}
  else u.

Definition mergePrivacy (base : Server.DataPrivacySettings)
    (update : option PrivacyUpdate) : Server.DataPrivacySettings :=
  match update with
  | Some p =>
      {| Server.share_anonymized :=
           default (Server.share_anonymized base) (set_share_anonymized p);
         Server.private_observations_visible :=
           default (Server.private_observations_visible base)
                   (set_private_observations_visible p) |}
  | None => base
  end.

(** [PATCH /api/users/:user_id] for a request authenticated as
    [authenticatedId]. *)
Definition updateUser (authenticatedId user_id : string) (body : UpdateBody)
    (nowText nowIso : string) (users : list StoredUser)
    : Response * list StoredUser :=
  if negb (bool_decide (authenticatedId = user_id)) then
    (Error 403 (createErrorResponse "Forbidden - can only update own profile" None
                  (Some "FORBIDDEN") nowIso), users)
  else if negb (hasAllowedField body) then
    (Error 400 (createErrorResponse "No valid fields to update" None
                  (Some "NO_UPDATE_FIELDS") nowIso), users)
  else
    let users' := map (applyUpdate user_id nowText body) users in
    match filter (λ u, idOf u = user_id) users' with
    | [] =>
        (Error 404 (createErrorResponse "User not found" None
                      (Some "USER_NOT_FOUND") nowIso), users')
    | updatedUser :: _ =>
        let profileData := Server.generateUserProfileData (row updatedUser) in
        (Updated
           {| upd_id := idOf updatedUser;
              upd_email := emailOf updatedUser;
              upd_full_name := Server.full_name (row updatedUser);
              upd_expertise_level :=
                if given (body_expertise_level body)
                then default "" (body_expertise_level body)
                else Server.expertise_level profileData;
              upd_primary_location :=
                if given (body_primary_location body)
                then body_primary_location body
                else Server.primary_location profileData;
              upd_interests :=
                default (Server.interests profileData) (body_interests body);
              upd_credibility_score := Server.credibility_score profileData;
              upd_data_privacy_settings :=
                mergePrivacy (Server.data_privacy_settings profileData)
                             (body_data_privacy_settings body);
              upd_created_at := Server.created_at (row updatedUser);
              upd_updated_at := Server.updated_at (row updatedUser) |},
         users')
    end.

(** The rows as [GET /api/users/:user_id] selects them. *)
Definition selected (users : list StoredUser) : list Server.UserRow := map row users.

End Handlers.

End Accounts.

(** ** What a valid row of the batch validation looks like *)

Module BatchRows.
Import JsNumber Batch.

Section Rows.

Variable columnMapping : gmap string string.
Variable currentUserId : option string.


(** The observation pushed for [row] when its coordinates are [a], [b]. *)
Definition observationOf (row : CsvRow) (a b : Qc) : BatchObservation :=
  {| user_id := orEmpty currentUserId;
     species_name := orEmpty (mappedRow columnMapping row "species_name");
     observation_timestamp :=
       orEmpty (mappedRow columnMapping row "observation_timestamp");
     latitude := Fin a;
     longitude := Fin b;
     notes := orEmpty (mappedRow columnMapping row "notes");
     habitat_type := orEmpty (mappedRow columnMapping row "habitat_type");
     is_private := false |}.

End Rows.

End BatchRows.

(** ** The batch submission screen over time *)

Module CsvImportFlow.
Import JsNumber Batch CsvImport.

(** The [disabled] attribute of the submit button. *)
Definition submitDisabled (st : Screen) : bool :=
  isProcessing st || bool_decide (length (validObservations st) = 0).

Section Flow.

Variable parseFloat : string → num.
Variable toFixedText : num → string.
Variable parseDate : string → option Z.
Variable toLowerCase : string → string.
Variable currentUserId : option string.

(** The states of the screen: files are uploaded, columns are remapped,
    batches are submitted (each run taken as a whole) and the form is
    reset. *)
Inductive reachable : Screen → Prop :=
  | reachable_mount : reachable initialScreen
  | reachable_upload st fileName csvText now ninetyDaysAgo :
      reachable st →
      reachable (handleFileUpload parseFloat toFixedText parseDate toLowerCase
                   currentUserId fileName csvText now ninetyDaysAgo st)
  | reachable_mapping st csvHeader field now ninetyDaysAgo :
      reachable st →
      reachable (handleColumnMappingChange parseFloat toFixedText parseDate
                   currentUserId csvHeader field now ninetyDaysAgo st)
  | reachable_submit st validateReply importReply :
      reachable st →
      reachable (fst (submitBatch validateReply importReply st))
  | reachable_reset st :
      reachable st → reachable (resetForm st).

End Flow.

End CsvImportFlow.

(** ** More concrete scenarios *)

Module MoreScenarios.
Import JsNumber.

Definition asciiLower (s : string) : string := s.

Definition templateText : string :=
  "species,lat,lng,date" +:+ String CsvImport.newline
    ("Lynx lynx, 37.7749 ,-122.4194,2025-10-01" +:+ String CsvImport.newline
       ("" +:+ String CsvImport.newline "Bubo bubo,37.7749")).

Definition uploaded : CsvImport.Screen :=
  CsvImport.handleFileUpload Scenarios.parseFloatOf Scenarios.toFixedTextOf
    Scenarios.parseDateOf asciiLower (Some "user-1") "survey.csv" templateText
    Scenarios.clock Scenarios.clockMinus90Days CsvImport.initialScreen.

Definition remapped : CsvImport.Screen :=
  CsvImport.handleColumnMappingChange Scenarios.parseFloatOf Scenarios.toFixedTextOf
    Scenarios.parseDateOf (Some "user-1") "date" "observation_timestamp"
    Scenarios.clock Scenarios.clockMinus90Days uploaded.

Definition cleanValidation : Batch.BatchValidationResult :=
  {| Batch.valid_rows := []; Batch.validation_errors := [];
     Batch.duplicate_observations := [] |}.

Definition importedOne : CsvImport.BatchSubmissionResult :=
  {| CsvImport.success_count := 1; CsvImport.error_count := 0;
     CsvImport.processed_observations := 1; CsvImport.invalid_observations := 0;
     CsvImport.duplicate_count := 0; CsvImport.error_report_url := None |}.

Definition submission : TemporalFlow.Submission :=
  {| TemporalFlow.submission_id := "obs-1";
     TemporalFlow.created_at := "2025-11-01T10:00:00Z";
     TemporalFlow.last_modified := Some "2025-11-01T12:00:00Z" |}.

Definition localTime (s : string) : string := s.

Definition thrown : Accounts.ErrorDetails :=
  {| Accounts.error_name := "Error"; Accounts.error_message := "";
     Accounts.error_stack := "" |}.

(** What [email.toLowerCase()] throws for an email that is not a string. *)
Definition notAFunction : Accounts.ErrorDetails :=
  {| Accounts.error_name := "TypeError";
     Accounts.error_message := "email.toLowerCase is not a function";
     Accounts.error_stack := "" |}.

Definition anyEmail (s : string) : bool := true.
Definition parseIntOf (s : string) : option Z :=
  if bool_decide (s = "2") then Some 2%Z else None.
Definition ilikeAll (pattern s : string) : bool := true.
Definition unordered (sortBy sortOrder : string) (users : list Accounts.StoredUser)
    : list Accounts.StoredUser := users.

Definition bob : Accounts.StoredUser :=
  {| Accounts.row :=
       {| Server.id := "user-2"; Server.email := "bob@example.com";
          Server.full_name := "Bob"; Server.created_at := "2025-01-02";
          Server.updated_at := "2025-01-02" |};
     Accounts.password_hash := "bobs-password" |}.

Definition member (name : string) : Accounts.StoredUser :=
  {| Accounts.row :=
       {| Server.id := "user-" +:+ name; Server.email := name +:+ "@example.com";
          Server.full_name := name; Server.created_at := "2025-01-03";
          Server.updated_at := "2025-01-03" |};
     Accounts.password_hash := name +:+ "-password" |}.

Definition members : list Accounts.StoredUser :=
  [bob; member "dave"; member "erin"; member "frank"; member "grace"].

Definition carolSignup : Accounts.SignupBody :=
  {| Accounts.signup_email := Some "carol@example.com";
     Accounts.signup_password := Some "password123";
     Accounts.signup_full_name := Some "Carol" |}.

Definition carolLogin : Accounts.LoginBody :=
  {| Accounts.login_email := Some "carol@example.com";
     Accounts.login_password := Some "password123" |}.

Definition renameBob : Accounts.UpdateBody :=
  {| Accounts.body_full_name := Some "Robert";
     Accounts.body_expertise_level := Some "expert";
     Accounts.body_primary_location := None;
     Accounts.body_interests := None;
     Accounts.body_data_privacy_settings := None |}.

Definition secondPage : Accounts.SearchQuery :=
  {| Accounts.query := None; Accounts.limit := Some "2"; Accounts.offset := Some "2";
     Accounts.sort_by := None; Accounts.sort_order := None |}.

End MoreScenarios.

(** * Properties *)

(** ** Rounding to binary64 *)

Section Binary64Facts.
Import Binary64.
Local Open Scope Q_scope.

Lemma pow2_pos (k : Z) : 0 < 2 ^ k.
Proof. apply Qpower_0_lt. reflexivity. Qed.

Lemma pow2_add (a b : Z) : 2 ^ (a + b) == 2 ^ a * 2 ^ b.
Proof. apply Qpower_plus. discriminate. Qed.

Lemma pow2_succ (a : Z) : 2 ^ (a + 1) == 2 * 2 ^ a.
Proof. rewrite pow2_add. change (2 ^ 1) with 2. ring. Qed.

Lemma pow2_pred (a : Z) : 2 ^ a == 2 * 2 ^ (a - 1).
Proof. rewrite <- pow2_succ. replace (a - 1 + 1)%Z with a by lia. reflexivity. Qed.

Lemma pow2_le (a b : Z) : (a <= b)%Z → 2 ^ a <= 2 ^ b.
Proof. intros H. apply Qpower_le_compat_l; [exact H|]. discriminate. Qed.

Lemma pow2_lt (a b : Z) : (a < b)%Z → 2 ^ a < 2 ^ b.
Proof. intros H. apply Qpower_lt_compat_l; [exact H|]. reflexivity. Qed.

Lemma pow2_inject (k : Z) : (0 <= k)%Z → inject_Z (2 ^ k) == 2 ^ k.
Proof. intros H. rewrite (Zpower_Qpower 2 k H). reflexivity. Qed.

Lemma ilog2_spec (m : Q) :
  0 < m → 2 ^ ilog2 m <= m ∧ m < 2 ^ (ilog2 m + 1).
Proof.
  intros Hm. destruct m as [p d]. unfold ilog2. cbn [Qnum Qden].
  assert (Hp : (0 < p)%Z) by (unfold Qlt in Hm; simpl in Hm; lia).
  pose proof (Z.log2_nonneg p) as Ha0.
  pose proof (Z.log2_nonneg (Z.pos d)) as Hb0.
  destruct (Z.log2_spec p Hp) as [Hpl Hpu].
  destruct (Z.log2_spec (Z.pos d) eq_refl) as [Hdl Hdu].
  set (a := Z.log2 p) in *. set (b := Z.log2 (Z.pos d)) in *.
  assert (Hq : p # d == inject_Z p / inject_Z (Z.pos d)) by apply Qmake_Qdiv.
  assert (Hd : 0 < inject_Z (Z.pos d)) by reflexivity.
  assert (HpQ : 2 ^ a <= inject_Z p ∧ inject_Z p < 2 * 2 ^ a).
  { rewrite <- pow2_succ, <- !pow2_inject by lia.
    rewrite <- Zle_Qle, <- Zlt_Qlt. unfold Z.succ in Hpu. lia. }
  assert (HdQ : 2 ^ b <= inject_Z (Z.pos d) ∧ inject_Z (Z.pos d) < 2 * 2 ^ b).
  { rewrite <- pow2_succ, <- !pow2_inject by lia.
    rewrite <- Zle_Qle, <- Zlt_Qlt. unfold Z.succ in Hdu. lia. }
  assert (Hab : 2 ^ a == 2 ^ (a - b) * 2 ^ b).
  { rewrite <- pow2_add. replace (a - b + b)%Z with a by lia. reflexivity. }
  pose proof (pow2_pos (a - b)) as Hpos. pose proof (pow2_pos b) as Hposb.
  revert Hq HpQ HdQ Hab Hpos Hposb Hd.
  generalize (inject_Z p) (inject_Z (Z.pos d)) (2 ^ a) (2 ^ b).
  intros P D A B Hq [HP1 HP2] [HD1 HD2] Hab Hpos Hposb Hd.
  assert (Hlow : 2 ^ (a - b - 1) < p # d).
  { rewrite Hq. apply Qlt_shift_div_l; [exact Hd|].
    pose proof (pow2_pred (a - b)) as Hpred. 
    pose proof (pow2_pos (a - b - 1)) as Hpp. nra. }
  assert (Hhigh : p # d < 2 ^ (a - b + 1)).
  { rewrite Hq. apply Qlt_shift_div_r; [exact Hd|].
    rewrite pow2_succ. nra. }
  destruct (Qle_bool (2 ^ (a - b)) (p # d)) eqn:Hcmp.
  - apply Qle_bool_iff in Hcmp. split; assumption.
  - assert (Hlt : p # d < 2 ^ (a - b)).
    { apply Qnot_le_lt. intros Hle. apply Qle_bool_iff in Hle. congruence. }
    replace (a - b - 1 + 1)%Z with (a - b)%Z by lia.
    split; [apply Qlt_le_weak|]; assumption.
Qed.


(** Bounds on an absolute value, for linear arithmetic. *)
Lemma Qabs_bounds (x : Q) : x <= Qabs x ∧ - x <= Qabs x.
Proof. split; [apply Qle_Qabs|]. rewrite <- Qabs_opp. apply Qle_Qabs. Qed.

Lemma Qabs_le_of (x y : Q) : - y <= x → x <= y → Qabs x <= y.
Proof. intros H1 H2. apply Qabs_Qle_condition. split; assumption. Qed.

Lemma nearestEven_floor (s : Q) :
  nearestEven s = Qfloor s ∨ nearestEven s = (Qfloor s + 1)%Z.
Proof.
  unfold nearestEven. destruct (Qcompare _ _); [destruct (Z.even _)|..]; auto.
Qed.

Lemma nearestEven_nearest (s : Q) (t : Z) :
  Qabs (inject_Z (nearestEven s) - s) <= Qabs (inject_Z t - s).
Proof.
  pose proof (Qfloor_le s) as Hlo. pose proof (Qlt_floor s) as Hhi.
  rewrite inject_Z_plus in Hhi. change (inject_Z 1) with 1 in Hhi.
  destruct (Qabs_bounds (inject_Z t - s)) as [HA1 HA2].
  assert (Ht : inject_Z t <= inject_Z (Qfloor s) ∨ inject_Z (Qfloor s) + 1 <= inject_Z t).
  { destruct (Z_le_gt_dec t (Qfloor s)) as [H|H].
    - left. rewrite <- Zle_Qle. exact H.
    - right. change 1 with (inject_Z 1). rewrite <- inject_Z_plus, <- Zle_Qle. lia. }
  unfold nearestEven.
  destruct (Qcompare (s - inject_Z (Qfloor s)) (1 # 2)) eqn:Hcmp.
  - apply Qeq_alt in Hcmp.
    destruct (Z.even (Qfloor s)); [|rewrite inject_Z_plus; change (inject_Z 1) with 1];
      apply Qabs_le_of; destruct Ht; lra.
  - apply Qlt_alt in Hcmp. apply Qabs_le_of; destruct Ht; lra.
  - apply Qgt_alt in Hcmp. rewrite inject_Z_plus. change (inject_Z 1) with 1.
    apply Qabs_le_of; destruct Ht; lra.
Qed.

Lemma nearestEven_close (s : Q) : Qabs (inject_Z (nearestEven s) - s) <= 1 # 2.
Proof.
  pose proof (Qfloor_le s) as Hlo. pose proof (Qlt_floor s) as Hhi.
  rewrite inject_Z_plus in Hhi. change (inject_Z 1) with 1 in Hhi.
  unfold nearestEven.
  destruct (Qcompare (s - inject_Z (Qfloor s)) (1 # 2)) eqn:Hcmp.
  - apply Qeq_alt in Hcmp.
    destruct (Z.even (Qfloor s)); [|rewrite inject_Z_plus; change (inject_Z 1) with 1];
      apply Qabs_le_of; lra.
  - apply Qlt_alt in Hcmp. apply Qabs_le_of; lra.
  - apply Qgt_alt in Hcmp. rewrite inject_Z_plus. change (inject_Z 1) with 1.
    apply Qabs_le_of; lra.
Qed.

(** An integer is its own nearest integer. *)
Lemma nearestEven_inject (n : Z) : nearestEven (inject_Z n) = n.
Proof.
  pose proof (nearestEven_nearest (inject_Z n) n) as H.
  assert (Hz : inject_Z n - inject_Z n == 0) by ring.
  rewrite Hz in H. change (Qabs 0) with 0 in H.
  destruct (Qabs_bounds (inject_Z (nearestEven (inject_Z n)) - inject_Z n)) as [H1 H2].
  assert (Heq : inject_Z (nearestEven (inject_Z n)) == inject_Z n) by lra.
  unfold Qeq in Heq. simpl in Heq. lia.
Qed.

(** The scaled significand of a positive number lies in [2^52, 2^53). *)
Lemma significand_range (m : Q) :
  0 < m →
  let k := (ilog2 m - 52)%Z in
  2 ^ 52 <= m / 2 ^ k ∧ m / 2 ^ k < 2 ^ 53 ∧ m == (m / 2 ^ k) * 2 ^ k.
Proof.
  intros Hm k. destruct (ilog2_spec m Hm) as [Hlo Hhi].
  pose proof (pow2_pos k) as Hk.
  assert (He : 2 ^ ilog2 m == 2 ^ 52 * 2 ^ k).
  { rewrite <- pow2_add. replace (52 + k)%Z with (ilog2 m) by (unfold k; lia).
    reflexivity. }
  assert (He' : 2 ^ (ilog2 m + 1) == 2 ^ 53 * 2 ^ k).
  { rewrite <- pow2_add. replace (53 + k)%Z with (ilog2 m + 1)%Z by (unfold k; lia).
    reflexivity. }
  rewrite He in Hlo. rewrite He' in Hhi.
  split; [|split].
  - apply Qle_shift_div_l; assumption.
  - apply Qlt_shift_div_r; assumption.
  - field. intros H0. rewrite H0 in Hk. discriminate.
Qed.


Lemma significand_rounded (m : Q) :
  0 < m →
  let N := nearestEven (m / 2 ^ (ilog2 m - 52)) in
  (2 ^ 52 <= N <= 2 ^ 53)%Z.
Proof.
  intros Hm N. destruct (significand_range m Hm) as (Hlo & Hhi & _).
  set (s := m / 2 ^ (ilog2 m - 52)) in *.
  pose proof (Qfloor_le s) as Hfl. pose proof (Qlt_floor s) as Hfu.
  rewrite <- (pow2_inject 52) in Hlo by lia.
  rewrite <- (pow2_inject 53) in Hhi by lia.
  assert (H1 : (2 ^ 52 <= Qfloor s)%Z).
  { rewrite <- (Qfloor_Z (2 ^ 52)). apply Qfloor_resp_le. exact Hlo. }
  assert (H2 : (Qfloor s < 2 ^ 53)%Z).
  { rewrite Zlt_Qlt. eapply Qle_lt_trans; eassumption. }
  unfold N. destruct (nearestEven_floor s) as [->| ->]; lia.
Qed.

Lemma roundPositive_pos (m : Q) : 0 < m → 0 < roundPositive m.
Proof.
  intros Hm. unfold roundPositive.
  pose proof (significand_rounded m Hm) as [HN _]. cbv zeta in HN.
  pose proof (pow2_pos (ilog2 m - 52)) as Hk.
  assert (H0 : 0 < inject_Z (nearestEven (m / 2 ^ (ilog2 m - 52)))).
  { change 0 with (inject_Z 0). rewrite <- Zlt_Qlt. lia. }
  nra.
Qed.

Lemma roundPositive_float (m : Q) : 0 < m → isFloatQ (roundPositive m).
Proof.
  intros Hm. unfold roundPositive.
  pose proof (significand_rounded m Hm) as [HN1 HN2]. cbv zeta in HN1, HN2.
  set (N := nearestEven (m / 2 ^ (ilog2 m - 52))) in *.
  destruct (Z_lt_le_dec N (2 ^ 53)) as [Hlt|Hge].
  - exists N, (ilog2 m - 52)%Z. split; [lia|reflexivity].
  - assert (HN : N = (2 ^ 53)%Z) by lia.
    exists (2 ^ 52)%Z, (ilog2 m - 52 + 1)%Z. split; [reflexivity|].
    rewrite HN, pow2_succ.
    assert (H2 : inject_Z (2 ^ 53) == 2 * inject_Z (2 ^ 52)) by reflexivity.
    rewrite H2. ring.
Qed.

(** [roundPositive m] is a float nearest to [m]. *)
Lemma roundPositive_nearest (m z : Q) :
  0 < m → isFloatQ z → Qabs (roundPositive m - m) <= Qabs (z - m).
Proof.
  intros Hm (M & j & HM & Hz).
  destruct (significand_range m Hm) as (Hlo & _ & Hms).
  unfold roundPositive.
  set (k := (ilog2 m - 52)%Z) in *. set (s := m / 2 ^ k) in *.
  pose proof (pow2_pos k) as HP.
  pose proof (nearestEven_nearest s) as Hnear.
  set (N := nearestEven s) in *.
  assert (Hy : Qabs (inject_Z N * 2 ^ k - m) == Qabs (inject_Z N - s) * 2 ^ k).
  { rewrite Hms at 1.
    assert (Hf : inject_Z N * 2 ^ k - s * 2 ^ k == (inject_Z N - s) * 2 ^ k) by ring.
    rewrite Hf, Qabs_Qmult, (Qabs_pos (2 ^ k)) by (apply Qlt_le_weak, HP).
    reflexivity. }
  rewrite Hy.
  destruct (Z_le_gt_dec k j) as [Hkj|Hkj].
  - (* [z] is a multiple of [2^k] *)
    assert (Ht : z == inject_Z (M * 2 ^ (j - k)) * 2 ^ k).
    { rewrite Hz, inject_Z_mult, pow2_inject by lia.
      rewrite <- Qmult_assoc, <- pow2_add.
      replace (j - k + k)%Z with j by lia. reflexivity. }
    assert (Hzm : Qabs (z - m) == Qabs (inject_Z (M * 2 ^ (j - k)) - s) * 2 ^ k).
    { rewrite Hms at 1. rewrite Ht.
      assert (Hf : inject_Z (M * 2 ^ (j - k)) * 2 ^ k - s * 2 ^ k
                   == (inject_Z (M * 2 ^ (j - k)) - s) * 2 ^ k) by ring.
      rewrite Hf, Qabs_Qmult, (Qabs_pos (2 ^ k)) by (apply Qlt_le_weak, HP).
      reflexivity. }
    rewrite Hzm. apply Qmult_le_compat_r; [apply Hnear|apply Qlt_le_weak, HP].
  - (* [z] lies below the binade of [m] *)
    assert (Hzle : z <= 2 ^ 52 * 2 ^ k).
    { rewrite Hz. pose proof (pow2_pos j) as Hj.
      assert (HM' : inject_Z M <= 2 ^ 53).
      { rewrite <- (pow2_inject 53) by lia. rewrite <- Zle_Qle. lia. }
      assert (Hjk : 2 * 2 ^ j <= 2 ^ k).
      { rewrite <- pow2_succ. apply pow2_le. lia. }
      assert (H53 : (2 ^ 53 == 2 * 2 ^ 52)%Q) by reflexivity.
      pose proof (pow2_pos 52) as H52.
      revert HM' Hjk H53 H52 Hj HP.
      generalize (inject_Z M) (2 ^ j) (2 ^ k) (2 ^ 53)%Q (2 ^ 52)%Q.
      intros x pj pk c53 c52 HM' Hjk H53 H52 Hj HP. nra. }
    pose proof (Hnear (2 ^ 52)%Z) as H52.
    rewrite (pow2_inject 52) in H52 by lia.
    assert (Hb : Qabs (2 ^ 52 - s) <= s - 2 ^ 52) by (apply Qabs_le_of; lra).
    destruct (Qabs_bounds (z - m)) as [_ Hzm].
    assert (HD : 0 <= Qabs (inject_Z N - s)) by apply Qabs_nonneg.
    revert Hzm Hzle Hb H52 HD Hms HP Hlo.
    generalize (Qabs (z - m)) (Qabs (inject_Z N - s)) (Qabs (2 ^ 52 - s)) (2 ^ k)
               (2 ^ 52)%Q.
    intros A D B P c Hzm Hzle Hb H52 HD Hms HP Hlo. nra.
Qed.


Lemma isFloatQ_opp (x : Q) : isFloatQ x → isFloatQ (- x).
Proof.
  intros (M & j & HM & Hx). exists (- M)%Z, j. split; [lia|].
  rewrite Hx, inject_Z_opp. ring.
Qed.

Lemma isFloatQ_comp (x y : Q) : x == y → isFloatQ x → isFloatQ y.
Proof. intros Hxy (M & j & HM & Hx). exists M, j. rewrite <- Hxy. auto. Qed.

Lemma isFloatQ_0 : isFloatQ 0.
Proof. exists 0%Z, 0%Z. split; reflexivity. Qed.

Lemma Qc_pos_Q (q : Qc) : (0 < q)%Qc → 0 < q.
Proof. intros H. exact H. Qed.

Lemma Qc_neg_Q (q : Qc) : (q < 0)%Qc → 0 < - q.
Proof. intros H. change ((q : Q) < 0) in H. lra. Qed.

Lemma Qc_sign_cases (q : Qc) : q = 0%Qc ∨ (q < 0)%Qc ∨ (0 < q)%Qc.
Proof.
  destruct (Qc_dec q 0) as [[H|H]|H]; auto.
Qed.

Lemma round_0 : round 0 = 0%Qc.
Proof. reflexivity. Qed.

Lemma Qcopp_pos (q : Qc) : (q < 0)%Qc → (0 < - q)%Qc.
Proof.
  intros Hq. pose proof (Qc_neg_Q q Hq) as H. unfold Qclt.
  cbn [Qcopp Q2Qc this]. rewrite !Qred_correct. exact H.
Qed.

Lemma Qcopp_neg (q : Qc) : (0 < q)%Qc → (- q < 0)%Qc.
Proof.
  intros Hq. pose proof (Qc_pos_Q q Hq) as H. unfold Qclt.
  cbn [Qcopp Q2Qc this]. rewrite !Qred_correct. lra.
Qed.

Lemma round_pos (q : Qc) : (0 < q)%Qc → round q = Q2Qc (roundPositive q).
Proof.
  intros Hq. unfold round.
  rewrite bool_decide_eq_false_2
    by (intros H0; subst q; exact (Qclt_not_eq _ _ Hq eq_refl)).
  rewrite bool_decide_eq_false_2 by (apply Qcle_not_lt, Qclt_le_weak, Hq).
  reflexivity.
Qed.

Lemma round_neg (q : Qc) : (q < 0)%Qc → round q = (- round (- q))%Qc.
Proof.
  intros Hq. rewrite (round_pos _ (Qcopp_pos q Hq)). unfold round.
  rewrite bool_decide_eq_false_2
    by (intros H0; subst q; exact (Qclt_not_eq _ _ Hq eq_refl)).
  rewrite bool_decide_eq_true_2 by exact Hq. reflexivity.
Qed.

Lemma round_opp (q : Qc) : round (- q) = (- round q)%Qc.
Proof.
  destruct (Qc_sign_cases q) as [->|[Hq|Hq]].
  - reflexivity.
  - rewrite (round_neg q Hq), Qcopp_involutive. reflexivity.
  - rewrite (round_neg _ (Qcopp_neg q Hq)), Qcopp_involutive. reflexivity.
Qed.

Lemma isFloat_opp (x : Qc) : isFloat x → isFloat (- x).
Proof.
  unfold isFloat. intros H. cbn [Qcopp Q2Qc this].
  apply (isFloatQ_comp (- x)); [rewrite Qred_correct; reflexivity|].
  apply isFloatQ_opp, H.
Qed.

Lemma round_float (q : Qc) : isFloat (round q).
Proof.
  assert (Hpos : ∀ p : Qc, (0 < p)%Qc → isFloat (round p)).
  { intros p Hp. rewrite (round_pos p Hp). unfold isFloat. cbn [Q2Qc this].
    apply (isFloatQ_comp (roundPositive p)); [rewrite Qred_correct; reflexivity|].
    apply roundPositive_float. exact Hp. }
  destruct (Qc_sign_cases q) as [->|[Hq|Hq]].
  - exact isFloatQ_0.
  - rewrite (round_neg q Hq). apply isFloat_opp, Hpos, Qcopp_pos, Hq.
  - apply Hpos, Hq.
Qed.

(** No float is nearer to [q] than [round q]. *)
Lemma round_nearest (q z : Qc) :
  isFloat z → Qabs (round q - q) <= Qabs (z - q).
Proof.
  assert (Hpos : ∀ p y : Qc, (0 < p)%Qc → isFloat y →
                   Qabs (round p - p) <= Qabs (y - p)).
  { intros p y Hp Hy. rewrite (round_pos p Hp). cbn [Q2Qc this].
    rewrite Qred_correct. apply roundPositive_nearest; assumption. }
  intros Hz. destruct (Qc_sign_cases q) as [->|[Hq|Hq]].
  - rewrite round_0.
    assert (H0 : (0%Qc : Q) - (0%Qc : Q) == 0) by reflexivity.
    rewrite H0. apply Qabs_nonneg.
  - pose proof (Hpos _ _ (Qcopp_pos q Hq) (isFloat_opp z Hz)) as H.
    rewrite (round_neg q Hq).
    revert H. generalize (round (- q)). intros y H.
    cbn [Qcopp Q2Qc this] in *. rewrite !Qred_correct in *.
    assert (H1 : - y - q == - (y - - q)) by ring.
    assert (H2 : - z - - q == - (z - q)) by ring.
    rewrite H1, Qabs_opp. rewrite H2, Qabs_opp in H. exact H.
  - apply Hpos; assumption.
Qed.

Lemma round_fixed (x : Qc) : isFloat x → round x = x.
Proof.
  intros Hx. pose proof (round_nearest x x Hx) as H.
  assert (H0 : (x : Q) - x == 0) by ring.
  rewrite H0 in H. change (Qabs 0) with 0 in H.
  destruct (Qabs_bounds (round x - x)) as [H1 H2].
  apply Qc_is_canon. lra.
Qed.

Lemma round_idempotent (q : Qc) : round (round q) = round q.
Proof. apply round_fixed, round_float. Qed.


Lemma round_nonzero (q : Qc) : q ≠ 0%Qc → round q ≠ 0%Qc.
Proof.
  assert (Hpos : ∀ p : Qc, (0 < p)%Qc → (0 < round p)%Qc).
  { intros p Hp. rewrite (round_pos p Hp). unfold Qclt. cbn [Q2Qc this].
    rewrite !Qred_correct. apply (roundPositive_pos p Hp). }
  intros Hq. destruct (Qc_sign_cases q) as [->|[Hneg|Hq']]; [done|..].
  - rewrite (round_neg q Hneg). intros H0.
    pose proof (Hpos _ (Qcopp_pos q Hneg)) as H.
    apply (Qclt_not_eq _ _ H). symmetry.
    rewrite <- (Qcopp_involutive (round (- q))), H0. reflexivity.
  - intros H0. apply (Qclt_not_eq _ _ (Hpos q Hq')). symmetry. exact H0.
Qed.


Lemma not_divide_5_pow2 (J : Z) : (0 <= J)%Z → ¬ (5 | 2 ^ J)%Z.
Proof.
  intros HJ. pattern J. apply natlike_ind; [| |exact HJ].
  - intros [k Hk]. change (2 ^ 0)%Z with 1%Z in Hk. lia.
  - intros n Hn IH Hdiv. apply IH. rewrite Z.pow_succ_r in Hdiv by exact Hn.
    destruct Hdiv as [k Hk]. exists (3 * k - 2 ^ n)%Z.
    revert Hk. generalize (2 ^ n)%Z. intros x Hk. lia.
Qed.

(** A float scaled by a large enough power of two is an integer. *)
Lemma isFloatQ_scaled (x : Q) :
  isFloatQ x → ∃ J0 : Z, ∀ J : Z, (J0 <= J)%Z → ∃ I : Z, x * 2 ^ J == inject_Z I.
Proof.
  intros (M & j & _ & Hx). exists (- j)%Z. intros J HJ.
  exists (M * 2 ^ (j + J))%Z.
  rewrite Hx, inject_Z_mult, pow2_inject by lia.
  rewrite <- Qmult_assoc, <- pow2_add. reflexivity.
Qed.

(** Two floats are never exactly one millionth apart. *)
Lemma float_gap (x y : Q) :
  isFloatQ x → isFloatQ y → ¬ (y - x == 1 # 1000000).
Proof.
  intros Hx Hy Hgap.
  destruct (isFloatQ_scaled x Hx) as [Jx HJx].
  destruct (isFloatQ_scaled y Hy) as [Jy HJy].
  set (J := Z.max 0 (Z.max Jx Jy)).
  destruct (HJx J ltac:(lia)) as [Ix HIx].
  destruct (HJy J ltac:(lia)) as [Iy HIy].
  assert (HJ : (0 <= J)%Z) by lia.
  assert (Heq : inject_Z ((Iy - Ix) * 1000000) == inject_Z (2 ^ J)).
  { rewrite inject_Z_mult. unfold Z.sub. rewrite inject_Z_plus, inject_Z_opp.
    rewrite <- HIx, <- HIy, pow2_inject by exact HJ.
    assert (Hf : (y * 2 ^ J + - (x * 2 ^ J)) * inject_Z 1000000
                 == (y - x) * inject_Z 1000000 * 2 ^ J) by ring.
    rewrite Hf, Hgap.
    assert (H1 : (1 # 1000000) * inject_Z 1000000 == 1) by reflexivity.
    rewrite H1. ring. }
  unfold Qeq in Heq. simpl in Heq. rewrite !Z.mul_1_r in Heq.
  apply (not_divide_5_pow2 J HJ). exists ((Iy - Ix) * 200000)%Z. lia.
Qed.

(** A float of magnitude [2^53] or more is an integer. *)
Lemma float_big_integer (x : Q) :
  isFloatQ x → 2 ^ 53 <= Qabs x → ∃ n : Z, x == inject_Z n.
Proof.
  intros (M & j & HM & Hx) Hbig.
  destruct (Z_le_gt_dec 0 j) as [Hj|Hj].
  - exists (M * 2 ^ j)%Z. rewrite Hx, inject_Z_mult, pow2_inject by exact Hj.
    reflexivity.
  - exfalso. rewrite Hx, Qabs_Qmult, (Qabs_pos (2 ^ j)) in Hbig
      by (apply Qlt_le_weak, pow2_pos).
    assert (Hj1 : 2 ^ j <= 1).
    { change 1 with (2 ^ 0). apply pow2_le. lia. }
    assert (HMq : Qabs (inject_Z M) < 2 ^ 53).
    { rewrite <- (pow2_inject 53) by lia.
      assert (Habs : Qabs (inject_Z M) == inject_Z (Z.abs M)).
      { unfold Qabs, inject_Z. reflexivity. }
      rewrite Habs, <- Zlt_Qlt. exact HM. }
    pose proof (pow2_pos j) as Hjpos.
    pose proof (Qabs_nonneg (inject_Z M)) as HM0.
    revert Hbig Hj1 HMq Hjpos HM0.
    generalize (Qabs (inject_Z M)) (2 ^ j) (2 ^ 53)%Q.
    intros A P c Hbig Hj1 HMq Hjpos HM0. nra.
Qed.

End Binary64Facts.

(** ** Arithmetic on numbers *)

Section NumberFacts.
Import Binary64 JsNumber.
Local Open Scope Qc_scope.

Lemma Qc_of_Z_opp (n : Z) : Qc_of_Z (- n) = - Qc_of_Z n.
Proof. apply Qc_is_canon. simpl. rewrite Qred_correct. reflexivity. Qed.

Ltac qc_to_q :=
  unfold Qcle, Qclt, Qcminus, Qcdiv, million, half in *;
  cbn [this Qcplus Qcmult Qcopp Qcinv Q2Qc Qc_of_Z] in *;
  rewrite ?Qred_correct in *.

Lemma magnitude_Qabs (q : Qc) : (magnitude q == Qabs q)%Q.
Proof.
  unfold magnitude. case_bool_decide as Hneg.
  - change ((q : Q) < 0)%Q in Hneg. cbn [this Qcopp Q2Qc]. rewrite Qred_correct.
    symmetry. apply Qabs_neg. lra.
  - assert (Hq : (0 <= q)%Q).
    { apply Qnot_lt_le. intros H. apply Hneg. exact H. }
    symmetry. apply Qabs_pos. exact Hq.
Qed.

Lemma magnitude_opp (q : Qc) : magnitude (- q) = magnitude q.
Proof.
  apply Qc_is_canon. rewrite !magnitude_Qabs. cbn [this Qcopp Q2Qc].
  rewrite Qred_correct. apply Qabs_opp.
Qed.

Lemma magnitude_nonneg (q : Qc) : 0 ≤ magnitude q.
Proof.
  unfold Qcle. rewrite magnitude_Qabs. apply Qabs_nonneg.
Qed.

Lemma Qfloor_unique (x : Q) (n : Z) :
  (inject_Z n <= x)%Q → (x < inject_Z (n + 1))%Q → Qfloor x = n.
Proof.
  intros Hlo Hhi.
  pose proof (Qfloor_le x) as Hfl. pose proof (Qlt_floor x) as Hfu.
  assert (H1 : (Qfloor x < n + 1)%Z).
  { rewrite Zlt_Qlt. eapply Qle_lt_trans; eassumption. }
  assert (H2 : (n < Qfloor x + 1)%Z).
  { rewrite Zlt_Qlt. eapply Qle_lt_trans; eassumption. }
  lia.
Qed.

Lemma Qcfloor_spec (q : Qc) :
  (inject_Z (Qcfloor q) <= q)%Q ∧ (q < inject_Z (Qcfloor q + 1))%Q.
Proof. unfold Qcfloor. split; [apply Qfloor_le|apply Qlt_floor]. Qed.

Lemma millionth : (/ inject_Z 1000000 == 1 # 1000000)%Q.
Proof. reflexivity. Qed.

(** The decimal printed for a magnitude: an integer number of millionths,
    within half a millionth of it and never half a millionth below it. *)
Lemma roundMagnitude6_spec (m : Qc) :
  ∃ n : Z, roundMagnitude6 m = Qc_of_Z n / million
           ∧ (inject_Z n * (1 # 1000000) <= m + (1 # 2000000))%Q
           ∧ (m - (1 # 2000000) < inject_Z n * (1 # 1000000))%Q.
Proof.
  exists (Qcfloor (m * million + half)). split; [reflexivity|].
  destruct (Qcfloor_spec (m * million + half)) as [Hlo Hhi].
  revert Hlo Hhi. generalize (Qcfloor (m * million + half)). intros n Hlo Hhi.
  qc_to_q. rewrite inject_Z_plus in Hhi.
  change (inject_Z 1000000) with (1000000 # 1)%Q in *.
  change (inject_Z 1) with 1%Q in *.
  revert Hlo Hhi. generalize (inject_Z n). intros x Hlo Hhi. split; lra.
Qed.

(** A magnitude within half a millionth of [n / 10^6], and not half a
    millionth above it, is printed as [n / 10^6]. *)
Lemma roundMagnitude6_unique (y : Qc) (n : Z) :
  (inject_Z n * (1 # 1000000) - (1 # 2000000) <= y)%Q →
  (y < inject_Z n * (1 # 1000000) + (1 # 2000000))%Q →
  roundMagnitude6 y = Qc_of_Z n / million.
Proof.
  intros Hlo Hhi. unfold roundMagnitude6. f_equal. f_equal. unfold Qcfloor.
  apply Qfloor_unique; qc_to_q; rewrite ?inject_Z_plus;
    change (inject_Z 1000000) with (1000000 # 1)%Q in *;
    change (inject_Z 1) with 1%Q in *;
    revert Hlo Hhi; generalize (inject_Z n); intros x Hlo Hhi; lra.
Qed.


Lemma round_nonneg (q : Qc) : 0 ≤ q → 0 ≤ round q.
Proof.
  intros Hq. destruct (Qcle_lt_or_eq _ _ Hq) as [Hpos| <-]; [|apply Qcle_refl].
  rewrite (round_pos q Hpos). apply Qclt_le_weak. unfold Qclt.
  cbn [Q2Qc this]. rewrite !Qred_correct. apply (roundPositive_pos q Hpos).
Qed.

Lemma Qabs_cases (x : Q) :
  (0 <= x ∧ Qabs x == x)%Q ∨ (x <= 0 ∧ Qabs x == - x)%Q.
Proof.
  destruct (Qlt_le_dec x 0) as [H|H].
  - right. split; [lra|]. apply Qabs_neg. lra.
  - left. split; [exact H|]. apply Qabs_pos. exact H.
Qed.

(** Reading the printed decimal back and printing it again gives the same
    decimal. *)
Lemma roundMagnitude6_round (x : Qc) :
  isFloat x → 0 ≤ x →
  roundMagnitude6 (round (roundMagnitude6 x)) = roundMagnitude6 x.
Proof.
  intros Hx Hx0. destruct (roundMagnitude6_spec x) as (n & Hd & Hhi & Hlo).
  rewrite Hd. apply roundMagnitude6_unique.
  - pose proof (round_nearest (Qc_of_Z n / million) x Hx) as Hnear.
    revert Hnear. generalize (round (Qc_of_Z n / million)). intros y Hnear.
    qc_to_q. rewrite millionth in *.
    destruct (Qabs_cases (y - inject_Z n * (1 # 1000000))) as [[Hys Hy]|[Hys Hy]];
      destruct (Qabs_cases (x - inject_Z n * (1 # 1000000))) as [[Hxs Hxd]|[Hxs Hxd]];
      rewrite Hy, Hxd in Hnear; lra.
  - pose proof (round_nearest (Qc_of_Z n / million) x Hx) as Hnear.
    pose proof (float_gap x (round (Qc_of_Z n / million)) Hx
                  (round_float (Qc_of_Z n / million))) as Hgap.
    revert Hnear Hgap. generalize (round (Qc_of_Z n / million)). intros y Hnear Hgap.
    qc_to_q. rewrite millionth in *.
    apply Qnot_le_lt. intros Hge. apply Hgap.
    destruct (Qabs_cases (y - inject_Z n * (1 # 1000000))) as [[Hys Hy]|[Hys Hy]];
      destruct (Qabs_cases (x - inject_Z n * (1 # 1000000))) as [[Hxs Hxd]|[Hxs Hxd]];
      rewrite Hy, Hxd in Hnear; lra.
Qed.

Lemma roundMagnitude6_0 : roundMagnitude6 0 = 0.
Proof. apply Qc_is_canon. vm_compute. reflexivity. Qed.

Lemma toFixed6_Fin (q : Qc) : ∃ q', toFixed6 (Fin q) = Fin q'.
Proof. unfold toFixed6. cbv zeta. case_bool_decide; eexists; reflexivity. Qed.

Lemma toFixed6_opp (q : Qc) : toFixed6 (Fin (- q)) = neg (toFixed6 (Fin q)).
Proof.
  unfold toFixed6. cbv zeta. rewrite magnitude_opp.
  case_bool_decide; [reflexivity|]. cbn [neg]. f_equal.
  destruct (Qc_sign_cases q) as [->|[Hq|Hq]].
  - change (- 0) with 0. rewrite bool_decide_eq_false_2 by (intros H'; discriminate H').
    change (magnitude 0) with 0. rewrite roundMagnitude6_0. reflexivity.
  - rewrite (bool_decide_eq_true_2 _ Hq).
    rewrite bool_decide_eq_false_2
      by (apply Qcle_not_lt, Qclt_le_weak, Qcopp_pos, Hq).
    rewrite Qcopp_involutive. reflexivity.
  - rewrite (bool_decide_eq_true_2 _ (Qcopp_neg q Hq)).
    rewrite bool_decide_eq_false_2 by (apply Qcle_not_lt, Qclt_le_weak, Hq).
    reflexivity.
Qed.

Lemma magnitude_nonneg_id (q : Qc) : 0 ≤ q → magnitude q = q.
Proof.
  intros Hq. unfold magnitude. rewrite bool_decide_eq_false_2; [reflexivity|].
  apply Qcle_not_lt, Hq.
Qed.

Lemma toFixed6_nonneg (x : Qc) :
  0 ≤ x →
  toFixed6 (Fin x)
  = if bool_decide (toFixedLimit ≤ x) then Fin x
    else Fin (round (roundMagnitude6 x)).
Proof.
  intros Hx. unfold toFixed6. cbv zeta. rewrite (magnitude_nonneg_id x Hx).
  case_bool_decide; [reflexivity|].
  rewrite bool_decide_eq_false_2 by (apply Qcle_not_lt, Hx). reflexivity.
Qed.

Lemma roundMagnitude6_nonneg (m : Qc) : 0 ≤ m → 0 ≤ roundMagnitude6 m.
Proof.
  intros Hm. destruct (roundMagnitude6_spec m) as (n & Hd & _ & Hlo).
  rewrite Hd. assert (Hn : (0 <= n)%Z).
  { revert Hlo. qc_to_q. intros Hlo.
    assert (H : (- 1 < inject_Z n)%Q) by lra.
    change (- 1)%Q with (inject_Z (- 1)) in H. rewrite <- Zlt_Qlt in H. lia. }
  qc_to_q. rewrite millionth.
  assert (H : (0 <= inject_Z n)%Q) by (change 0%Q with (inject_Z 0); rewrite <- Zle_Qle; exact Hn).
  lra.
Qed.

(** On a float, [parseFloat(x.toFixed(6))] is idempotent. *)
Lemma toFixed6_idempotent (x : Qc) :
  isFloat x → toFixed6 (toFixed6 (Fin x)) = toFixed6 (Fin x).
Proof.
  assert (Hpos : ∀ p : Qc, isFloat p → 0 ≤ p →
                   toFixed6 (toFixed6 (Fin p)) = toFixed6 (Fin p)).
  { intros p Hp Hp0. rewrite (toFixed6_nonneg p Hp0).
    case_bool_decide as Hbig.
    - rewrite (toFixed6_nonneg p Hp0), (bool_decide_eq_true_2 _ Hbig). reflexivity.
    - assert (Hy0 : 0 ≤ round (roundMagnitude6 p))
        by apply round_nonneg, roundMagnitude6_nonneg, Hp0.
      rewrite (toFixed6_nonneg _ Hy0). case_bool_decide; [reflexivity|].
      rewrite (roundMagnitude6_round p Hp Hp0). reflexivity. }
  intros Hx. destruct (Qclt_le_dec x 0) as [Hneg|Hnonneg]; [|apply Hpos; assumption].
  rewrite <- (Qcopp_involutive x), toFixed6_opp.
  pose proof (Hpos (- x) (isFloat_opp x Hx) (Qclt_le_weak _ _ (Qcopp_pos x Hneg))) as H.
  destruct (toFixed6_Fin (- x)) as [y Hy]. rewrite Hy in *. cbn [neg].
  rewrite toFixed6_opp, H. reflexivity.
Qed.


(** The result of [parseFloat(x.toFixed(6))] on a float is a float. *)
Lemma toFixed6_float (x : Qc) :
  isFloat x → ∃ x', toFixed6 (Fin x) = Fin x' ∧ isFloat x'.
Proof.
  intros Hx. unfold toFixed6. cbv zeta. case_bool_decide.
  - exists x. split; [reflexivity|exact Hx].
  - eexists. split; [reflexivity|]. case_bool_decide.
    + apply isFloat_opp, round_float.
    + apply round_float.
Qed.

Lemma toFixedLimit_big : (2 ^ 53 <= toFixedLimit)%Q.
Proof. unfold Qle. vm_compute. discriminate. Qed.

(** [parseFloat(x.toFixed(6))] rounds a float to six decimals. *)
Lemma toFixed6_roundsToSix (x : Qc) :
  isFloat x → ∃ x', toFixed6 (Fin x) = Fin x' ∧ roundsToSix x x'.
Proof.
  assert (Hpos : ∀ p : Qc, isFloat p → 0 ≤ p →
                   ∃ p', toFixed6 (Fin p) = Fin p' ∧ roundsToSix p p').
  { intros p Hp Hp0. rewrite (toFixed6_nonneg p Hp0). case_bool_decide as Hbig.
    - exists p. split; [reflexivity|].
      destruct (float_big_integer p Hp) as [n Hn].
      { rewrite <- magnitude_Qabs, (magnitude_nonneg_id p Hp0).
        eapply Qle_trans; [exact toFixedLimit_big|exact Hbig]. }
      assert (Hpn : Qc_of_Z (n * 1000000) / million = p).
      { apply Qc_is_canon. qc_to_q. rewrite millionth, inject_Z_mult, Hn.
        change (inject_Z 1000000) with (1000000 # 1)%Q. field. }
      exists (n * 1000000)%Z. rewrite Hpn. split.
      + replace (p - p) with 0 by ring. apply (bool_decide_eq_true_1 _).
        vm_compute. reflexivity.
      + symmetry. apply round_fixed, Hp.
    - exists (round (roundMagnitude6 p)). split; [reflexivity|].
      destruct (roundMagnitude6_spec p) as (n & Hd & Hhi & Hlo).
      exists n. rewrite <- Hd. split; [|reflexivity].
      rewrite Hd. unfold Qcle. rewrite magnitude_Qabs. qc_to_q. rewrite millionth.
      apply Qabs_le_of; change ((1 # 2) * (1 # 1000000))%Q with (1 # 2000000)%Q; lra. }
  intros Hx. destruct (Qclt_le_dec x 0) as [Hneg|Hnonneg]; [|apply Hpos; assumption].
  destruct (Hpos (- x) (isFloat_opp x Hx) (Qclt_le_weak _ _ (Qcopp_pos x Hneg)))
    as (y & Hy & n & Hn & Hyn).
  exists (- y). split.
  - rewrite <- (Qcopp_involutive x), toFixed6_opp, Hy. reflexivity.
  - exists (- n)%Z. rewrite Qc_of_Z_opp.
    replace (- Qc_of_Z n / million) with (- (Qc_of_Z n / million))
      by (unfold Qcdiv; ring).
    split.
    + replace (- (Qc_of_Z n / million) - x) with (- (Qc_of_Z n / million - - x))
        by ring.
      rewrite magnitude_opp. exact Hn.
    + rewrite round_opp, Hyn. reflexivity.
Qed.

Lemma Qc_111_nonzero : Qc_of_Z 111 ≠ 0.
Proof. intros H. discriminate (f_equal this H). Qed.

Lemma div_finite (a b : Qc) : b ≠ 0 → div (Fin a) (Fin b) = Fin (round (a / b)).
Proof. intros Hb. unfold div. rewrite bool_decide_eq_false_2; done. Qed.


End NumberFacts.

(** ** The geofence warning screen *)

Section GeofenceProperties.
Import Binary64 JsNumber Geofence Scenarios.
Local Open Scope Qc_scope.

Variable calculateDistance : Coordinates → Coordinates → num.
Variable cosDeg : num → num.

Lemma reachableAfter_reachable position last st :
  reachableAfter calculateDistance position last st →
  reachable calculateDistance position st.
Proof.
  induction 1; [apply reachable_initial|apply reachable_rules|apply reachable_slider];
    assumption.
Qed.

(** Once a zone is selected it is the first zone of the answer the rules
    effect last acted on, and the blur radius is the one derived from that
    zone and answer or a value picked on the slider. *)
Lemma reachableAfter_blurRadius position last st zone :
  reachableAfter calculateDistance position last st →
  selectedZone st = Some zone →
  ∃ resp others,
    last = Some resp ∧ rules resp = zone :: others
    ∧ (blurRadius st
       = or_else (Fin (blur_radius zone)) (Fin (default_blur_radius resp))
       ∨ ∃ v, (100 ≤ v ≤ 2000)%Z ∧ blurRadius st = ofZ v).
Proof.
  intros Hreach. revert zone.
  induction Hreach as [|last st answer mapCenter _ IH|last st v _ IH _ Hv];
    intros zone Hsel.
  - discriminate.
  - unfold processRules, actedOn in *.
    destruct (queryData position answer) as [resp|]; [|auto].
    destruct (rules resp) as [|relevantZone others] eqn:Hrules; [auto|].
    exists resp, others. rewrite Hrules.
    destruct (leb _ _); [|destruct (leb _ _)]; simpl in *; simplify_eq; auto.
  - destruct (IH zone Hsel) as (resp & others & Hlast & Hrules & _).
    exists resp, others. split; [exact Hlast|]. split; [exact Hrules|].
    right. exists v. auto.
Qed.

Lemma handleContinue_selected position st draft zone rand1 rand2 :
  selectedZone st = Some zone →
  handleContinue cosDeg (Some draft) position st rand1 rand2
  = Some {| draft_id := draft_id draft;
            category := category draft;
            location := applyCoordinateBlurring cosDeg position (blurRadius st) rand1 rand2;
            location_precision_meters := blurRadius st;
            is_private := true |}.
Proof. intros Hsel. unfold handleContinue. rewrite Hsel. reflexivity. Qed.

(** The coordinate handed on by the blurring, for finite inputs and a
    non-zero cosine: every operation rounds its result. *)
Lemma applyCoordinateBlurring_finite (a b r c u1 u2 : Qc) :
  cosDeg (Fin a) = Fin c → c ≠ 0 →
  applyCoordinateBlurring cosDeg {| lat := Fin a; lng := Fin b |} (Fin r) u1 u2
  = {| lat := toFixed6
                (Fin (round (a + round (round (r / Qc_of_Z 111) * round (u1 - half)))));
       lng := toFixed6
                (Fin (round (b + round (round (r / round (Qc_of_Z 111 * c))
                                        * round (u2 - half))))) |}.
Proof.
  intros Hcos Hc. unfold applyCoordinateBlurring. simpl lat. simpl lng.
  rewrite Hcos. unfold ofZ. rewrite (div_finite _ _ Qc_111_nonzero).
  assert (Hden : round (Qc_of_Z 111 * c) ≠ 0).
  { apply round_nonzero. intros H.
    apply Qcmult_integral in H as [H|H]; [exact (Qc_111_nonzero H)|done]. }
  cbn [mul]. rewrite (div_finite _ _ Hden). reflexivity.
Qed.

(** With a blur radius of 0 both offsets are 0. *)
Lemma applyCoordinateBlurring_zero (a b c u1 u2 : Qc) :
  cosDeg (Fin a) = Fin c → c ≠ 0 →
  applyCoordinateBlurring cosDeg {| lat := Fin a; lng := Fin b |} (Fin 0) u1 u2
  = {| lat := toFixed6 (Fin (round a)); lng := toFixed6 (Fin (round b)) |}.
Proof.
  intros Hcos Hc. rewrite (applyCoordinateBlurring_finite a b 0 c u1 u2 Hcos Hc).
  assert (H0 : ∀ d : Qc, 0 / d = 0) by (intros d; unfold Qcdiv; ring).
  assert (H1 : ∀ t : Qc, 0 * t = 0) by (intros t; ring).
  assert (H2 : ∀ t : Qc, t + 0 = t) by (intros t; ring).
  rewrite !H0, round_0, !H1, round_0, !H2. reflexivity.
Qed.

(** The inputs of the blurring are finite numbers: the screen only renders
    for valid coordinates, and every blur radius it can hold is finite. *)
Lemma validCoordinates_finite (c : Coordinates) :
  validCoordinates c = true → ∃ a b, c = {| lat := Fin a; lng := Fin b |}.
Proof.
  destruct c as [[| | |a] [| | |b]]; unfold validCoordinates; simpl;
    try discriminate; rewrite ?orb_true_r; try discriminate.
  intros _. exists a, b. reflexivity.
Qed.

Lemma reachable_blurRadius_finite position st :
  reachable calculateDistance position st → ∃ r, blurRadius st = Fin r.
Proof.
  induction 1 as [|st answer mapCenter _ IH|st v _ IH _ Hv].
  - eexists. reflexivity.
  - unfold processRules.
    destruct (queryData position answer) as [resp|]; [|exact IH].
    destruct (rules resp) as [|relevantZone others]; [exact IH|].
    destruct (leb _ _); [|destruct (leb _ _)]; simpl; unfold or_else, truthy;
      destruct (negb _); eexists; reflexivity.
  - eexists. reflexivity.
Qed.

End GeofenceProperties.

Section GeofenceScenarios.
Import Binary64 JsNumber Geofence Scenarios.
Local Open Scope Qc_scope.

(** With the map centred 1001 km away the registry's answer puts the screen
    in its protected-zone view, whatever zones follow the first. *)
Lemma protectedView :
  processRules meridianDistance (queryData position (Some registryA)) position
    (centreAt 10) initialState
  = {| blurRadius := ofZ 1000; isInProtectedZone := true; isInBufferZone := false;
       selectedZone := Some zoneA |}.
Proof. vm_compute. reflexivity. Qed.


(** What the blurring hands on at latitude 1, longitude 1 for a radius of
    1000 and two draws of 0. *)
Lemma blurredAtPosition :
  applyCoordinateBlurring cosAtOneDegree position (ofZ 1000) 0 0
  = {| lat := ofDecimal (-3504505) 6; lng := ofDecimal (-3505191) 6 |}.
Proof.
  vm_compute. f_equal; apply f_equal, Qc_is_canon; reflexivity.
Qed.

End GeofenceScenarios.

Section GeofenceClaims.
Import Binary64 JsNumber Geofence Scenarios.
Local Open Scope Qc_scope.

(** C1, as stated, fails: at latitude 1, longitude 1, with the map centred
    1001 km away, the registry's zone (blur radius 1000 m) puts the screen in
    its protected-zone view; the contributor moves the precision slider to
    100 m and [handleContinue] records a precision of 100 m, finer than the
    zone's blur radius (the draft is still marked private). *)
Lemma C1_slider_undercuts_zone_radius :
  let st :=
    sliderChange 100
      (processRules meridianDistance (queryData position (Some registryA)) position
         (centreAt 10) initialState) in
  reachable meridianDistance position st
  ∧ isInProtectedZone st = true
  ∧ selectedZone st = Some zoneA
  ∧ ∃ updated,
      handleContinue cosAtOneDegree (Some draft) position st 0 0 = Some updated
      ∧ is_private updated = true
      ∧ location_precision_meters updated = ofZ 100
      ∧ leb (Fin (blur_radius zoneA)) (location_precision_meters updated) = false.
Proof.
  cbv zeta.
  assert (Hreach : reachable meridianDistance position
            (processRules meridianDistance (queryData position (Some registryA))
               position (centreAt 10) initialState))
    by apply reachable_rules, reachable_initial.
  revert Hreach. rewrite protectedView. intros Hreach.
  split; [apply reachable_slider; [exact Hreach|reflexivity|lia]|].
  split; [reflexivity|]. split; [reflexivity|].
  eexists. split; [apply (handleContinue_selected _ _ _ _ zoneA); reflexivity|].
  split; [reflexivity|]. split; [reflexivity|]. vm_compute. reflexivity.
Qed.

(** C1 (amended): whenever a zone is selected it is the first zone of the
    registry answer the screen last acted on, and every invocation of
    [handleContinue] with a draft hands on that draft marked
    [is_private = true] with the screen's current blur radius as its
    precision; that radius is the zone's blur radius, the answer's default
    when the zone's is 0, or a value between 100 and 2000 chosen on the
    precision slider.  Without a draft nothing is handed on. *)
Theorem C1_handleContinue_private_at_current_radius :
  ∀ calculateDistance cosDeg position last st observationDraft zone rand1 rand2,
    reachableAfter calculateDistance position last st →
    selectedZone st = Some zone →
    ∃ resp others updated,
      last = Some resp
      ∧ rules resp = zone :: others
      ∧ handleContinue cosDeg (Some observationDraft) position st rand1 rand2
        = Some updated
      ∧ handleContinue cosDeg None position st rand1 rand2 = None
      ∧ draft_id updated = draft_id observationDraft
      ∧ is_private updated = true
      ∧ location_precision_meters updated = blurRadius st
      ∧ (blurRadius st
         = (if bool_decide (blur_radius zone = 0)
            then Fin (default_blur_radius resp) else Fin (blur_radius zone))
         ∨ ∃ v, (100 ≤ v ≤ 2000)%Z ∧ blurRadius st = ofZ v).
Proof.
  intros dist cosDeg position last st observationDraft zone rand1 rand2 Hreach Hsel.
  destruct (reachableAfter_blurRadius dist position last st zone Hreach Hsel)
    as (resp & others & Hlast & Hrules & Hradius).
  exists resp, others. eexists.
  split; [exact Hlast|]. split; [exact Hrules|].
  split; [eapply handleContinue_selected; eassumption|].
  split; [reflexivity|]. split; [reflexivity|]. split; [reflexivity|].
  split; [reflexivity|].
  destruct Hradius as [Hzone|Hslider]; [left|right; exact Hslider].
  rewrite Hzone. unfold or_else, truthy. case_bool_decide; reflexivity.
Qed.

Lemma C1_handleContinue_private_at_current_radius_witness :
  let st :=
    processRules meridianDistance (queryData position (Some registryA)) position
      (centreAt 10) initialState in
  reachableAfter meridianDistance position (Some registryA) st
  ∧ selectedZone st = Some zoneA
  ∧ ∃ resp others updated,
      Some registryA = Some resp
      ∧ rules resp = zoneA :: others
      ∧ handleContinue cosAtOneDegree (Some draft) position st 0 0 = Some updated
      ∧ handleContinue cosAtOneDegree None position st 0 0 = None
      ∧ draft_id updated = draft_id draft
      ∧ is_private updated = true
      ∧ location_precision_meters updated = blurRadius st
      ∧ (blurRadius st
         = (if bool_decide (blur_radius zoneA = 0)
            then Fin (default_blur_radius resp) else Fin (blur_radius zoneA))
         ∨ ∃ v, (100 ≤ v ≤ 2000)%Z ∧ blurRadius st = ofZ v).
Proof.
  cbv zeta.
  assert (Hreach : reachableAfter meridianDistance position (Some registryA)
            (processRules meridianDistance (queryData position (Some registryA))
               position (centreAt 10) initialState))
    by exact (after_rules meridianDistance position None initialState
                (Some registryA) (centreAt 10) (after_initial _ _)).
  assert (Hsel : selectedZone
            (processRules meridianDistance (queryData position (Some registryA))
               position (centreAt 10) initialState) = Some zoneA)
    by (rewrite protectedView; reflexivity).
  split; [exact Hreach|]. split; [exact Hsel|].
  exact (C1_handleContinue_private_at_current_radius
           meridianDistance cosAtOneDegree position _ _ draft zoneA 0 0 Hreach Hsel).
Defined.

(** C2: the blur radius is a length in metres (the slider shows it as
    metres and [handleContinue] stores it as [location_precision_meters]),
    but [applyCoordinateBlurring] divides it by the 111 kilometres of a
    degree.  At latitude 1, longitude 1, with the zone's blur radius of
    1000 m and both draws 0, the latitude handed on is -3.504505: about
    4.5 degrees, that is some 500 km, away from the raw latitude, where the
    claim allows at most 1000 m. *)
Theorem C2_radius_in_metres_scaled_as_kilometres :
  let st :=
    processRules meridianDistance (queryData position (Some registryA)) position
      (centreAt 10) initialState in
  reachable meridianDistance position st
  ∧ selectedZone st = Some zoneA
  ∧ blurRadius st = ofZ 1000
  ∧ ∃ updated a b,
      handleContinue cosAtOneDegree (Some draft) position st 0 0 = Some updated
      ∧ location updated = {| lat := Fin a; lng := Fin b |}
      ∧ Fin a = ofDecimal (-3504505) 6
      ∧ Fin b = ofDecimal (-3505191) 6
      ∧ location_precision_meters updated = ofZ 1000
      ∧ ¬ (magnitude (a - 1) * metersPerDegree ≤ Qc_of_Z 1000)
      ∧ Qc_of_Z 500000 ≤ magnitude (a - 1) * metersPerDegree.
Proof.
  cbv zeta.
  split; [apply reachable_rules, reachable_initial|].
  rewrite protectedView.
  split; [reflexivity|]. split; [reflexivity|].
  eexists. eexists. eexists.
  split; [apply (handleContinue_selected _ _ _ _ zoneA); reflexivity|].
  cbn [location location_precision_meters blurRadius].
  split; [exact blurredAtPosition|].
  split; [reflexivity|]. split; [reflexivity|]. split; [reflexivity|]. split.
  - apply (bool_decide_eq_false_1 _). vm_compute. reflexivity.
  - apply (bool_decide_eq_true_1 _). vm_compute. reflexivity.
Qed.






End GeofenceClaims.

(** ** The batch submission screen *)

Section BatchProperties.
Import JsNumber Batch.

Variable parseFloat : string → num.
Variable toFixedText : num → string.
Variable parseDate : string → option Z.
Variable now ninetyDaysAgo : nat → Z.
Variable columnMapping : gmap string string.
Variable currentUserId : option string.

Local Abbreviation validateCoordinates :=
  (validateCoordinates parseFloat toFixedText columnMapping currentUserId).
Local Abbreviation validateDate :=
  (validateDate parseDate now ninetyDaysAgo columnMapping).
Local Abbreviation validateRow :=
  (validateRow parseFloat toFixedText parseDate now ninetyDaysAgo columnMapping
     currentUserId).
Local Abbreviation validateRows :=
  (validateRows parseFloat toFixedText parseDate now ninetyDaysAgo columnMapping
     currentUserId).
Local Abbreviation importedFrom := (importedFrom parseFloat columnMapping).

Lemma validateCoordinates_rows rowIndex row errors validRows :
  snd (validateCoordinates rowIndex row errors validRows) = validRows
  ∨ ∃ obs, snd (validateCoordinates rowIndex row errors validRows) = validRows ++ [obs]
           ∧ importedFrom row obs.
Proof.
  unfold Batch.validateCoordinates.
  destruct (present _ && present _); [|left; reflexivity].
  destruct (isNaN _ || isNaN _); [left; reflexivity|].
  destruct (noErrorsForRow _ _); [|left; reflexivity].
  right. eexists. split; [reflexivity|]. repeat split.
Qed.

Lemma validateCoordinates_errors rowIndex row errors validRows e :
  e ∈ errors → e ∈ fst (validateCoordinates rowIndex row errors validRows).
Proof.
  intros He. unfold Batch.validateCoordinates.
  repeat (match goal with |- context [if ?b then _ else _] => destruct b end);
    simpl; rewrite ?elem_of_app; auto.
Qed.

Lemma validateRow_rows rowIndex row errors validRows :
  snd (validateRow rowIndex row errors validRows) = validRows
  ∨ ∃ obs, snd (validateRow rowIndex row errors validRows) = validRows ++ [obs]
           ∧ importedFrom row obs.
Proof.
  unfold Batch.validateRow.
  pose proof (validateCoordinates_rows rowIndex row
                (errors ++ requiredFieldErrors columnMapping rowIndex row) validRows) as H.
  destruct (validateCoordinates _ _ _ _) as [errors2 validRows2]. exact H.
Qed.

Lemma validateRow_errors rowIndex row errors validRows e :
  e ∈ errors ∨ e ∈ validateDate rowIndex row →
  e ∈ fst (validateRow rowIndex row errors validRows).
Proof.
  intros He. unfold Batch.validateRow.
  pose proof (validateCoordinates_errors rowIndex row
                (errors ++ requiredFieldErrors columnMapping rowIndex row) validRows e) as H.
  destruct (validateCoordinates _ _ _ _) as [errors2 validRows2]. simpl in *.
  rewrite elem_of_app. destruct He as [He|He]; [left|right; exact He].
  apply H. rewrite elem_of_app. auto.
Qed.

(** Every row the loop adds comes from a line of the file. *)
Lemma validateRows_rows csvData : ∀ rowIndex errors validRows obs,
  obs ∈ snd (validateRows rowIndex csvData errors validRows) →
  obs ∈ validRows ∨ ∃ row, row ∈ csvData ∧ importedFrom row obs.
Proof.
  induction csvData as [|row rest IH]; intros rowIndex errors validRows obs Hin.
  - left. exact Hin.
  - simpl in Hin.
    pose proof (validateRow_rows rowIndex row errors validRows) as Hrow.
    destruct (validateRow rowIndex row errors validRows) as [errors' validRows'].
    simpl in Hrow. apply IH in Hin as [Hin|(row' & Hrow' & Himp)].
    + destruct Hrow as [->|(added & -> & Himp)]; [left; exact Hin|].
      apply elem_of_app in Hin as [Hin|Hin]; [left; exact Hin|].
      apply list_elem_of_singleton in Hin as ->.
      right. exists row. split; [left|exact Himp].
    + right. exists row'. split; [right; exact Hrow'|exact Himp].
Qed.

(** Issues are only ever appended, and the date issues of every line are
    among them. *)
Lemma validateRows_errors csvData : ∀ rowIndex errors validRows e,
  (e ∈ errors
   ∨ ∃ offset row, csvData !! offset = Some row
                   ∧ e ∈ validateDate (rowIndex + offset) row) →
  e ∈ fst (validateRows rowIndex csvData errors validRows).
Proof.
  induction csvData as [|row rest IH]; intros rowIndex errors validRows e He.
  - destruct He as [He|(offset & row & Hlook & _)]; [exact He|].
    rewrite lookup_nil in Hlook. discriminate.
  - simpl.
    pose proof (validateRow_errors rowIndex row errors validRows e) as Hrow.
    destruct (validateRow rowIndex row errors validRows) as [errors' validRows'].
    simpl in Hrow. apply IH.
    destruct He as [He|(offset & row' & Hlook & He)].
    + left. apply Hrow. left. exact He.
    + destruct offset as [|offset]; simpl in Hlook.
      * injection Hlook as <-. left. apply Hrow. right.
        rewrite Nat.add_0_r in He. exact He.
      * right. exists offset, row'. split; [exact Hlook|].
        rewrite Nat.add_succ_comm. exact He.
Qed.

Lemma validateDate_future rowIndex row date :
  present (mappedRow columnMapping row "observation_timestamp") = true →
  parseDate (orEmpty (mappedRow columnMapping row "observation_timestamp")) = Some date →
  (now rowIndex < date)%Z →
  validateDate rowIndex row
  = [issue rowIndex "observation_timestamp"
       "Observation date cannot be in the future" error None].
Proof.
  intros Hpresent Hparse Hfuture. unfold Batch.validateDate.
  rewrite Hpresent, Hparse.
  destruct (Z.ltb_spec (now rowIndex) date) as [_|Hle]; [reflexivity|lia].
Qed.

End BatchProperties.

(** The client-side validation never reports a duplicate: the list is
    created empty and returned as it is. *)
Lemma validateAndTransform_no_duplicates
    parseFloat toFixedText parseDate now ninetyDaysAgo fileSelected columnMapping
    currentUserId csvData :
  Batch.duplicate_observations
    (Batch.validateAndTransform parseFloat toFixedText parseDate now ninetyDaysAgo
       fileSelected columnMapping currentUserId csvData) = [].
Proof.
  unfold Batch.validateAndTransform.
  destruct (negb fileSelected || _ || _); [reflexivity|].
  destruct (Batch.validateRows _ _ _ _ _ _ _ _ _ _ _). reflexivity.
Qed.

Section BatchClaims.
Import JsNumber Batch Scenarios.

(** C9: every observation that [validateAndTransform] puts among the valid
    rows of a batch import has [is_private = false], and its latitude and
    longitude are the parsed CSV cells themselves: no protected zone takes
    part in the computation and nothing is blurred. *)
Theorem C9_batch_rows_public_and_unblurred :
  ∀ parseFloat toFixedText parseDate now ninetyDaysAgo fileSelected
    columnMapping currentUserId csvData obs,
    obs ∈ valid_rows
            (validateAndTransform parseFloat toFixedText parseDate now
               ninetyDaysAgo fileSelected columnMapping currentUserId csvData) →
    is_private obs = false
    ∧ ∃ row, row ∈ csvData
        ∧ latitude obs = parseFloat (orEmpty (mappedRow columnMapping row "latitude"))
        ∧ longitude obs = parseFloat (orEmpty (mappedRow columnMapping row "longitude")).
Proof.
  intros parseFloat toFixedText parseDate now ninetyDaysAgo fileSelected
    columnMapping currentUserId csvData obs.
  unfold validateAndTransform.
  destruct (negb fileSelected || bool_decide (length csvData = 0)
            || bool_decide (columnMapping = ∅)); simpl.
  - intros Hin. apply elem_of_nil in Hin. contradiction.
  - pose proof (validateRows_rows parseFloat toFixedText parseDate now ninetyDaysAgo
                  columnMapping currentUserId csvData 0 [] [] obs) as Hrows.
    destruct (validateRows _ _ _ _ _ _ _ _ _ _ _) as [errors validRows]. simpl in *.
    intros Hin. destruct (Hrows Hin) as [Hnil|(row & Hrow & Hpriv & Hlat & Hlng)].
    + apply elem_of_nil in Hnil. contradiction.
    + split; [exact Hpriv|]. exists row. auto.
Qed.

Lemma C9_batch_rows_public_and_unblurred_witness :
  importedRow "2025-10-01" ∈ valid_rows (validateScenario [csvRow "2025-10-01"])
  ∧ is_private (importedRow "2025-10-01") = false
  ∧ ∃ row, row ∈ [csvRow "2025-10-01"]
      ∧ latitude (importedRow "2025-10-01")
        = parseFloatOf (orEmpty (mappedRow mapping row "latitude"))
      ∧ longitude (importedRow "2025-10-01")
        = parseFloatOf (orEmpty (mappedRow mapping row "longitude")).
Proof.
  assert (Hin : importedRow "2025-10-01"
                ∈ valid_rows (validateScenario [csvRow "2025-10-01"])).
  { vm_compute. apply list_elem_of_here. }
  split; [exact Hin|].
  exact (C9_batch_rows_public_and_unblurred parseFloatOf toFixedTextOf parseDateOf
           clock clockMinus90Days true mapping (Some "user-1")
           [csvRow "2025-10-01"] (importedRow "2025-10-01") Hin).
Defined.

End BatchClaims.

(** ** The temporal validation screen *)

Section TemporalProperties.
Import Temporal.

(** The textarea never holds more than [MAX_JUSTIFICATION_LENGTH]
    characters. *)
Lemma reachable_justification_bounded st :
  reachable st → String.length (justificationText st) ≤ MAX_JUSTIFICATION_LENGTH.
Proof.
  induction 1 as [ts retro|st today days _ IH|st reply _ IH|st value _ IH Hretro
                 |st checked _ IH|st date clear _ IH|st oid _ IH|st failure _ IH].
  - simpl. unfold MAX_JUSTIFICATION_LENGTH. lia.
  - unfold computeValidationWindow. destruct (days =? 0)%Z; exact IH.
  - exact IH.
  - unfold changeJustification. case_bool_decide; [simpl; assumption|exact IH].
  - simpl. destruct checked; [exact IH|]. simpl. unfold MAX_JUSTIFICATION_LENGTH. lia.
  - exact IH.
  - unfold handleSubmit. case_bool_decide; [exact IH|].
    destruct (isRetrospective st && blank (justificationText st)); exact IH.
  - exact IH.
Qed.

Lemma not_blank_nonempty (s : string) : blank s = false → 1 ≤ String.length s.
Proof.
  destruct s as [|c rest]; [|simpl; lia].
  intros H. vm_compute in H. discriminate.
Qed.

(** [handleSubmit] only reads the observation id, the retrospective flag and
    the justification text. *)
Lemma handleSubmit_request observation_id st request :
  snd (handleSubmit observation_id st) = Some request →
  request = {| justification_text := justificationText st |}
  ∧ (isRetrospective st = true → blank (justificationText st) = false).
Proof.
  unfold handleSubmit. case_bool_decide; [discriminate|].
  destruct (isRetrospective st) eqn:Hretro; simpl.
  - destruct (blank (justificationText st)); simpl; [discriminate|].
    intros [= <-]. auto.
  - intros [= <-]. split; [reflexivity|discriminate].
Qed.

End TemporalProperties.

Section TemporalClaims.
Import Temporal Scenarios.

(** C5, as stated, fails: the screen was opened the day before for the
    date at the start of its 90-day window, with the retrospective box
    unticked; today that date is 91 days old.  The screen does not derive
    the flag from the date: the date is in the valid range of the input, the
    submit button is enabled and [handleSubmit] sends the request with an
    empty justification. *)
Lemma C5_old_date_sent_without_justification :
  reachable screenWithOldDate
  ∧ validationWindow screenWithOldDate
    = Some {| min_date := today - 91; max_date := today + 89 |}
  ∧ withinValidRange screenWithOldDate (observationTimestamp screenWithOldDate) = true
  ∧ (observationTimestamp screenWithOldDate < today - 90)%Z
  ∧ isRetrospective screenWithOldDate = false
  ∧ submitDisabled screenWithOldDate = false
  ∧ snd (handleSubmit (Some "obs-1") screenWithOldDate)
    = Some {| justification_text := "" |}
  ∧ submitError (fst (handleSubmit (Some "obs-1") screenWithOldDate)) = None.
Proof.
  split.
  { apply reachable_validated, reachable_window, reachable_mount. }
  repeat split; vm_compute; reflexivity.
Qed.

(** C5 (amended): on every state of the screen with the retrospective flag
    set (the checkbox, or the URL parameter it starts from), submitting with
    a blank justification sends nothing and ends with an error message (the
    one asking for a justification whenever the observation id is known),
    and any justification text that is sent is non-empty and at most 500
    characters long. *)
Theorem C5_retrospective_needs_justification :
  ∀ st observation_id,
    reachable st → isRetrospective st = true →
    (blank (justificationText st) = true →
       snd (handleSubmit observation_id st) = None
       ∧ (∃ msg, submitError (fst (handleSubmit observation_id st)) = Some msg)
       ∧ (orText observation_id "" ≠ "" →
          submitError (fst (handleSubmit observation_id st))
          = Some "Justification text is required for retrospective observations."))
    ∧ (∀ request,
         snd (handleSubmit observation_id st) = Some request →
         1 ≤ String.length (justification_text request) ≤ MAX_JUSTIFICATION_LENGTH).
Proof.
  intros st observation_id Hreach Hretro. split.
  - intros Hblank. unfold handleSubmit.
    case_bool_decide as Hid; simpl.
    + split; [reflexivity|]. split; [eexists; reflexivity|]. intros Hne. contradiction.
    + rewrite Hretro, Hblank. simpl.
      split; [reflexivity|]. split; [eexists; reflexivity|reflexivity].
  - intros request Hsent.
    apply handleSubmit_request in Hsent as [-> Hnonblank]. simpl. split.
    + apply not_blank_nonempty, Hnonblank, Hretro.
    + apply reachable_justification_bounded, Hreach.
Qed.

Lemma C5_retrospective_needs_justification_witness :
  let st := changeJustification "Field notebook entry, photo attached"
              (initialState 20000 true) in
  reachable st ∧ isRetrospective st = true
  ∧ (blank (justificationText st) = true →
       snd (handleSubmit (Some "obs-1") st) = None
       ∧ (∃ msg, submitError (fst (handleSubmit (Some "obs-1") st)) = Some msg)
       ∧ (orText (Some "obs-1") "" ≠ "" →
          submitError (fst (handleSubmit (Some "obs-1") st))
          = Some "Justification text is required for retrospective observations."))
  ∧ (∀ request,
       snd (handleSubmit (Some "obs-1") st) = Some request →
       1 ≤ String.length (justification_text request) ≤ MAX_JUSTIFICATION_LENGTH).
Proof.
  cbv zeta.
  assert (Hreach : reachable (changeJustification "Field notebook entry, photo attached"
                                (initialState 20000 true))).
  { apply reachable_justification; [apply reachable_mount|reflexivity]. }
  split; [exact Hreach|]. split; [reflexivity|].
  exact (C5_retrospective_needs_justification _ (Some "obs-1") Hreach eq_refl).
Defined.

End TemporalClaims.

(** ** Future timestamps *)

Section FutureTimestamps.
Import Scenarios.

(** C4, as stated, fails: with a window of 90 days the screen's valid range
    runs to 90 days ahead; tomorrow's date lies inside it, and when the
    validation request cannot reach the server the submit button is enabled
    and [handleSubmit] sends the request. *)
Lemma C4_future_date_passes_screen :
  Temporal.reachable screenWithTomorrow
  ∧ (today < Temporal.observationTimestamp screenWithTomorrow)%Z
  ∧ Temporal.validationWindow screenWithTomorrow
    = Some {| Temporal.min_date := today - 90; Temporal.max_date := today + 90 |}
  ∧ Temporal.withinValidRange screenWithTomorrow
      (Temporal.observationTimestamp screenWithTomorrow) = true
  ∧ Temporal.isTimestampValid screenWithTomorrow = true
  ∧ Temporal.submitDisabled screenWithTomorrow = false
  ∧ snd (Temporal.handleSubmit (Some "obs-1") screenWithTomorrow)
    = Some {| Temporal.justification_text := "" |}.
Proof.
  split.
  { apply Temporal.reachable_validated, Temporal.reachable_timestamp,
      Temporal.reachable_window, Temporal.reachable_mount. }
  repeat split; vm_compute; reflexivity.
Qed.

(** In the batch validator the check of the date comes after the line has
    been added to the valid rows: a line dated in the future is reported
    with an error and kept among the valid rows all the same. *)
Example batch_future_row_reported_and_kept :
  Batch.valid_rows (validateScenario [csvRow "2031-01-01"])
  = [importedRow "2031-01-01"]
  ∧ Batch.validation_errors (validateScenario [csvRow "2031-01-01"])
    = [Batch.issue 0 "observation_timestamp"
         "Observation date cannot be in the future" Batch.error None].
Proof. split; vm_compute; reflexivity. Qed.

(** C4 (amended): the batch validator reports every parseable timestamp
    later than the clock with an error-severity issue, whatever the window;
    the temporal validation screen does not reject future dates itself: for
    a non-zero window [W] its valid range contains every date up to [W] days
    ahead, and [handleSubmit] does not depend on the timestamp. *)
Theorem C4_future_reported_by_batch_not_by_screen :
  ∀ parseFloat toFixedText parseDate now ninetyDaysAgo columnMapping
    currentUserId csvData rowIndex row date
    (st : Temporal.State) (now_day W day : Z) observation_id clearError,
    columnMapping ≠ ∅ →
    csvData !! rowIndex = Some row →
    Batch.present (Batch.mappedRow columnMapping row "observation_timestamp") = true →
    parseDate (Batch.orEmpty (Batch.mappedRow columnMapping row "observation_timestamp"))
      = Some date →
    (now rowIndex < date)%Z →
    W ≠ 0%Z → (now_day < day ≤ now_day + W)%Z →
    Batch.issue rowIndex "observation_timestamp"
      "Observation date cannot be in the future" Batch.error None
      ∈ Batch.validation_errors
          (Batch.validateAndTransform parseFloat toFixedText parseDate now
             ninetyDaysAgo true columnMapping currentUserId csvData)
    ∧ Temporal.withinValidRange (Temporal.computeValidationWindow now_day W st) day
      = true
    ∧ snd (Temporal.handleSubmit observation_id
             (Temporal.changeTimestamp day clearError st))
      = snd (Temporal.handleSubmit observation_id st).
Proof.
  intros parseFloat toFixedText parseDate now ninetyDaysAgo columnMapping
    currentUserId csvData rowIndex row date st now_day W day observation_id
    clearError Hmap Hrow Hpresent Hparse Hfuture HW Hday.
  split; [|split].
  - unfold Batch.validateAndTransform.
    assert (Hlen : length csvData ≠ 0).
    { intros Hlen. apply nil_length_inv in Hlen. subst csvData.
      rewrite lookup_nil in Hrow. discriminate. }
    rewrite (bool_decide_eq_false_2 _ Hlen), (bool_decide_eq_false_2 _ Hmap). simpl.
    pose proof (validateRows_errors parseFloat toFixedText parseDate now ninetyDaysAgo
                  columnMapping currentUserId csvData 0 [] []) as Herrors.
    destruct (Batch.validateRows _ _ _ _ _ _ _ _ _ _ _) as [errors validRows].
    simpl in *. apply Herrors. right. exists rowIndex, row. split; [exact Hrow|].
    simpl. rewrite (validateDate_future parseDate now ninetyDaysAgo columnMapping
                      rowIndex row date Hpresent Hparse Hfuture).
    apply list_elem_of_here.
  - unfold Temporal.computeValidationWindow, Temporal.withinValidRange.
    destruct (Z.eqb_spec W 0) as [->|_]; [contradiction|]. simpl.
    apply andb_true_intro. split; apply Z.leb_le; lia.
  - unfold Temporal.handleSubmit. simpl.
    case_bool_decide; [reflexivity|].
    destruct (Temporal.isRetrospective st && Temporal.blank (Temporal.justificationText st));
      reflexivity.
Qed.

Lemma C4_future_reported_by_batch_not_by_screen_witness :
  Batch.issue 0 "observation_timestamp"
    "Observation date cannot be in the future" Batch.error None
    ∈ Batch.validation_errors (validateScenario [csvRow "2031-01-01"])
  ∧ Temporal.withinValidRange
      (Temporal.computeValidationWindow today 90 (Temporal.initialState today false))
      (today + 1) = true
  ∧ snd (Temporal.handleSubmit (Some "obs-1")
           (Temporal.changeTimestamp (today + 1) true
              (Temporal.initialState today false)))
    = snd (Temporal.handleSubmit (Some "obs-1") (Temporal.initialState today false)).
Proof.
  apply (C4_future_reported_by_batch_not_by_screen parseFloatOf toFixedTextOf
           parseDateOf clock clockMinus90Days mapping (Some "user-1")
           [csvRow "2031-01-01"] 0 (csvRow "2031-01-01") 1924992000000%Z
           (Temporal.initialState today false) today 90%Z (today + 1)%Z
           (Some "obs-1") true).
  - intros H. apply (f_equal (λ m, m !! "latitude")) in H. vm_compute in H. discriminate.
  - reflexivity.
  - vm_compute. reflexivity.
  - vm_compute. reflexivity.
  - vm_compute. reflexivity.
  - lia.
  - unfold today. lia.
Defined.

End FutureTimestamps.

(** ** The credibility ledger *)

Section VerificationProperties.
Import Verification.
Local Open Scope Z_scope.

Lemma clamp_range s : 0 ≤ clamp s ≤ 100.
Proof. unfold clamp. lia. Qed.

Lemma clamp_credit s change :
  0 ≤ s ≤ 100 → 0 ≤ change → clamp (s + change) = Z.min 100 (s + change).
Proof. unfold clamp. lia. Qed.

Lemma fold_range entries s :
  0 ≤ s ≤ 100 →
  0 ≤ fold_left (λ score entry, clamp (score + delta entry)) entries s ≤ 100.
Proof.
  revert s. induction entries as [|entry entries IH]; intros s Hs; [exact Hs|].
  simpl. apply IH, clamp_range.
Qed.

Lemma current_range record : 0 ≤ initial_score record ≤ 100 → 0 ≤ current record ≤ 100.
Proof. apply fold_range. Qed.

Lemma score_range sys user : wellFormed sys → 0 ≤ score sys user ≤ 100.
Proof. intros Hwf. apply current_range. specialize (Hwf user). lia. Qed.

Lemma current_snoc start entries entry :
  current {| initial_score := start; history := entries ++ [entry] |}
  = clamp (current {| initial_score := start; history := entries |} + delta entry).
Proof. unfold current. simpl. rewrite fold_left_app. reflexivity. Qed.

(** [record_outcome] moves the named user's score by the change, clamped,
    and nobody else's. *)
Lemma score_record_outcome records user reason change other :
  current (fst (record_outcome records user reason change) other)
  = if bool_decide (other = user) then clamp (current (records user) + change)
    else current (records other).
Proof.
  unfold record_outcome. simpl. case_bool_decide as Hother; [|reflexivity].
  rewrite current_snoc. destruct (records user). reflexivity.
Qed.

End VerificationProperties.

Section CredibilityClaims.
Import Verification Scenarios.
Local Open Scope Z_scope.

(** C8, as stated, fails once the owner's score stands at the cap.  Under
    the policy (tier minimums 20 and 70, credit 15, participation 1) six
    tier-1 verifications of user-1's pending observations raise user-1 from
    10 to 100; the verification of the seventh succeeds and takes that
    observation from pending to verified, and the owner's score is 100 as
    before: credited, clamped, not strictly increased. *)
Lemma C8_credit_at_cap_not_strict :
  let before :=
    verifyEach ["obs-1"; "obs-2"; "obs-3"; "obs-4"; "obs-5"; "obs-6"] sevenPending in
  score sevenPending "user-1" = 10
  ∧ score before "user-1" = 100
  ∧ observations before !! "obs-7" = Some pendingObservation
  ∧ ∃ after observation',
      submit_verification 20 70 15 1 before "obs-7" "expert-1" 1 1%Qc "" = inl after
      ∧ observations after !! "obs-7" = Some observation'
      ∧ owner observation' = "user-1"
      ∧ state observation' = verified
      ∧ score after "user-1" = 100.
Proof.
  cbv zeta. split; [vm_compute; reflexivity|]. split; [vm_compute; reflexivity|].
  split; [vm_compute; reflexivity|].
  set (before := verifyEach _ _).
  assert (Hobs : match submit_verification 20 70 15 1 before "obs-7" "expert-1" 1
                         1%Qc "" with
                 | inl sys => observations sys !! "obs-7"
                 | inr _ => None
                 end
                 = Some {| owner := "user-1"; state := verified;
                           verifications :=
                             [{| verifier_id := "expert-1"; tier := 1;
                                 confidence := 1%Qc; notes := "" |}] |})
    by (vm_compute; reflexivity).
  assert (Hscore : match submit_verification 20 70 15 1 before "obs-7" "expert-1" 1
                           1%Qc "" with
                   | inl sys => score sys "user-1"
                   | inr _ => 0
                   end = 100)
    by (vm_compute; reflexivity).
  destruct (submit_verification 20 70 15 1 before "obs-7" "expert-1" 1 1%Qc "")
    as [after|failure]; [|discriminate Hobs].
  exists after. eexists. split; [reflexivity|]. split; [exact Hobs|].
  split; [reflexivity|]. split; [reflexivity|]. exact Hscore.
Qed.

(** C8 (amended): a successful verification takes an observation to
    [verified] exactly when it is the first one, at tier 1, of a pending
    observation.  The owner is then credited: the score moves to the old
    score plus the credit, clamped to 100 (more only if the owner is the
    verifier and also earns the participation credit), so it never exceeds
    100 and strictly increases whenever it stood below 100.  A verification
    raises a user's score in no other way than this credit to the owner and
    the participation credit to the verifier; an owner who is not the
    verifier keeps the score unless the observation reaches [verified]. *)
Theorem C8_verified_credits_owner :
  ∀ tier1Minimum tier2Minimum verifiedCredit participationCredit sys sys'
    observation_id observation verifier verificationTier verifierConfidence
    verifierNotes,
    wellFormed sys →
    0 < verifiedCredit →
    0 ≤ participationCredit →
    observations sys !! observation_id = Some observation →
    submit_verification tier1Minimum tier2Minimum verifiedCredit participationCredit
      sys observation_id verifier verificationTier verifierConfidence verifierNotes
    = inl sys' →
    ∃ observation',
      observations sys' !! observation_id = Some observation'
      ∧ owner observation' = owner observation
      ∧ (state observation ≠ verified ∧ state observation' = verified
         ↔ verificationTier = 1%nat ∧ state observation = pending
           ∧ verifications observation = [])
      ∧ (state observation ≠ verified → state observation' = verified →
         Z.min 100 (score sys (owner observation) + verifiedCredit)
           ≤ score sys' (owner observation) ≤ 100
         ∧ (score sys (owner observation) < 100 →
            score sys (owner observation) < score sys' (owner observation))
         ∧ (verifier ≠ owner observation →
            score sys' (owner observation)
            = Z.min 100 (score sys (owner observation) + verifiedCredit)))
      ∧ (¬ (state observation ≠ verified ∧ state observation' = verified) →
         verifier ≠ owner observation →
         score sys' (owner observation) = score sys (owner observation))
      ∧ ∀ user,
          score sys user < score sys' user →
          (user = owner observation
           ∧ state observation ≠ verified ∧ state observation' = verified)
          ∨ (user = verifier ∧ 0 < participationCredit).
Proof.
  intros t1 t2 credit part sys sys' observation_id observation verifier
    verificationTier conf verifierNotes Hwf Hcredit Hpart Hlookup Hsubmit.
  unfold submit_verification in Hsubmit. rewrite Hlookup in Hsubmit.
  destruct (threshold t1 t2 verificationTier) as [minimum|]; [|discriminate].
  destruct (score sys verifier <? minimum); [discriminate|].
  injection Hsubmit as <-. cbv zeta.
  set (first := bool_decide (verificationTier = 1%nat) && isPending observation
                && bool_decide (length (verifications observation) = 0%nat)).
  assert (Hfirst : first = true
                   ↔ verificationTier = 1%nat ∧ state observation = pending
                     ∧ verifications observation = []).
  { unfold first, isPending. rewrite !andb_true_iff, !bool_decide_eq_true.
    rewrite length_zero_iff_nil.
    destruct (state observation); intuition (auto; discriminate). }
  pose proof (score_range sys (owner observation) Hwf) as Howner.
  assert (Hscore : ∀ user,
    score {| observations := <[observation_id :=
                                 {| owner := owner observation;
                                    state := if first then verified
                                             else state observation;
                                    verifications :=
                                      verifications observation
                                      ++ [{| verifier_id := verifier;
                                             tier := verificationTier;
                                             confidence := conf;
                                             notes := verifierNotes |}] |}]>
                               (observations sys);
             ledger := fst (record_outcome
                              (if first
                               then fst (record_outcome (ledger sys) (owner observation)
                                           "observation verified" credit)
                               else ledger sys)
                              verifier "verification participation" part) |} user
    = (let credited other :=
         if first && bool_decide (other = owner observation)
         then clamp (score sys other + credit) else score sys other in
       if bool_decide (user = verifier) then clamp (credited verifier + part)
       else credited user)).
  { intros user. unfold score at 1. cbn [ledger]. rewrite score_record_outcome.
    cbv zeta. destruct first; cbn [andb].
    - rewrite !score_record_outcome.
      repeat case_bool_decide; subst; try reflexivity; try congruence.
    - reflexivity. }
  eexists. split; [apply lookup_insert_eq|]. cbn [owner state].
  split; [reflexivity|].
  split.
  { rewrite <- Hfirst. destruct first.
    - split; [reflexivity|]. intros _. split; [|reflexivity].
      destruct (proj1 Hfirst eq_refl) as (_ & Hpending & _).
      rewrite Hpending. discriminate.
    - split; [|discriminate]. intros [Hnot Hnow]. contradiction. }
  split.
  { intros Hnot Hnow.
    assert (Hf : first = true) by (destruct first; [reflexivity|contradiction]).
    rewrite Hscore. cbv zeta. rewrite Hf. cbn [andb].
    rewrite (bool_decide_eq_true_2 (owner observation = owner observation) eq_refl).
    pose proof (clamp_credit _ _ Howner (Z.lt_le_incl _ _ Hcredit)) as Hclamp.
    case_bool_decide as Hself.
    - rewrite <- Hself.
      rewrite (bool_decide_eq_true_2 (owner observation = owner observation) eq_refl).
      rewrite Hclamp. unfold clamp.
      split; [lia|]. split; [lia|]. intros Hne. congruence.
    - rewrite Hclamp. split; [lia|]. split; [lia|]. reflexivity. }
  split.
  { intros Hnot Hverifier.
    assert (Hf : first = false).
    { destruct first; [|reflexivity]. exfalso. apply Hnot.
      destruct (proj1 Hfirst eq_refl) as (_ & Hpending & _).
      rewrite Hpending. split; [discriminate|reflexivity]. }
    rewrite Hscore. cbv zeta. rewrite Hf. cbn [andb].
    rewrite bool_decide_eq_false_2 by congruence. reflexivity. }
  intros user. rewrite Hscore. cbv zeta.
  pose proof (score_range sys user Hwf) as Huser.
  pose proof (score_range sys verifier Hwf) as Hverifier.
  case_bool_decide as Hself.
  - subst user. intros Hrise.
    destruct (decide (0 < part)) as [Hpos|Hzero]; [right; auto|].
    assert (part = 0) by lia. subst part. left.
    destruct first; cbn [andb] in *.
    + case_bool_decide as Hown.
      * split; [exact Hown|]. split; [|reflexivity].
        destruct (proj1 Hfirst eq_refl) as (_ & Hpending & _).
        rewrite Hpending. discriminate.
      * unfold clamp in Hrise. lia.
    + unfold clamp in Hrise. lia.
  - intros Hrise. left. destruct first; cbn [andb] in *; [|lia].
    case_bool_decide as Hown; [|lia].
    split; [exact Hown|]. split; [|reflexivity].
    destruct (proj1 Hfirst eq_refl) as (_ & Hpending & _).
    rewrite Hpending. discriminate.
Qed.

Lemma C8_verified_credits_owner_witness :
  wellFormed verificationSystem
  ∧ observations verificationSystem !! "obs-1" = Some pendingObservation
  ∧ score verificationSystem "user-1" = 10
  ∧ ∃ sys' observation',
      submit_verification 20 70 15 1 verificationSystem "obs-1" "expert-1" 1 1%Qc ""
      = inl sys'
      ∧ observations sys' !! "obs-1" = Some observation'
      ∧ state observation' = verified
      ∧ score sys' "user-1" = 25.
Proof.
  assert (Hwf : wellFormed verificationSystem) by (intros user; simpl; lia).
  assert (Hlookup : observations verificationSystem !! "obs-1" = Some pendingObservation)
    by (vm_compute; reflexivity).
  split; [exact Hwf|]. split; [exact Hlookup|]. split; [vm_compute; reflexivity|].
  destruct (submit_verification 20 70 15 1 verificationSystem "obs-1" "expert-1" 1
              1%Qc "") as [sys'|failure] eqn:Hsubmit.
  - destruct (C8_verified_credits_owner 20 70 15 1 verificationSystem sys' "obs-1"
                pendingObservation "expert-1" 1%nat 1%Qc "" Hwf ltac:(lia) ltac:(lia)
                Hlookup Hsubmit)
      as (observation' & Hobs & _ & Hreach & Hcredit & _).
    destruct (proj2 Hreach (conj eq_refl (conj eq_refl eq_refl))) as [Hnot Hnow].
    destruct (Hcredit Hnot Hnow) as (_ & _ & Hexact).
    exists sys', observation'. split; [reflexivity|]. split; [exact Hobs|].
    split; [exact Hnow|].
    etransitivity; [exact (Hexact ltac:(discriminate))|vm_compute; reflexivity].
  - exfalso. vm_compute in Hsubmit. discriminate Hsubmit.
Defined.

End CredibilityClaims.

(** ** The conflict detector *)

Section ConflictProperties.
Import ConflictDetector.

Variable withinSpatialTolerance : Z * Z → Z * Z → bool.
Variable withinTemporalTolerance : Z → Z → bool.
Variable applyResolution :
  ResolutionOption → nat → nat → list Observation → list Observation.

Local Abbreviation run :=
  (run withinSpatialTolerance withinTemporalTolerance applyResolution).
Local Abbreviation submit := (submit withinSpatialTolerance withinTemporalTolerance).
Local Abbreviation resubmit := (resubmit withinSpatialTolerance withinTemporalTolerance).

Lemma filter_first {A} (P : A → Prop) `{∀ x, Decision (P x)} (l : list A) x :
  x ∈ l → P x → ∃ y rest, filter P l = y :: rest.
Proof.
  intros Hin HP.
  assert (Hx : x ∈ filter P l) by (apply list_elem_of_filter; auto).
  destruct (filter P l) as [|y rest]; [apply elem_of_nil in Hx; contradiction|eauto].
Qed.

Lemma filter_head {A} (P : A → Prop) `{∀ x, Decision (P x)} (l : list A) y rest :
  filter P l = y :: rest → y ∈ l ∧ P y.
Proof.
  intros Hf. assert (Hy : y ∈ filter P l) by (rewrite Hf; left).
  apply list_elem_of_filter in Hy as [HP Hin]. auto.
Qed.

Lemma filter_none {A} (P : A → Prop) `{∀ x, Decision (P x)} (l : list A) :
  (∀ x, x ∈ l → ¬ P x) → filter P l = [].
Proof.
  intros Hnone. destruct (filter P l) as [|y rest] eqn:Hf; [reflexivity|].
  apply filter_head in Hf as [Hin HP]. destruct (Hnone y Hin HP).
Qed.

(** A submission whose key is already stored returns a stored record with
    that key and leaves the store as it is. *)
Lemma submit_retry c store key existing :
  c_idempotency_key c = Some key →
  existing ∈ store → idempotency_key existing = Some key →
  ∃ found, submit c store = (Retry found, store)
           ∧ found ∈ store ∧ idempotency_key found = Some key.
Proof.
  intros Hkey Hin Hsame.
  assert (Hshares : sharesKey c existing = true).
  { unfold sharesKey. rewrite Hkey. apply bool_decide_eq_true_2, Hsame. }
  destruct (filter_first (λ o, sharesKey c o = true) store existing Hin Hshares)
    as (found & rest & Hf).
  exists found. unfold ConflictDetector.submit. rewrite Hf.
  apply filter_head in Hf as [Hfound Hsh]. split; [reflexivity|]. split; [exact Hfound|].
  unfold sharesKey in Hsh. rewrite Hkey in Hsh.
  apply bool_decide_eq_true_1 in Hsh. exact Hsh.
Qed.

(** Submissions never remove a stored record. *)
Lemma submit_keeps c store o : o ∈ store → o ∈ snd (submit c store).
Proof.
  intros Hin. unfold ConflictDetector.submit.
  destruct (filter _ store); [|exact Hin].
  destruct (filter _ store); simpl; apply elem_of_app; auto.
Qed.

(** Nor does any sequence of submissions, as long as no resolution is
    picked in between. *)
Lemma run_keeps events store o :
  Forall (λ event, isSubmission event = true) events →
  o ∈ store → o ∈ run events store.
Proof.
  unfold run. intros Hall. revert store.
  induction Hall as [|event events Hsub _ IH]; intros store Hin; [exact Hin|].
  simpl. apply IH. destruct event as [c|choice existingId newId]; [|discriminate].
  simpl. apply submit_keeps, Hin.
Qed.

End ConflictProperties.

Section ConflictClaims.
Import ConflictDetector Scenarios.

(** C6: a submission whose idempotency key equals that of a stored
    observation is a retry: it returns a stored record carrying that key and
    leaves the store unchanged, however often it is repeated, so no second
    row is created. *)
Theorem C6_same_key_is_retry :
  ∀ withinSpatialTolerance withinTemporalTolerance c store key existing n,
    c_idempotency_key c = Some key →
    existing ∈ store →
    idempotency_key existing = Some key →
    (∃ found,
       submit withinSpatialTolerance withinTemporalTolerance c store
         = (Retry found, store)
       ∧ found ∈ store ∧ idempotency_key found = Some key)
    ∧ resubmit withinSpatialTolerance withinTemporalTolerance n c store = store.
Proof.
  intros withinS withinT c store key existing n Hkey Hin Hsame.
  pose proof (submit_retry withinS withinT c store key existing Hkey Hin Hsame)
    as (found & Hsubmit & Hfound & Hfkey).
  split; [exists found; auto|].
  induction n as [|n IH]; [reflexivity|].
  simpl. rewrite Hsubmit. simpl. exact IH.
Qed.

Lemma C6_same_key_is_retry_witness :
  (∃ found,
     submit sameCell sameDay (candidate "species_1" (Some "local_1")) [stored]
       = (Retry found, [stored])
     ∧ found ∈ [stored] ∧ idempotency_key found = Some "local_1")
  ∧ resubmit sameCell sameDay 3 (candidate "species_1" (Some "local_1")) [stored]
    = [stored].
Proof.
  apply (C6_same_key_is_retry sameCell sameDay
           (candidate "species_1" (Some "local_1")) [stored] "local_1" stored 3).
  - reflexivity.
  - apply list_elem_of_here.
  - reflexivity.
Defined.

(** C7, as stated, fails for a candidate that re-uses a stored idempotency
    key: the stored observation is the contributor's own, lies within both
    tolerances and differs in species, and the submission is a retry that
    returns the stored record: nothing is marked, no option is offered and no
    second record is stored. *)
Lemma C7_shared_key_is_retry_not_conflict :
  let c := candidate "species_2" (Some "local_1") in
  stored ∈ [stored]
  ∧ contributor stored = c_contributor c
  ∧ sameCell (coordinate stored) (c_coordinate c) = true
  ∧ sameDay (timestamp stored) (c_timestamp c) = true
  ∧ species stored ≠ c_species c
  ∧ submit sameCell sameDay c [stored] = (Retry stored, [stored])
  ∧ conflict_detected stored = false.
Proof.
  cbv zeta. split; [apply list_elem_of_here|]. split; [reflexivity|].
  split; [vm_compute; reflexivity|]. split; [vm_compute; reflexivity|].
  split; [discriminate|]. split; [vm_compute; reflexivity|]. reflexivity.
Qed.

(** C7 (amended): when no stored observation shares the candidate's
    idempotency key and one of the contributor's stored observations lies
    within the spatial and temporal tolerance (whether or not it differs in
    species or other content), the submission creates the new observation
    with [conflict_detected = true] and returns the options keep_existing,
    keep_new and merge; both records are in the store then and after every
    further sequence of submissions, as long as no resolution is picked. *)
Theorem C7_conflict_marked_both_persist :
  ∀ withinSpatialTolerance withinTemporalTolerance applyResolution c store existing,
    (∀ o, o ∈ store → sharesKey c o = false) →
    existing ∈ store →
    contributor existing = c_contributor c →
    withinSpatialTolerance (coordinate existing) (c_coordinate c) = true →
    withinTemporalTolerance (timestamp existing) (c_timestamp c) = true →
    ∃ created store',
      submit withinSpatialTolerance withinTemporalTolerance c store
        = (Conflict created [keep_existing; keep_new; merge], store')
      ∧ conflict_detected created = true
      ∧ created = create c (length store) true
      ∧ store' = store ++ [created]
      ∧ ∀ events,
          Forall (λ event, isSubmission event = true) events →
          existing ∈ run withinSpatialTolerance withinTemporalTolerance
                       applyResolution events store'
          ∧ created ∈ run withinSpatialTolerance withinTemporalTolerance
                        applyResolution events store'.
Proof.
  intros withinS withinT applyResolution c store existing Hnokey Hin Hsame Hspace Htime.
  assert (Hconf : conflictsWith withinS withinT c existing = true).
  { unfold conflictsWith. rewrite Hspace, Htime.
    rewrite (bool_decide_eq_true_2 _ Hsame). reflexivity. }
  destruct (filter_first (λ o, conflictsWith withinS withinT c o = true)
              store existing Hin Hconf) as (first & rest & Hf).
  exists (create c (length store) true), (store ++ [create c (length store) true]).
  unfold submit at 1.
  rewrite (filter_none (λ o, sharesKey c o = true) store).
  2:{ intros o Ho Hsh. rewrite (Hnokey o Ho) in Hsh. discriminate. }
  rewrite Hf. split; [reflexivity|]. split; [reflexivity|].
  split; [reflexivity|]. split; [reflexivity|].
  intros events Hall. split; apply run_keeps; try exact Hall; apply elem_of_app.
  - left. exact Hin.
  - right. apply list_elem_of_here.
Qed.

(** Scenario C of the specification: a second observation of the same
    species, in the same cell and on the same day, under a new key. *)
Lemma C7_conflict_marked_both_persist_witness :
  ∃ created store',
    submit sameCell sameDay (candidate "species_1" (Some "local_2")) [stored]
      = (Conflict created [keep_existing; keep_new; merge], store')
    ∧ conflict_detected created = true
    ∧ created = create (candidate "species_1" (Some "local_2")) (length [stored]) true
    ∧ store' = [stored] ++ [created]
    ∧ ∀ events,
        Forall (λ event, isSubmission event = true) events →
        stored ∈ run sameCell sameDay noResolution events store'
        ∧ created ∈ run sameCell sameDay noResolution events store'.
Proof.
  apply (C7_conflict_marked_both_persist sameCell sameDay noResolution
           (candidate "species_1" (Some "local_2")) [stored] stored).
  - intros o Ho. apply list_elem_of_singleton in Ho as ->. reflexivity.
  - apply list_elem_of_here.
  - reflexivity.
  - vm_compute. reflexivity.
  - vm_compute. reflexivity.
Defined.

End ConflictClaims.

(** * Further properties of the modelled code *)

(** ** The error of the arithmetic *)

Section RoundingError.
Import Binary64.
Local Open Scope Q_scope.

Lemma roundPositive_relative (m : Q) :
  0 < m → Qabs (roundPositive m - m) <= m * unitRoundoff.
Proof.
  intros Hm. destruct (significand_range m Hm) as (Hlo & _ & Hms).
  unfold roundPositive.
  set (k := (ilog2 m - 52)%Z) in *. set (s := m / 2 ^ k) in *.
  pose proof (pow2_pos k) as HP.
  pose proof (nearestEven_close s) as Hclose.
  set (N := nearestEven s) in *.
  assert (Hy : Qabs (inject_Z N * 2 ^ k - m) == Qabs (inject_Z N - s) * 2 ^ k).
  { rewrite Hms at 1.
    assert (Hf : inject_Z N * 2 ^ k - s * 2 ^ k == (inject_Z N - s) * 2 ^ k) by ring.
    rewrite Hf, Qabs_Qmult, (Qabs_pos (2 ^ k)) by (apply Qlt_le_weak, HP).
    reflexivity. }
  rewrite Hy.
  assert (Hc : (2 ^ 52 == 4503599627370496 # 1)%Q) by reflexivity.
  unfold unitRoundoff.
  revert Hms HP Hclose Hlo Hc.
  generalize (Qabs (inject_Z N - s)) (2 ^ k) (2 ^ 52)%Q.
  intros D P c Hms HP Hclose Hlo Hc. rewrite Hms. nra.
Qed.

Lemma round_relative (q : Qc) : Qabs (round q - q) <= Qabs q * unitRoundoff.
Proof.
  assert (Hpos : ∀ p : Qc, (0 < p)%Qc →
                   Qabs (round p - p) <= Qabs p * unitRoundoff).
  { intros p Hp. rewrite (round_pos p Hp). cbn [Q2Qc this].
    rewrite Qred_correct, (Qabs_pos p) by (apply Qlt_le_weak, Qc_pos_Q, Hp).
    apply roundPositive_relative, Qc_pos_Q, Hp. }
  destruct (Qc_sign_cases q) as [->|[Hq|Hq]].
  - rewrite round_0. vm_compute. discriminate.
  - pose proof (Hpos _ (Qcopp_pos q Hq)) as H.
    rewrite (round_neg q Hq).
    revert H. generalize (round (- q)). intros y H.
    cbn [Qcopp Q2Qc this] in *. rewrite !Qred_correct in *.
    assert (H1 : - y - q == - (y - - q)) by ring.
    rewrite H1, Qabs_opp. rewrite Qabs_opp in H. exact H.
  - apply Hpos; assumption.
Qed.

(** The result of a rounded operation lies within [bound * 2^-53] of the
    exact one when the exact one is at most [bound] in magnitude. *)
Lemma round_within (q : Qc) (bound : Q) :
  Qabs q <= bound →
  - (bound * unitRoundoff) <= round q - q ∧ round q - q <= bound * unitRoundoff.
Proof.
  intros Hb. pose proof (round_relative q) as Hrel.
  apply Qabs_Qle_condition. eapply Qle_trans; [exact Hrel|].
  unfold unitRoundoff. revert Hb. generalize (Qabs q). intros x Hb. lra.
Qed.

End RoundingError.

(** ** The geofence warning screen: further properties *)

Section GeofenceExtras.
Import Binary64 JsNumber Geofence GeofenceFlow Scenarios.
Local Open Scope Qc_scope.

(** X1: for a blur radius between 0 and 2000, a latitude between -90 and 90
    and a draw in [0, 1), the disclosed latitude lies within [r / 222]
    degrees of the raw latitude, up to half a millionth for the rounding to
    six decimals and [10^-13] for the rounding of the arithmetic. *)
Theorem X1_blurred_latitude_distance :
  ∀ cosDeg (a r u1 u2 : Qc) (longitude : num),
    0 ≤ r → r ≤ Qc_of_Z 2000 → magnitude a ≤ Qc_of_Z 90 → 0 ≤ u1 → u1 < 1 →
    ∃ a', lat (applyCoordinateBlurring cosDeg {| lat := Fin a; lng := longitude |}
                 (Fin r) u1 u2) = Fin a'
          ∧ magnitude (a' - a)
            ≤ r / Qc_of_Z 222 + half / million + 1 / Qc_of_Z (10 ^ 13).
Proof.
  intros cosDeg a r u1 u2 longitude Hr Hr' Ha Hu0 Hu1.
  unfold applyCoordinateBlurring. cbn [lat]. unfold ofZ.
  rewrite (div_finite _ _ Qc_111_nonzero). cbn [sub neg add mul].
  destruct (toFixed6_roundsToSix
              (round (a + round (round (r / Qc_of_Z 111) * round (u1 + - half))))
              (round_float _)) as (a' & Heq & n & Hn & Ha').
  exists a'. split; [exact Heq|]. clear Heq.
  unfold Qcle in Hn. rewrite magnitude_Qabs in Hn.
  unfold Qcle in Ha. rewrite magnitude_Qabs in Ha.
  unfold Qcle. rewrite magnitude_Qabs.
  (* the six roundings *)
  assert (E1 := round_within (r / Qc_of_Z 111) 19).
  assert (E2 := round_within (u1 + - half) (1 # 2)).
  assert (E3 := round_within (round (r / Qc_of_Z 111) * round (u1 + - half)) 10).
  assert (E4 := round_within
                  (a + round (round (r / Qc_of_Z 111) * round (u1 + - half))) 100).
  assert (E6 := round_within (Qc_of_Z n / million) 102).
  rewrite <- Ha' in E6. clear Ha'.
  revert E1 E2 E3 E4 E6 Hn.
  generalize (round (a + round (round (r / Qc_of_Z 111) * round (u1 + - half)))).
  generalize (round (round (r / Qc_of_Z 111) * round (u1 + - half))).
  generalize (round (r / Qc_of_Z 111)) (round (u1 + - half)).
  intros S D P T E1 E2 E3 E4 E6 Hn.
  revert E6 Hn. generalize (Qc_of_Z n / million). intros Y E6 Hn.
  unfold Qcle, Qclt in Hr, Hr', Hu0, Hu1.
  cbn [this Qcplus Qcminus Qcmult Qcopp Qcdiv Qcinv Q2Qc Qc_of_Z half million] in *.
  unfold Qcminus, Qcdiv, half, million in *.
  cbn [this Qcplus Qcmult Qcopp Qcinv Q2Qc Qc_of_Z] in *.
  rewrite ?Qred_correct in *.
  assert (H111 : (/ inject_Z 111 == 1 # 111)%Q) by reflexivity.
  assert (H222 : (/ inject_Z 222 == 1 # 222)%Q) by reflexivity.
  assert (H13 : (/ inject_Z (10 ^ 13) == 1 # 10000000000000)%Q) by reflexivity.
  rewrite ?H111, ?H222, ?H13, ?millionth in *.
  change (inject_Z 2000) with (2000 # 1)%Q in *.
  change (inject_Z 90) with (90 # 1)%Q in *.
  apply Qabs_Qle_condition in Ha. apply Qabs_Qle_condition in Hn.
  unfold unitRoundoff in *.
  revert Hr Hr' Ha Hu0 Hu1 E1 E2 E3 E4 E6 Hn.
  generalize (this r) (this a) (this u1) (this S) (this D) (this P) (this T)
             (this Y) (this a').
  intros R A U s d p t y z Hr Hr' Ha Hu0 Hu1 E1 E2 E3 E4 E6 Hn.
  assert (B1 : (- ((19 # 1) * (1 # 9007199254740992)) <= s - R * (1 # 111)
                ∧ s - R * (1 # 111) <= (19 # 1) * (1 # 9007199254740992))%Q).
  { apply E1. apply Qabs_Qle_condition. lra. }
  assert (B2 : (- ((1 # 2) * (1 # 9007199254740992)) <= d - (U + - (1 # 2))
                ∧ d - (U + - (1 # 2)) <= (1 # 2) * (1 # 9007199254740992))%Q).
  { apply E2. apply Qabs_Qle_condition. lra. }
  assert (Bsd : (- (R * (1 # 222) + (19 # 1) * (1 # 9007199254740992)) <= s * d
                 ∧ s * d <= R * (1 # 222) + (19 # 1) * (1 # 9007199254740992))%Q).
  { split; nra. }
  assert (B3 : (- ((10 # 1) * (1 # 9007199254740992)) <= p - s * d
                ∧ p - s * d <= (10 # 1) * (1 # 9007199254740992))%Q).
  { apply E3. apply Qabs_Qle_condition. lra. }
  assert (B4 : (- ((100 # 1) * (1 # 9007199254740992)) <= t - (A + p)
                ∧ t - (A + p) <= (100 # 1) * (1 # 9007199254740992))%Q).
  { apply E4. apply Qabs_Qle_condition. lra. }
  assert (B6 : (- ((102 # 1) * (1 # 9007199254740992)) <= z - y
                ∧ z - y <= (102 # 1) * (1 # 9007199254740992))%Q).
  { apply E6. apply Qabs_Qle_condition. lra. }
  apply Qabs_Qle_condition. clear E1 E2 E3 E4 E6. revert Bsd B3.
  generalize (s * d)%Q. intros x Bsd B3. lra.
Qed.

Lemma X1_blurred_latitude_distance_witness :
  let a := round (Qc_of_Z 377749 / Qc_of_Z 10000) in
  ∃ a', lat (applyCoordinateBlurring cosAtOneDegree {| lat := Fin a; lng := Fin 1 |}
               (Fin (Qc_of_Z 500)) 0 0) = Fin a'
        ∧ magnitude (a' - a)
          ≤ Qc_of_Z 500 / Qc_of_Z 222 + half / million + 1 / Qc_of_Z (10 ^ 13).
Proof.
  cbv zeta.
  apply (X1_blurred_latitude_distance cosAtOneDegree
           (round (Qc_of_Z 377749 / Qc_of_Z 10000)) (Qc_of_Z 500) 0 0 (Fin 1)).
  - apply (bool_decide_eq_true_1 _). vm_compute. reflexivity.
  - apply (bool_decide_eq_true_1 _). vm_compute. reflexivity.
  - apply (bool_decide_eq_true_1 _). vm_compute. reflexivity.
  - apply (bool_decide_eq_true_1 _). vm_compute. reflexivity.
  - apply (bool_decide_eq_true_1 _). vm_compute. reflexivity.
Defined.

(** X2: with a blur radius of 0 the blurring is idempotent: disclosing an
    already disclosed coordinate again returns it unchanged, whatever the
    draws (the cosine being finite and non-zero, as it is for every double). *)
Theorem X2_blur_radius_zero_idempotent :
  ∀ cosDeg (a b u1 u2 u3 u4 : Qc),
    (∀ x, ∃ c, cosDeg (Fin x) = Fin c ∧ c ≠ 0) →
    applyCoordinateBlurring cosDeg
      (applyCoordinateBlurring cosDeg {| lat := Fin a; lng := Fin b |} (Fin 0) u1 u2)
      (Fin 0) u3 u4
    = applyCoordinateBlurring cosDeg {| lat := Fin a; lng := Fin b |} (Fin 0) u1 u2.
Proof.
  intros cosDeg a b u1 u2 u3 u4 Hcos.
  assert (Hzero : ∀ x y u v,
            applyCoordinateBlurring cosDeg {| lat := Fin x; lng := Fin y |} (Fin 0) u v
            = {| lat := toFixed6 (Fin (round x)); lng := toFixed6 (Fin (round y)) |}).
  { intros x y u v. destruct (Hcos x) as (c & Hc & Hne).
    exact (applyCoordinateBlurring_zero cosDeg x y c u v Hc Hne). }
  rewrite (Hzero a b u1 u2).
  destruct (toFixed6_float (round a) (round_float a)) as (a' & Ha & Hfa).
  destruct (toFixed6_float (round b) (round_float b)) as (b' & Hb & Hfb).
  rewrite Ha, Hb, (Hzero a' b' u3 u4), (round_fixed a' Hfa), (round_fixed b' Hfb).
  rewrite <- Ha, <- Hb.
  rewrite (toFixed6_idempotent (round a) (round_float a)).
  rewrite (toFixed6_idempotent (round b) (round_float b)).
  reflexivity.
Qed.

Lemma X2_blur_radius_zero_idempotent_witness :
  let a := round (Qc_of_Z 123456789 / Qc_of_Z 100000000) in
  applyCoordinateBlurring cosAtOneDegree
    (applyCoordinateBlurring cosAtOneDegree {| lat := Fin a; lng := Fin 1 |} (Fin 0)
       half 0)
    (Fin 0) 0 half
  = applyCoordinateBlurring cosAtOneDegree {| lat := Fin a; lng := Fin 1 |} (Fin 0)
      half 0.
Proof.
  cbv zeta.
  apply (X2_blur_radius_zero_idempotent cosAtOneDegree
           (round (Qc_of_Z 123456789 / Qc_of_Z 100000000)) 1 half 0 0 half).
  intros x. eexists. split; [reflexivity|].
  apply (bool_decide_eq_false_1 _). vm_compute. reflexivity.
Defined.

(** X3: the screen never flags the protected zone and the buffer zone at
    the same time. *)
Theorem X3_zone_flags_exclusive :
  ∀ calculateDistance position st,
    reachable calculateDistance position st →
    isInProtectedZone st && isInBufferZone st = false.
Proof.
  intros dist position st Hreach.
  induction Hreach as [|st answer mapCenter _ IH|st v _ IH _ _].
  - reflexivity.
  - unfold processRules. destruct (queryData position answer) as [resp|]; [|exact IH].
    destruct (rules resp) as [|relevantZone others]; [exact IH|].
    destruct (leb _ _); [reflexivity|]. destruct (leb _ _); [reflexivity|exact IH].
  - exact IH.
Qed.

Lemma X3_zone_flags_exclusive_witness :
  reachable meridianDistance position
    (processRules meridianDistance (queryData position (Some registryAB)) position
       (centreAt 10) initialState)
  ∧ isInProtectedZone
      (processRules meridianDistance (queryData position (Some registryAB)) position
         (centreAt 10) initialState)
    && isInBufferZone
         (processRules meridianDistance (queryData position (Some registryAB))
            position (centreAt 10) initialState)
    = false.
Proof.
  assert (Hreach : reachable meridianDistance position
            (processRules meridianDistance (queryData position (Some registryAB))
               position (centreAt 10) initialState))
    by apply reachable_rules, reachable_initial.
  split; [exact Hreach|].
  exact (X3_zone_flags_exclusive meridianDistance position _ Hreach).
Defined.

(** X4: as long as no zone has been selected the screen is still in its
    initial state, and there [handleContinue] does nothing: it hands on no
    draft, also from the "no protection zones" view. *)
Theorem X4_continue_without_zone_does_nothing :
  ∀ calculateDistance cosDeg position st observationDraft rand1 rand2,
    reachable calculateDistance position st →
    selectedZone st = None →
    st = initialState
    ∧ handleContinue cosDeg observationDraft position st rand1 rand2 = None.
Proof.
  intros dist cosDeg position st observationDraft rand1 rand2 Hreach Hnone.
  assert (Hinit : st = initialState).
  { induction Hreach as [|st answer mapCenter _ IH|st v _ IH Hprot _].
    - reflexivity.
    - unfold processRules in *. destruct (queryData position answer) as [resp|]; [|auto].
      destruct (rules resp) as [|relevantZone others]; [auto|].
      destruct (leb _ _); [|destruct (leb _ _)]; discriminate.
    - simpl in Hnone. rewrite (IH Hnone) in Hprot. discriminate. }
  split; [exact Hinit|].
  unfold handleContinue. rewrite Hnone. destruct observationDraft; reflexivity.
Qed.

Lemma X4_continue_without_zone_does_nothing_witness :
  let st :=
    processRules meridianDistance
      (queryData position (Some {| rules := []; default_blur_radius := Qc_of_Z 500 |}))
      position (centreAt 2) initialState in
  reachable meridianDistance position st
  ∧ selectedZone st = None
  ∧ st = initialState
  ∧ handleContinue cosAtOneDegree (Some draft) position st 0 0 = None.
Proof.
  cbv zeta.
  assert (Hreach : reachable meridianDistance position
            (processRules meridianDistance
               (queryData position
                  (Some {| rules := []; default_blur_radius := Qc_of_Z 500 |}))
               position (centreAt 2) initialState))
    by apply reachable_rules, reachable_initial.
  assert (Hnone : selectedZone
            (processRules meridianDistance
               (queryData position
                  (Some {| rules := []; default_blur_radius := Qc_of_Z 500 |}))
               position (centreAt 2) initialState) = None)
    by (vm_compute; reflexivity).
  split; [exact Hreach|]. split; [exact Hnone|].
  exact (X4_continue_without_zone_does_nothing meridianDistance cosAtOneDegree position
           _ (Some draft) 0 0 Hreach Hnone).
Defined.

(** X5: a classification is never withdrawn: once the screen has flagged a
    zone and selected it, no later answer of the registry (far away, empty
    or missing) and no slider move clears the flags or the selection. *)
Theorem X5_zone_classification_sticks :
  ∀ calculateDistance position st st',
    evolves calculateDistance position st st' →
    isInProtectedZone st || isInBufferZone st = true →
    is_Some (selectedZone st) →
    isInProtectedZone st' || isInBufferZone st' = true
    ∧ is_Some (selectedZone st').
Proof.
  intros dist position st st' Hev Hflag Hsel.
  induction Hev as [st|st st' answer mapCenter _ IH|st st' v _ IH _ _].
  - auto.
  - destruct (IH Hflag Hsel) as [Hf Hs]. unfold processRules.
    destruct (queryData position answer) as [resp|]; [|auto].
    destruct (rules resp) as [|relevantZone others]; [auto|].
    destruct (leb _ _); [|destruct (leb _ _)]; simpl; auto.
  - destruct (IH Hflag Hsel) as [Hf Hs]. auto.
Qed.

(** The map is moved from latitude 10 (1001 km away) to latitude 60 (6560
    km away). *)
Lemma X5_zone_classification_sticks_witness :
  let st :=
    processRules meridianDistance (queryData position (Some registryA)) position
      (centreAt 10) initialState in
  let st' :=
    processRules meridianDistance (queryData position (Some registryAB)) position
      (centreAt 60) st in
  evolves meridianDistance position st st'
  ∧ isInProtectedZone st' || isInBufferZone st' = true
  ∧ is_Some (selectedZone st').
Proof.
  cbv zeta.
  assert (Hev : evolves meridianDistance position
            (processRules meridianDistance (queryData position (Some registryA))
               position (centreAt 10) initialState)
            (processRules meridianDistance (queryData position (Some registryAB))
               position (centreAt 60)
               (processRules meridianDistance (queryData position (Some registryA))
                  position (centreAt 10) initialState)))
    by apply evolves_rules, evolves_here.
  split; [exact Hev|].
  apply (X5_zone_classification_sticks meridianDistance position _ _ Hev).
  - rewrite protectedView. reflexivity.
  - rewrite protectedView. eexists. reflexivity.
Defined.

End GeofenceExtras.

(** ** Reading the CSV file *)

Section CsvReading.
Import JsNumber Batch CsvImport.

Lemma fillRow_is_Some headers : ∀ index values (row : gmap string string) h,
  is_Some (fillRow index headers values row !! h)
  ↔ (h ∈ headers ∧ h ≠ "__proto__") ∨ is_Some (row !! h).
Proof.
  induction headers as [|header rest IH]; intros index values row h; simpl.
  - split; [auto|]. intros [[Hin _]|Hsome]; [|exact Hsome].
    apply elem_of_nil in Hin. contradiction.
  - rewrite IH, elem_of_cons. case_bool_decide as Hproto.
    + subst header. intuition congruence.
    + rewrite lookup_insert_is_Some.
      destruct (decide (header = h)) as [->|Hne]; intuition congruence.
Qed.

Lemma fillRow_other headers : ∀ index values (row : gmap string string) h,
  h ∉ headers → fillRow index headers values row !! h = row !! h.
Proof.
  induction headers as [|header rest IH]; intros index values row h Hnotin; simpl.
  - reflexivity.
  - apply not_elem_of_cons in Hnotin as [Hne Hrest].
    rewrite IH by exact Hrest. case_bool_decide; [reflexivity|].
    apply lookup_insert_ne. congruence.
Qed.

Lemma fillRow_lookup headers : ∀ index values (row : gmap string string) position h,
  NoDup headers → headers !! position = Some h → h ≠ "__proto__" →
  fillRow index headers values row !! h
  = Some (default "" (values !! (index + position))).
Proof.
  induction headers as [|header rest IH];
    intros index values row position h Hnodup Hlook Hproto; [discriminate|].
  apply NoDup_cons in Hnodup as [Hfresh Hnodup]. simpl.
  destruct position as [|position]; simpl in Hlook.
  - injection Hlook as ->. rewrite fillRow_other by exact Hfresh.
    rewrite bool_decide_eq_false_2 by exact Hproto.
    rewrite lookup_insert_eq, Nat.add_0_r. reflexivity.
  - rewrite (IH (S index) values _ position h Hnodup Hlook Hproto).
    rewrite Nat.add_succ_comm. reflexivity.
Qed.

Lemma split_nonempty sep s : split sep s ≠ [].
Proof.
  destruct s as [|c rest]; simpl; [discriminate|].
  case_bool_decide; [discriminate|]. destruct (split sep rest); discriminate.
Qed.

(** X6: every row read by [parseCsv] has a cell for each header of the
    file other than [__proto__] and for nothing else: cells beyond the last
    header are dropped and missing ones are filled in. *)
Theorem X6_parseCsv_rows_have_header_keys :
  ∀ csvText (row : gmap string string) h,
    row ∈ snd (parseCsv csvText) →
    (is_Some (row !! h) ↔ h ∈ fst (parseCsv csvText) ∧ h ≠ "__proto__").
Proof.
  intros csvText row h. unfold parseCsv.
  destruct (split newline csvText) as [|first rest]; simpl.
  - intros Hin. apply elem_of_nil in Hin. contradiction.
  - intros Hin. apply list_elem_of_omap in Hin as (line & _ & Hline).
    unfold parseLine in Hline. case_bool_decide; [discriminate|].
    injection Hline as <-. rewrite fillRow_is_Some, lookup_empty.
    split; [intros [Hh|[x Hx]]; [exact Hh|discriminate]|auto].
Qed.

Lemma X6_parseCsv_rows_have_header_keys_witness :
  Scenarios.csvRow "2025-10-01" ∈ snd (parseCsv MoreScenarios.templateText)
  ∧ (is_Some (Scenarios.csvRow "2025-10-01" !! "lat")
     ↔ "lat" ∈ fst (parseCsv MoreScenarios.templateText) ∧ "lat" ≠ "__proto__").
Proof.
  assert (Hin : Scenarios.csvRow "2025-10-01"
                ∈ snd (parseCsv MoreScenarios.templateText)).
  { vm_compute. apply list_elem_of_here. }
  split; [exact Hin|].
  exact (X6_parseCsv_rows_have_header_keys MoreScenarios.templateText
           (Scenarios.csvRow "2025-10-01") "lat" Hin).
Defined.

(** X7: when the headers of the file are distinct, the cell of a row under
    the header at position [i], unless that header is [__proto__], is the
    trimmed [i]-th field of a non-blank data line, and the empty string when
    that line has fewer fields. *)
Theorem X7_parseCsv_cells :
  ∀ csvText (row : gmap string string),
    NoDup (fst (parseCsv csvText)) →
    row ∈ snd (parseCsv csvText) →
    ∃ line,
      line ∈ tail (split newline csvText)
      ∧ Temporal.trim line ≠ ""
      ∧ ∀ i h,
          fst (parseCsv csvText) !! i = Some h →
          h ≠ "__proto__" →
          row !! h
          = Some (default ""
                    (map Temporal.trim (split comma (Temporal.trim line)) !! i)).
Proof.
  intros csvText row. unfold parseCsv.
  destruct (split newline csvText) as [|first rest]; simpl.
  - intros _ Hin. apply elem_of_nil in Hin. contradiction.
  - intros Hnodup Hin. apply list_elem_of_omap in Hin as (line & Hline & Hparse).
    exists line. split; [exact Hline|].
    unfold parseLine in Hparse. case_bool_decide as Hblank; [discriminate|].
    injection Hparse as <-. split; [exact Hblank|].
    intros i h Hlook Hproto.
    rewrite (fillRow_lookup _ 0 _ _ i h Hnodup Hlook Hproto). reflexivity.
Qed.

Lemma X7_parseCsv_cells_witness :
  NoDup (fst (parseCsv MoreScenarios.templateText))
  ∧ Scenarios.csvRow "2025-10-01" ∈ snd (parseCsv MoreScenarios.templateText)
  ∧ ∃ line,
      line ∈ tail (split newline MoreScenarios.templateText)
      ∧ Temporal.trim line ≠ ""
      ∧ ∀ i h,
          fst (parseCsv MoreScenarios.templateText) !! i = Some h →
          h ≠ "__proto__" →
          Scenarios.csvRow "2025-10-01" !! h
          = Some (default ""
                    (map Temporal.trim (split comma (Temporal.trim line)) !! i)).
Proof.
  assert (Hnodup : NoDup (fst (parseCsv MoreScenarios.templateText))).
  { apply (bool_decide_eq_true_1 _). vm_compute. reflexivity. }
  assert (Hin : Scenarios.csvRow "2025-10-01"
                ∈ snd (parseCsv MoreScenarios.templateText)).
  { vm_compute. apply list_elem_of_here. }
  split; [exact Hnodup|]. split; [exact Hin|].
  exact (X7_parseCsv_cells MoreScenarios.templateText
           (Scenarios.csvRow "2025-10-01") Hnodup Hin).
Defined.

End CsvReading.

(** ** The batch validation: which lines are valid *)

Section BatchValidationFacts.
Import JsNumber Batch.

Variable parseFloat : string → num.
Variable toFixedText : num → string.
Variable parseDate : string → option Z.
Variable now ninetyDaysAgo : nat → Z.
Variable columnMapping : gmap string string.
Variable currentUserId : option string.

Local Abbreviation mappedRow := (mappedRow columnMapping).
Local Abbreviation requiredFieldErrors := (requiredFieldErrors columnMapping).
Local Abbreviation validateCoordinates :=
  (validateCoordinates parseFloat toFixedText columnMapping currentUserId).
Local Abbreviation validateDate :=
  (validateDate parseDate now ninetyDaysAgo columnMapping).
Local Abbreviation validateRow :=
  (validateRow parseFloat toFixedText parseDate now ninetyDaysAgo columnMapping
     currentUserId).
Local Abbreviation validateRows :=
  (validateRows parseFloat toFixedText parseDate now ninetyDaysAgo columnMapping
     currentUserId).


Lemma noErrorsForRow_fresh rowIndex errors :
  Forall (λ e, row_index e < rowIndex + 2) errors →
  noErrorsForRow rowIndex errors = true.
Proof.
  intros Hfresh. unfold noErrorsForRow. apply bool_decide_eq_true_2.
  induction Hfresh as [|e errors He _ IH]; [reflexivity|].
  rewrite filter_cons. destruct (decide (row_index e = rowIndex + 2)); [lia|exact IH].
Qed.


Lemma requiredFieldErrors_present rowIndex row :
  present (mappedRow row "species_name") = true →
  present (mappedRow row "observation_timestamp") = true →
  present (mappedRow row "latitude") = true →
  present (mappedRow row "longitude") = true →
  requiredFieldErrors rowIndex row = [].
Proof.
  intros H1 H2 H3 H4. unfold Batch.requiredFieldErrors, requiredFields. simpl.
  rewrite H1, H2, H3, H4. reflexivity.
Qed.

Lemma requiredFieldErrors_index rowIndex row e :
  e ∈ requiredFieldErrors rowIndex row → row_index e = rowIndex + 2.
Proof.
  unfold Batch.requiredFieldErrors. intros He.
  apply list_elem_of_omap in He as (f & _ & Hf).
  destruct (present _); [discriminate|]. injection Hf as <-. reflexivity.
Qed.


Lemma within_num (q : Qc) (lo hi : Z) :
  (Qc_of_Z lo ≤ q)%Qc → (q ≤ Qc_of_Z hi)%Qc →
  ltb (Fin q) (ofZ lo) || ltb (ofZ hi) (Fin q) = false.
Proof.
  intros Hlo Hhi. simpl.
  rewrite !bool_decide_eq_false_2; [reflexivity| |]; apply Qcle_not_lt; assumption.
Qed.


Lemma validateCoordinates_pushes rowIndex row errors validRows (a b : Qc) :
  noErrorsForRow rowIndex errors = true →
  present (mappedRow row "latitude") = true →
  present (mappedRow row "longitude") = true →
  parseFloat (orEmpty (mappedRow row "latitude")) = Fin a →
  parseFloat (orEmpty (mappedRow row "longitude")) = Fin b →
  (Qc_of_Z (-90) ≤ a)%Qc → (a ≤ Qc_of_Z 90)%Qc →
  (Qc_of_Z (-180) ≤ b)%Qc → (b ≤ Qc_of_Z 180)%Qc →
  validateCoordinates rowIndex row errors validRows
  = (errors,
     validRows ++ [{| user_id := orEmpty currentUserId;
                      species_name := orEmpty (mappedRow row "species_name");
                      observation_timestamp :=
                        orEmpty (mappedRow row "observation_timestamp");
                      latitude := Fin a;
                      longitude := Fin b;
                      notes := orEmpty (mappedRow row "notes");
                      habitat_type := orEmpty (mappedRow row "habitat_type");
                      is_private := false |}]).
Proof.
  intros Hnone Hlat Hlng Ha Hb Ha1 Ha2 Hb1 Hb2.
  unfold Batch.validateCoordinates. rewrite Hlat, Hlng, Ha, Hb. simpl andb.
  cbn [isNaN orb]. rewrite (within_num a (-90) 90 Ha1 Ha2).
  rewrite (within_num b (-180) 180 Hb1 Hb2). rewrite Hnone. reflexivity.
Qed.

Lemma validateCoordinates_errors_index rowIndex row errors validRows e :
  e ∈ fst (validateCoordinates rowIndex row errors validRows) →
  e ∈ errors ∨ row_index e = rowIndex + 2.
Proof.
  unfold Batch.validateCoordinates.
  repeat (match goal with |- context [if ?b then _ else _] => destruct b end);
    simpl; rewrite ?elem_of_app, ?list_elem_of_singleton;
    intuition (subst; auto).
Qed.

Lemma validateDate_index rowIndex row e :
  e ∈ validateDate rowIndex row → row_index e = rowIndex + 2.
Proof.
  unfold Batch.validateDate.
  destruct (present _); [|intros H; apply elem_of_nil in H; contradiction].
  destruct (parseDate _) as [date|].
  - destruct (_ <? _)%Z; [|destruct (_ <? _)%Z];
      rewrite ?list_elem_of_singleton; try (intros ->; reflexivity).
    intros H. apply elem_of_nil in H. contradiction.
  - rewrite list_elem_of_singleton. intros ->. reflexivity.
Qed.

Lemma validateRow_errors_index rowIndex row errors validRows e :
  e ∈ fst (validateRow rowIndex row errors validRows) →
  e ∈ errors ∨ row_index e = rowIndex + 2.
Proof.
  unfold Batch.validateRow.
  pose proof (validateCoordinates_errors_index rowIndex row
                (errors ++ requiredFieldErrors rowIndex row) validRows e) as H.
  destruct (validateCoordinates _ _ _ _) as [errors2 validRows2]. simpl in *.
  rewrite elem_of_app. intros [He|He].
  - destruct (H He) as [Hin|Hidx]; [|auto].
    apply elem_of_app in Hin as [Hin|Hin]; [auto|].
    right. eapply requiredFieldErrors_index. exact Hin.
  - right. eapply validateDate_index. exact He.
Qed.

(** The issues reported for the lines from [rowIndex] on carry the numbers
    of those lines. *)
Lemma validateRows_errors_index csvData : ∀ rowIndex errors validRows e,
  e ∈ fst (validateRows rowIndex csvData errors validRows) →
  e ∈ errors
  ∨ (rowIndex + 2 ≤ row_index e ∧ row_index e < rowIndex + length csvData + 2).
Proof.
  induction csvData as [|row rest IH]; intros rowIndex errors validRows e He.
  - left. exact He.
  - simpl in He.
    pose proof (validateRow_errors_index rowIndex row errors validRows e) as Hrow.
    destruct (validateRow rowIndex row errors validRows) as [errors' validRows'].
    simpl in Hrow. apply IH in He as [He|He].
    + destruct (Hrow He) as [Hin|Hidx]; [auto|]. right. simpl. lia.
    + right. simpl. lia.
Qed.

Lemma validateRows_rows_kept csvData : ∀ rowIndex errors validRows obs,
  obs ∈ validRows → obs ∈ snd (validateRows rowIndex csvData errors validRows).
Proof.
  induction csvData as [|row rest IH]; intros rowIndex errors validRows obs Hin.
  - exact Hin.
  - simpl.
    pose proof (validateRow_rows parseFloat toFixedText parseDate now ninetyDaysAgo
                  columnMapping currentUserId rowIndex row errors validRows) as Hrow.
    destruct (validateRow rowIndex row errors validRows) as [errors' validRows'].
    simpl in Hrow. apply IH.
    destruct Hrow as [->|(added & -> & _)]; [exact Hin|].
    apply elem_of_app. auto.
Qed.



(** A line with its required cells and with coordinates inside the bounds
    is pushed, whatever its date, when no issue carries its number yet. *)
Lemma validateRow_pushes rowIndex row errors validRows (a b : Qc) :
  noErrorsForRow rowIndex errors = true →
  present (mappedRow row "species_name") = true →
  present (mappedRow row "observation_timestamp") = true →
  present (mappedRow row "latitude") = true →
  present (mappedRow row "longitude") = true →
  parseFloat (orEmpty (mappedRow row "latitude")) = Fin a →
  parseFloat (orEmpty (mappedRow row "longitude")) = Fin b →
  (Qc_of_Z (-90) ≤ a)%Qc → (a ≤ Qc_of_Z 90)%Qc →
  (Qc_of_Z (-180) ≤ b)%Qc → (b ≤ Qc_of_Z 180)%Qc →
  snd (validateRow rowIndex row errors validRows)
  = validRows ++ [BatchRows.observationOf columnMapping currentUserId row a b].
Proof.
  intros Hnone H1 H2 H3 H4 Ha Hb Ha1 Ha2 Hb1 Hb2. unfold Batch.validateRow.
  rewrite (requiredFieldErrors_present rowIndex row H1 H2 H3 H4), app_nil_r.
  rewrite (validateCoordinates_pushes rowIndex row errors validRows a b
             Hnone H3 H4 Ha Hb Ha1 Ha2 Hb1 Hb2).
  reflexivity.
Qed.

Lemma validateRows_pushes csvData : ∀ rowIndex errors validRows offset row (a b : Qc),
  Forall (λ e, row_index e < rowIndex + 2) errors →
  csvData !! offset = Some row →
  present (mappedRow row "species_name") = true →
  present (mappedRow row "observation_timestamp") = true →
  present (mappedRow row "latitude") = true →
  present (mappedRow row "longitude") = true →
  parseFloat (orEmpty (mappedRow row "latitude")) = Fin a →
  parseFloat (orEmpty (mappedRow row "longitude")) = Fin b →
  (Qc_of_Z (-90) ≤ a)%Qc → (a ≤ Qc_of_Z 90)%Qc →
  (Qc_of_Z (-180) ≤ b)%Qc → (b ≤ Qc_of_Z 180)%Qc →
  BatchRows.observationOf columnMapping currentUserId row a b
  ∈ snd (validateRows rowIndex csvData errors validRows).
Proof.
  induction csvData as [|first rest IH];
    intros rowIndex errors validRows offset row a b Hfresh Hlook
      H1 H2 H3 H4 Ha Hb Ha1 Ha2 Hb1 Hb2; [discriminate|].
  simpl.
  pose proof (validateRow_errors_index rowIndex first errors validRows) as Hidx.
  destruct offset as [|offset]; simpl in Hlook.
  - injection Hlook as ->.
    pose proof (validateRow_pushes rowIndex row errors validRows a b
                  (noErrorsForRow_fresh rowIndex errors Hfresh)
                  H1 H2 H3 H4 Ha Hb Ha1 Ha2 Hb1 Hb2) as Hpush.
    destruct (validateRow rowIndex row errors validRows) as [errors' validRows'].
    simpl in Hpush. subst validRows'.
    apply validateRows_rows_kept, elem_of_app. right. apply list_elem_of_here.
  - destruct (validateRow rowIndex first errors validRows) as [errors' validRows'].
    simpl in Hidx.
    apply (IH (S rowIndex) errors' validRows' offset row a b); try assumption.
    apply Forall_forall. intros e He.
    destruct (Hidx e He) as [Hin|Heq]; [|lia].
    rewrite Forall_forall in Hfresh. specialize (Hfresh e Hin). lia.
Qed.

End BatchValidationFacts.

Section BatchValidationExtras.
Import JsNumber Batch Scenarios.



(** X9: a line whose four required cells are present and whose coordinates
    parse to numbers inside the bounds is always among the valid rows,
    whatever its date cell holds: the date check runs after the row has been
    added and does not take it back. *)
Theorem X9_well_formed_line_is_valid_whatever_its_date :
  ∀ parseFloat toFixedText parseDate now ninetyDaysAgo
    columnMapping currentUserId csvData position row (a b : Qc),
    columnMapping ≠ ∅ →
    csvData !! position = Some row →
    present (mappedRow columnMapping row "species_name") = true →
    present (mappedRow columnMapping row "observation_timestamp") = true →
    present (mappedRow columnMapping row "latitude") = true →
    present (mappedRow columnMapping row "longitude") = true →
    parseFloat (orEmpty (mappedRow columnMapping row "latitude")) = Fin a →
    parseFloat (orEmpty (mappedRow columnMapping row "longitude")) = Fin b →
    (Qc_of_Z (-90) ≤ a)%Qc → (a ≤ Qc_of_Z 90)%Qc →
    (Qc_of_Z (-180) ≤ b)%Qc → (b ≤ Qc_of_Z 180)%Qc →
    BatchRows.observationOf columnMapping currentUserId row a b
    ∈ valid_rows
        (validateAndTransform parseFloat toFixedText parseDate now ninetyDaysAgo
           true columnMapping currentUserId csvData).
Proof.
  intros parseFloat toFixedText parseDate now ninetyDaysAgo columnMapping
    currentUserId csvData position row a b Hmap Hrow H1 H2 H3 H4 Ha Hb
    Ha1 Ha2 Hb1 Hb2.
  unfold validateAndTransform.
  assert (Hlen : length csvData ≠ 0).
  { intros Hlen. apply nil_length_inv in Hlen. subst csvData.
    rewrite lookup_nil in Hrow. discriminate. }
  rewrite (bool_decide_eq_false_2 _ Hlen), (bool_decide_eq_false_2 _ Hmap). simpl.
  pose proof (validateRows_pushes parseFloat toFixedText parseDate now
                ninetyDaysAgo columnMapping currentUserId csvData 0 [] []
                position row a b (List.Forall_nil _) Hrow H1 H2 H3 H4 Ha Hb
                Ha1 Ha2 Hb1 Hb2) as Hpush.
  destruct (validateRows _ _ _ _ _ _ _ _ _ _ _) as [errors validRows].
  exact Hpush.
Qed.

Lemma X9_well_formed_line_is_valid_whatever_its_date_witness :
  BatchRows.observationOf mapping (Some "user-1") (csvRow "2031-01-01")
    (Binary64.round (Qc_of_Z 377749 / Qc_of_Z 10000))
    (Binary64.round (Qc_of_Z (-1224194) / Qc_of_Z 10000))
  ∈ valid_rows (validateScenario [csvRow "2031-01-01"]).
Proof.
  apply (X9_well_formed_line_is_valid_whatever_its_date parseFloatOf toFixedTextOf
           parseDateOf clock clockMinus90Days mapping (Some "user-1")
           [csvRow "2031-01-01"] 0 (csvRow "2031-01-01")
           (Binary64.round (Qc_of_Z 377749 / Qc_of_Z 10000))
    (Binary64.round (Qc_of_Z (-1224194) / Qc_of_Z 10000))).
  - intros H. apply (f_equal (λ m, m !! "latitude")) in H. vm_compute in H. discriminate.
  - reflexivity.
  - vm_compute. reflexivity.
  - vm_compute. reflexivity.
  - vm_compute. reflexivity.
  - vm_compute. reflexivity.
  - vm_compute. reflexivity.
  - vm_compute. reflexivity.
  - apply (bool_decide_eq_true_1 _). vm_compute. reflexivity.
  - apply (bool_decide_eq_true_1 _). vm_compute. reflexivity.
  - apply (bool_decide_eq_true_1 _). vm_compute. reflexivity.
  - apply (bool_decide_eq_true_1 _). vm_compute. reflexivity.
Defined.

(** X10: every issue the batch validation reports carries the number of a
    data line of the file, counted from 2 for the first line after the
    header: the numbers lie between 2 and the number of rows plus 1. *)
Theorem X10_issues_point_at_lines_of_the_file :
  ∀ parseFloat toFixedText parseDate now ninetyDaysAgo fileSelected
    columnMapping currentUserId csvData e,
    e ∈ validation_errors
          (validateAndTransform parseFloat toFixedText parseDate now
             ninetyDaysAgo fileSelected columnMapping currentUserId csvData) →
    2 ≤ row_index e ≤ length csvData + 1.
Proof.
  intros parseFloat toFixedText parseDate now ninetyDaysAgo fileSelected
    columnMapping currentUserId csvData e.
  unfold validateAndTransform.
  destruct (negb fileSelected || bool_decide (length csvData = 0)
            || bool_decide (columnMapping = ∅)); simpl.
  - intros Hin. apply elem_of_nil in Hin. contradiction.
  - pose proof (validateRows_errors_index parseFloat toFixedText parseDate now
                  ninetyDaysAgo columnMapping currentUserId csvData 0 [] [] e)
      as Hidx.
    destruct (validateRows _ _ _ _ _ _ _ _ _ _ _) as [errors validRows]. simpl in *.
    intros Hin. destruct (Hidx Hin) as [Hnil|Hrange]; [|lia].
    apply elem_of_nil in Hnil. contradiction.
Qed.

Lemma X10_issues_point_at_lines_of_the_file_witness :
  issue 0 "observation_timestamp" "Observation date cannot be in the future"
    error None
  ∈ validation_errors (validateScenario [csvRow "2031-01-01"])
  ∧ 2 ≤ row_index (issue 0 "observation_timestamp"
                     "Observation date cannot be in the future" error None)
      ≤ length [csvRow "2031-01-01"] + 1.
Proof.
  assert (Hin : issue 0 "observation_timestamp"
                  "Observation date cannot be in the future" error None
                ∈ validation_errors (validateScenario [csvRow "2031-01-01"])).
  { vm_compute. apply list_elem_of_here. }
  split; [exact Hin|].
  exact (X10_issues_point_at_lines_of_the_file parseFloatOf toFixedTextOf
           parseDateOf clock clockMinus90Days true mapping (Some "user-1")
           [csvRow "2031-01-01"] _ Hin).
Defined.

End BatchValidationExtras.

(** ** The batch submission screen: columns, uploads and submissions *)

Section CsvScreenFacts.
Import JsNumber Batch CsvImport CsvImportFlow.

Variable parseFloat : string → num.
Variable toFixedText : num → string.
Variable parseDate : string → option Z.
Variable toLowerCase : string → string.
Variable currentUserId : option string.

Lemma findIndex_map_Some (p : string → bool) (f : string → string) l : ∀ index,
  findIndex p (map f l) = Some index →
  ∃ h, l !! index = Some h ∧ p (f h) = true.
Proof.
  induction l as [|x rest IH]; intros index; simpl; [discriminate|].
  destruct (p (f x)) eqn:Hp.
  - intros [= <-]. exists x. auto.
  - destruct (findIndex p (map f rest)) as [i|] eqn:Hfind; [|discriminate].
    simpl. intros [= <-]. apply (IH i eq_refl).
Qed.

Lemma findIndex_first (p : string → bool) l : ∀ index,
  findIndex p l = Some index →
  ∀ j x, (j < index)%nat → l !! j = Some x → p x = false.
Proof.
  induction l as [|y rest IH]; intros index; simpl; [discriminate|].
  destruct (p y) eqn:Hp.
  - intros [= <-] j x Hj. lia.
  - destruct (findIndex p rest) as [i|] eqn:Hfind; [|discriminate].
    simpl. intros [= <-] j x Hj. destruct j as [|j]; simpl.
    + intros [= <-]. exact Hp.
    + apply (IH i eq_refl). lia.
Qed.

(** The header that [detect] returns is the first one whose lower-case form
    contains a keyword. *)
Lemma detect_first keywords headers header :
  detect toLowerCase keywords headers = Some header →
  ∃ index,
    headers !! index = Some header
    ∧ ∀ j h keyword,
        (j < index)%nat → headers !! j = Some h → keyword ∈ keywords →
        Temporal.includes keyword (toLowerCase h) = false.
Proof.
  unfold detect.
  destruct (findIndex _ (map toLowerCase headers)) as [index|] eqn:Hfind;
    [|discriminate].
  simpl. intros Hlook. exists index. split; [exact Hlook|].
  intros j h keyword Hj Hh Hkey.
  pose proof (findIndex_first _ _ index Hfind j (toLowerCase h) Hj) as Hnone.
  rewrite list_lookup_fmap, Hh in Hnone. specialize (Hnone eq_refl).
  destruct (Temporal.includes keyword (toLowerCase h)) eqn:Hinc; [|reflexivity].
  assert (Hex : existsb (λ k, Temporal.includes k (toLowerCase h)) keywords = true).
  { apply existsb_exists. exists keyword.
    split; [apply list_elem_of_In; exact Hkey|exact Hinc]. }
  rewrite Hex in Hnone. discriminate.
Qed.

Lemma detect_Some keywords headers header :
  detect toLowerCase keywords headers = Some header →
  header ∈ headers
  ∧ ∃ keyword, keyword ∈ keywords
               ∧ Temporal.includes keyword (toLowerCase header) = true.
Proof.
  unfold detect.
  destruct (findIndex _ (map toLowerCase headers)) as [index|] eqn:Hfind;
    [|discriminate].
  simpl. intros Hlook.
  apply findIndex_map_Some in Hfind as (h & Hh & Hp).
  rewrite Hh in Hlook. injection Hlook as <-.
  split; [eapply list_elem_of_lookup_2; exact Hh|].
  apply existsb_exists in Hp as (keyword & Hin & Hinc).
  exists keyword. split; [apply list_elem_of_In; exact Hin|exact Hinc].
Qed.

Lemma detectInto_Some f keywords headers (mapping : gmap string string) field header :
  detectInto toLowerCase f keywords headers mapping !! field = Some header →
  (field = f ∧ detect toLowerCase keywords headers = Some header)
  ∨ mapping !! field = Some header.
Proof.
  unfold detectInto. destruct (detect toLowerCase keywords headers) as [h|] eqn:Hd;
    [|auto].
  destruct (decide (f = field)) as [->|Hne].
  - rewrite lookup_insert_eq. intros [= <-]. auto.
  - rewrite lookup_insert_ne by exact Hne. auto.
Qed.

Lemma valid_rows_public now ninetyDaysAgo fileSelected mapping csvData obs :
  obs ∈ valid_rows (validateAndTransform parseFloat toFixedText parseDate now
                      ninetyDaysAgo fileSelected mapping currentUserId csvData) →
  is_private obs = false.
Proof.
  unfold validateAndTransform.
  destruct (negb fileSelected || _ || _); simpl.
  - intros Hin. apply elem_of_nil in Hin. contradiction.
  - pose proof (validateRows_rows parseFloat toFixedText parseDate now ninetyDaysAgo
                  mapping currentUserId csvData 0 [] [] obs) as Hrows.
    destruct (Batch.validateRows _ _ _ _ _ _ _ _ _ _ _) as [errors validRows].
    simpl in *. intros Hin.
    destruct (Hrows Hin) as [Hnil|(row & _ & Hpriv & _)]; [|exact Hpriv].
    apply elem_of_nil in Hnil. contradiction.
Qed.

(** Whatever the screen holds as valid observations is not private. *)
Lemma reachable_observations_public st :
  reachable parseFloat toFixedText parseDate toLowerCase currentUserId st →
  ∀ obs, obs ∈ validObservations st → is_private obs = false.
Proof.
  induction 1 as [|st fileName csvText now n90 _ IH|st csvHeader field now n90 _ IH
                 |st vr ir _ IH|st _ IH]; intros obs Hin.
  - apply elem_of_nil in Hin. contradiction.
  - unfold handleFileUpload in Hin. destruct (parseCsv csvText) as [hs rows].
    simpl in Hin. eapply valid_rows_public. exact Hin.
  - unfold handleColumnMappingChange in Hin. simpl in Hin.
    destruct (_ && _); [eapply valid_rows_public; exact Hin|auto].
  - unfold submitBatch in Hin.
    repeat (match type of Hin with
            | context [if ?b then _ else _] => destruct b
            | context [match ?r with Answered _ => _ | Failed _ => _ end] => destruct r
            end; simpl in Hin);
      try (apply elem_of_nil in Hin; contradiction); auto.
  - apply elem_of_nil in Hin. contradiction.
Qed.

End CsvScreenFacts.

Section CsvScreenExtras.
Import JsNumber Batch CsvImport CsvImportFlow MoreScenarios.

(** X11: the automatic column detection only ever fills the six known
    fields, and each with what [detect] finds for the keywords of that
    field: the first header of the file whose lower-case form contains one
    of them. *)
Theorem X11_autoDetectColumns_maps_known_fields_to_headers :
  ∀ toLowerCase headers field header,
    autoDetectColumns toLowerCase headers !! field = Some header →
    ∃ keywords,
      (field, keywords) ∈ fieldKeywords
      ∧ detect toLowerCase keywords headers = Some header
      ∧ header ∈ headers
      ∧ (∃ keyword, keyword ∈ keywords
                    ∧ Temporal.includes keyword (toLowerCase header) = true)
      ∧ ∃ index,
          headers !! index = Some header
          ∧ ∀ j h keyword,
              (j < index)%nat → headers !! j = Some h → keyword ∈ keywords →
              Temporal.includes keyword (toLowerCase h) = false.
Proof.
  intros toLowerCase headers field header. unfold autoDetectColumns. intros H.
  repeat (apply detectInto_Some in H as [[-> H]|H];
          [match type of H with detect _ ?keywords _ = _ => exists keywords end;
           split; [unfold fieldKeywords; set_solver|];
           split; [exact H|];
           pose proof (detect_first _ _ _ _ H) as Hfirst;
           apply detect_Some in H as (Hin & Hkeyword);
           split; [exact Hin|]; split; [exact Hkeyword|exact Hfirst]|]).
  rewrite lookup_empty in H. discriminate.
Qed.

Lemma X11_autoDetectColumns_maps_known_fields_to_headers_witness :
  autoDetectColumns asciiLower ["species"; "lat"; "lng"; "date"] !! "latitude"
  = Some "lat"
  ∧ ∃ keywords,
      ("latitude", keywords) ∈ fieldKeywords
      ∧ detect asciiLower keywords ["species"; "lat"; "lng"; "date"] = Some "lat"
      ∧ "lat" ∈ ["species"; "lat"; "lng"; "date"]
      ∧ (∃ keyword, keyword ∈ keywords
                    ∧ Temporal.includes keyword (asciiLower "lat") = true)
      ∧ ∃ index,
          ["species"; "lat"; "lng"; "date"] !! index = Some "lat"
          ∧ ∀ j h keyword,
              (j < index)%nat → ["species"; "lat"; "lng"; "date"] !! j = Some h →
              keyword ∈ keywords →
              Temporal.includes keyword (asciiLower h) = false.
Proof.
  assert (H : autoDetectColumns asciiLower ["species"; "lat"; "lng"; "date"]
              !! "latitude" = Some "lat") by (vm_compute; reflexivity).
  split; [exact H|].
  exact (X11_autoDetectColumns_maps_known_fields_to_headers asciiLower
           ["species"; "lat"; "lng"; "date"] "latitude" "lat" H).
Defined.

(** X12: a file uploaded while no file was loaded is validated against the
    empty state the handler still sees: whatever the file contains, no row
    is shown as valid and no issue is reported, the submit button stays
    disabled, and [submitBatch] sends nothing. *)
Theorem X12_first_upload_validates_nothing :
  ∀ parseFloat toFixedText parseDate toLowerCase currentUserId
    fileName csvText now ninetyDaysAgo validateReply importReply st,
    file st = None →
    let st' := handleFileUpload parseFloat toFixedText parseDate toLowerCase
                 currentUserId fileName csvText now ninetyDaysAgo st in
    validObservations st' = []
    ∧ validationErrors st' = []
    ∧ csvData st' = snd (parseCsv csvText)
    ∧ submitDisabled st' = true
    ∧ snd (submitBatch validateReply importReply st') = [].
Proof.
  intros parseFloat toFixedText parseDate toLowerCase currentUserId
    fileName csvText now ninetyDaysAgo validateReply importReply st Hfile.
  cbv zeta. unfold handleFileUpload, validateOn, validateAndTransform.
  rewrite Hfile. destruct (parseCsv csvText) as [hs rows]. simpl.
  repeat split.
Qed.

Lemma X12_first_upload_validates_nothing_witness :
  validObservations uploaded = []
  ∧ validationErrors uploaded = []
  ∧ csvData uploaded = snd (parseCsv templateText)
  ∧ submitDisabled uploaded = true
  ∧ snd (submitBatch (Answered cleanValidation) (Answered importedOne) uploaded) = [].
Proof.
  exact (X12_first_upload_validates_nothing Scenarios.parseFloatOf
           Scenarios.toFixedTextOf Scenarios.parseDateOf asciiLower (Some "user-1")
           "survey.csv" templateText Scenarios.clock Scenarios.clockMinus90Days
           (Answered cleanValidation) (Answered importedOne) initialScreen eq_refl).
Defined.

(** X13: after an upload, changing the mapping of a column re-validates
    the rows of the uploaded file under the automatically detected mapping:
    the rows shown as valid do not depend on the change just made, which only
    enters the stored mapping. *)
Theorem X13_mapping_change_validates_with_previous_mapping :
  ∀ parseFloat toFixedText parseDate toLowerCase currentUserId
    fileName csvText csvHeader field now1 ninetyDaysAgo1 now2 ninetyDaysAgo2 st,
    snd (parseCsv csvText) ≠ [] →
    let st' :=
      handleColumnMappingChange parseFloat toFixedText parseDate currentUserId
        csvHeader field now2 ninetyDaysAgo2
        (handleFileUpload parseFloat toFixedText parseDate toLowerCase
           currentUserId fileName csvText now1 ninetyDaysAgo1 st) in
    validObservations st'
    = valid_rows
        (validateAndTransform parseFloat toFixedText parseDate now2 ninetyDaysAgo2
           true (autoDetectColumns toLowerCase (fst (parseCsv csvText)))
           currentUserId (snd (parseCsv csvText)))
    ∧ columnMapping st'
      = <[field := csvHeader]> (autoDetectColumns toLowerCase (fst (parseCsv csvText))).
Proof.
  intros parseFloat toFixedText parseDate toLowerCase currentUserId
    fileName csvText csvHeader field now1 n1 now2 n2 st Hrows.
  cbv zeta. unfold handleColumnMappingChange, handleFileUpload, validateOn.
  destruct (parseCsv csvText) as [hs rows]. simpl in *.
  assert (Hlen : length rows ≠ 0).
  { intros Hlen. apply nil_length_inv in Hlen. contradiction. }
  rewrite (bool_decide_eq_false_2 _ Hlen). simpl. split; reflexivity.
Qed.

Lemma X13_mapping_change_validates_with_previous_mapping_witness :
  snd (parseCsv templateText) ≠ []
  ∧ validObservations remapped
    = valid_rows
        (validateAndTransform Scenarios.parseFloatOf Scenarios.toFixedTextOf
           Scenarios.parseDateOf Scenarios.clock Scenarios.clockMinus90Days
           true (autoDetectColumns asciiLower (fst (parseCsv templateText)))
           (Some "user-1") (snd (parseCsv templateText)))
  ∧ columnMapping remapped
    = <["observation_timestamp" := "date"]>
        (autoDetectColumns asciiLower (fst (parseCsv templateText))).
Proof.
  assert (Hrows : snd (parseCsv templateText) ≠ []) by (vm_compute; discriminate).
  split; [exact Hrows|].
  exact (X13_mapping_change_validates_with_previous_mapping Scenarios.parseFloatOf
           Scenarios.toFixedTextOf Scenarios.parseDateOf asciiLower (Some "user-1")
           "survey.csv" templateText "date" "observation_timestamp"
           Scenarios.clock Scenarios.clockMinus90Days
           Scenarios.clock Scenarios.clockMinus90Days initialScreen Hrows).
Defined.

(** X14: [submitBatch] posts the batch for import only after the server's
    validation of that same batch came back without an error-severity
    issue; the observations imported are the screen's valid observations,
    exactly as they were sent for validation. *)
Theorem X14_import_only_after_clean_validation :
  ∀ validateReply importReply st observations,
    PostImport observations ∈ snd (submitBatch validateReply importReply st) →
    observations = validObservations st
    ∧ observations ≠ []
    ∧ snd (submitBatch validateReply importReply st)
      = [PostValidate observations; PostImport observations]
    ∧ ∃ validation,
        validateReply = Answered validation
        ∧ ∀ e, e ∈ validation_errors validation → severity e = warning.
Proof.
  intros validateReply importReply st observations. unfold submitBatch.
  case_bool_decide as Hempty; simpl.
  { intros Hin. apply elem_of_nil in Hin. contradiction. }
  assert (Hne : validObservations st ≠ []).
  { intros Hnil. rewrite Hnil in Hempty. contradiction. }
  destruct validateReply as [validation|message]; simpl.
  - case_bool_decide as Hcritical; simpl.
    + assert (Hclean : ∀ e, e ∈ validation_errors validation → severity e = warning).
      { intros e He. destruct (severity e) eqn:Hsev; [|reflexivity]. exfalso.
        assert (Hin : e ∈ filter (λ e, isError e = true) (validation_errors validation)).
        { apply list_elem_of_filter. split; [|exact He]. unfold isError.
          rewrite Hsev. reflexivity. }
        destruct (filter _ (validation_errors validation));
          [apply elem_of_nil in Hin; contradiction|discriminate]. }
      destruct importReply as [result|message]; simpl; intros Hin;
        apply elem_of_cons in Hin as [Hin|Hin]; try discriminate;
        apply list_elem_of_singleton in Hin; injection Hin as ->; eauto 10.
    + intros Hin. apply list_elem_of_singleton in Hin. discriminate.
  - intros Hin. apply list_elem_of_singleton in Hin. discriminate.
Qed.

Lemma X14_import_only_after_clean_validation_witness :
  PostImport (validObservations remapped)
  ∈ snd (submitBatch (Answered cleanValidation) (Answered importedOne) remapped)
  ∧ validObservations remapped = validObservations remapped
  ∧ validObservations remapped ≠ []
  ∧ snd (submitBatch (Answered cleanValidation) (Answered importedOne) remapped)
    = [PostValidate (validObservations remapped);
       PostImport (validObservations remapped)]
  ∧ ∃ validation,
      Answered cleanValidation = Answered validation
      ∧ ∀ e, e ∈ validation_errors validation → severity e = warning.
Proof.
  assert (Hin : PostImport (validObservations remapped)
                ∈ snd (submitBatch (Answered cleanValidation) (Answered importedOne)
                         remapped)).
  { vm_compute. apply list_elem_of_further, list_elem_of_here. }
  split; [exact Hin|].
  exact (X14_import_only_after_clean_validation (Answered cleanValidation)
           (Answered importedOne) remapped _ Hin).
Defined.

(** X15: when the import answers with a success count above 0,
    [submitBatch] leaves the screen in its initial state: file, rows,
    mapping and lists are cleared and so is the submission result just
    received; with a success count of 0 the result is kept and shown. *)
Theorem X15_successful_import_resets_the_screen :
  ∀ validation result st,
    validObservations st ≠ [] →
    (∀ e, e ∈ validation_errors validation → severity e = warning) →
    ((0 < success_count result)%Z →
       fst (submitBatch (Answered validation) (Answered result) st) = initialScreen)
    ∧ ((success_count result ≤ 0)%Z →
         submissionResult (fst (submitBatch (Answered validation) (Answered result) st))
         = Some result
         ∧ validObservations
             (fst (submitBatch (Answered validation) (Answered result) st))
           = validObservations st).
Proof.
  intros validation result st Hne Hclean. unfold submitBatch.
  rewrite bool_decide_eq_false_2
    by (intros Hlen; apply nil_length_inv in Hlen; contradiction).
  assert (Hnone : filter (λ e, isError e = true) (validation_errors validation) = []).
  { apply filter_none. intros e He Herr. unfold isError in Herr.
    rewrite (Hclean e He) in Herr. discriminate. }
  rewrite Hnone. simpl. split.
  - intros Hpos. apply Z.ltb_lt in Hpos. rewrite Hpos. reflexivity.
  - intros Hzero. apply Z.ltb_ge in Hzero. rewrite Hzero. split; reflexivity.
Qed.

Lemma X15_successful_import_resets_the_screen_witness :
  validObservations remapped ≠ []
  ∧ fst (submitBatch (Answered cleanValidation) (Answered importedOne) remapped)
    = initialScreen.
Proof.
  assert (Hne : validObservations remapped ≠ []) by (vm_compute; discriminate).
  split; [exact Hne|].
  apply (X15_successful_import_resets_the_screen cleanValidation importedOne
           remapped Hne).
  - intros e He. apply elem_of_nil in He. contradiction.
  - reflexivity.
Defined.

(** X16: whatever files are uploaded, mappings changed, batches submitted
    and forms reset, every observation the screen posts to the server, for
    validation or for import, has [is_private = false]. *)
Theorem X16_posted_observations_are_never_private :
  ∀ parseFloat toFixedText parseDate toLowerCase currentUserId
    validateReply importReply st request obs,
    reachable parseFloat toFixedText parseDate toLowerCase currentUserId st →
    request ∈ snd (submitBatch validateReply importReply st) →
    obs ∈ match request with
          | PostValidate observations | PostImport observations => observations
          end →
    is_private obs = false.
Proof.
  intros parseFloat toFixedText parseDate toLowerCase currentUserId
    validateReply importReply st request obs Hreach Hreq Hobs.
  apply (reachable_observations_public parseFloat toFixedText parseDate toLowerCase
           currentUserId st Hreach).
  revert Hreq. unfold submitBatch.
  repeat (match goal with
          | |- context [if ?b then _ else _] => destruct b
          | |- context [match ?r with Answered _ => _ | Failed _ => _ end] => destruct r
          end; simpl);
    rewrite ?elem_of_cons, ?elem_of_nil; intros Hreq;
    repeat (destruct Hreq as [Hreq|Hreq]); try contradiction; subst request;
    exact Hobs.
Qed.

Lemma X16_posted_observations_are_never_private_witness :
  reachable Scenarios.parseFloatOf Scenarios.toFixedTextOf Scenarios.parseDateOf
    asciiLower (Some "user-1") remapped
  ∧ PostImport (validObservations remapped)
    ∈ snd (submitBatch (Answered cleanValidation) (Answered importedOne) remapped)
  ∧ Scenarios.importedRow "2025-10-01" ∈ validObservations remapped
  ∧ is_private (Scenarios.importedRow "2025-10-01") = false.
Proof.
  assert (Hreach : reachable Scenarios.parseFloatOf Scenarios.toFixedTextOf
                     Scenarios.parseDateOf asciiLower (Some "user-1") remapped)
    by apply reachable_mapping, reachable_upload, reachable_mount.
  assert (Hreq : PostImport (validObservations remapped)
                 ∈ snd (submitBatch (Answered cleanValidation) (Answered importedOne)
                          remapped)).
  { vm_compute. apply list_elem_of_further, list_elem_of_here. }
  assert (Hobs : Scenarios.importedRow "2025-10-01" ∈ validObservations remapped).
  { vm_compute. apply list_elem_of_here. }
  split; [exact Hreach|]. split; [exact Hreq|]. split; [exact Hobs|].
  exact (X16_posted_observations_are_never_private Scenarios.parseFloatOf
           Scenarios.toFixedTextOf Scenarios.parseDateOf asciiLower (Some "user-1")
           (Answered cleanValidation) (Answered importedOne) remapped
           (PostImport (validObservations remapped))
           (Scenarios.importedRow "2025-10-01") Hreach Hreq Hobs).
Defined.

End CsvScreenExtras.

(** ** The temporal validation screen: further properties *)

Section TemporalExtras.
Import Temporal TemporalFlow MoreScenarios.

(** X17: while the retrospective box is not ticked the justification text
    is empty: unticking discards what was typed, and a submission that is
    not retrospective sends an empty justification. *)
Theorem X17_not_retrospective_means_no_justification :
  ∀ st observation_id request,
    reachable st →
    isRetrospective st = false →
    justificationText st = ""
    ∧ (snd (handleSubmit observation_id st) = Some request →
       justification_text request = "").
Proof.
  intros st observation_id request Hreach.
  assert (Hempty : isRetrospective st = false → justificationText st = "").
  { induction Hreach as [ts retro|st today days _ IH|st reply _ IH
                        |st value _ IH Hretro|st checked _ IH|st date clear _ IH
                        |st oid _ IH|st failure _ IH]; try exact IH.
    - reflexivity.
    - unfold computeValidationWindow. destruct (days =? 0)%Z; exact IH.
    - unfold changeJustification. case_bool_decide; simpl; [|exact IH].
      intros Hfalse. rewrite Hretro in Hfalse. discriminate.
    - simpl. destruct checked; [discriminate|reflexivity].
    - unfold handleSubmit. case_bool_decide; [exact IH|].
      destruct (isRetrospective st && blank (justificationText st)); exact IH. }
  intros Hretro. split; [exact (Hempty Hretro)|].
  intros Hsent. apply handleSubmit_request in Hsent as [-> _]. simpl.
  exact (Hempty Hretro).
Qed.

Lemma X17_not_retrospective_means_no_justification_witness :
  let st := changeRetrospective false
              (changeJustification "seen at dawn" (initialState 20000 true)) in
  reachable st ∧ isRetrospective st = false
  ∧ justificationText st = ""
  ∧ (snd (handleSubmit (Some "obs-1") st) = Some {| justification_text := "" |} →
     justification_text {| justification_text := "" |} = "").
Proof.
  cbv zeta.
  assert (Hreach : reachable (changeRetrospective false
                                (changeJustification "seen at dawn"
                                   (initialState 20000 true)))).
  { apply reachable_retrospective, reachable_justification;
      [apply reachable_mount|reflexivity]. }
  split; [exact Hreach|]. split; [reflexivity|].
  exact (X17_not_retrospective_means_no_justification _ (Some "obs-1")
           {| justification_text := "" |} Hreach eq_refl).
Defined.

(** X18: whenever the submit button is enabled and the observation id is
    known, [handleSubmit] sends the request with the text of the textarea;
    the error asking for a justification can only come up while the button
    is disabled. *)
Theorem X18_enabled_button_submits :
  ∀ st observation_id,
    submitDisabled st = false →
    orText observation_id "" ≠ "" →
    snd (handleSubmit observation_id st)
    = Some {| justification_text := justificationText st |}
    ∧ isSubmitting (fst (handleSubmit observation_id st)) = true
    ∧ submitError (fst (handleSubmit observation_id st)) = None.
Proof.
  intros st observation_id Henabled Hid. unfold submitDisabled in Henabled.
  apply orb_false_elim in Henabled as [_ Hjust].
  unfold handleSubmit. rewrite (bool_decide_eq_false_2 _ Hid), Hjust.
  repeat split.
Qed.

Lemma X18_enabled_button_submits_witness :
  submitDisabled Scenarios.screenWithTomorrow = false
  ∧ orText (Some "obs-1") "" ≠ ""
  ∧ snd (handleSubmit (Some "obs-1") Scenarios.screenWithTomorrow)
    = Some {| justification_text := justificationText Scenarios.screenWithTomorrow |}
  ∧ isSubmitting (fst (handleSubmit (Some "obs-1") Scenarios.screenWithTomorrow))
    = true
  ∧ submitError (fst (handleSubmit (Some "obs-1") Scenarios.screenWithTomorrow))
    = None.
Proof.
  assert (Henabled : submitDisabled Scenarios.screenWithTomorrow = false)
    by (vm_compute; reflexivity).
  assert (Hid : orText (Some "obs-1") "" ≠ "") by (vm_compute; discriminate).
  split; [exact Henabled|]. split; [exact Hid|].
  exact (X18_enabled_button_submits Scenarios.screenWithTomorrow (Some "obs-1")
           Henabled Hid).
Defined.

(** X19: once a request has been sent the screen stays in the submitting
    state: nothing, not even the failure of the request, sets it back, so
    the submit button remains disabled from then on. *)
Theorem X19_submitting_is_never_cleared :
  ∀ st st',
    evolves st st' →
    isSubmitting st = true →
    isSubmitting st' = true ∧ submitDisabled st' = true.
Proof.
  intros st st' Hev Hsub.
  assert (Hkeep : isSubmitting st' = true).
  { induction Hev as [st|st st' today days _ IH|st st' reply _ IH
                     |st st' value _ IH _|st st' checked _ IH|st st' date clear _ IH
                     |st st' oid _ IH|st st' failure _ IH]; try exact (IH Hsub).
    - exact Hsub.
    - unfold computeValidationWindow. destruct (days =? 0)%Z; exact (IH Hsub).
    - unfold changeJustification. case_bool_decide; exact (IH Hsub).
    - unfold handleSubmit. case_bool_decide; [exact (IH Hsub)|].
      destruct (isRetrospective st' && blank (justificationText st'));
        [exact (IH Hsub)|reflexivity]. }
  split; [exact Hkeep|]. unfold submitDisabled. rewrite Hkeep. reflexivity.
Qed.

Lemma X19_submitting_is_never_cleared_witness :
  let sent := fst (handleSubmit (Some "obs-1") Scenarios.screenWithTomorrow) in
  let later := mutationSettled (Some "Failed to submit justification") sent in
  evolves sent later ∧ isSubmitting sent = true
  ∧ isSubmitting later = true ∧ submitDisabled later = true.
Proof.
  cbv zeta.
  assert (Hev : evolves
            (fst (handleSubmit (Some "obs-1") Scenarios.screenWithTomorrow))
            (mutationSettled (Some "Failed to submit justification")
               (fst (handleSubmit (Some "obs-1") Scenarios.screenWithTomorrow))))
    by apply evolves_settled, evolves_here.
  split; [exact Hev|]. split; [reflexivity|].
  exact (X19_submitting_is_never_cleared _ _ Hev eq_refl).
Defined.

(** X20: the audit trail is never empty: it has between one and three
    entries, and the last one is always the timestamp validation carrying
    the current validation message. *)
Theorem X20_audit_trail_ends_with_validation :
  ∀ toLocaleString activeSubmissionsData observation_id nowIso st,
    let entries :=
      getAuditTrailEntries toLocaleString activeSubmissionsData observation_id
        nowIso st in
    1 ≤ length entries ≤ 3
    ∧ last entries
      = Some {| entry_timestamp := nowIso;
                action := "Timestamp validation";
                details := validationMessage st |}.
Proof.
  intros toLocaleString activeSubmissionsData observation_id nowIso st. cbv zeta.
  unfold getAuditTrailEntries. rewrite last_snoc, length_app. simpl.
  split; [|reflexivity].
  destruct activeSubmissionsData as [submissions|]; [|simpl; lia].
  case_bool_decide; [simpl; lia|].
  destruct (List.find _ submissions) as [current|]; [|simpl; lia].
  unfold submissionEntries. destruct (last_modified current) as [modified|];
    [case_bool_decide|]; simpl; lia.
Qed.

End TemporalExtras.

(** ** The account routes *)

Section AccountsFacts.
Import Accounts.

Lemma lengthBetween_given (lo hi : nat) (s : string) :
  1 ≤ lo → lengthBetween lo hi s = true → given (Some s) = true.
Proof.
  intros Hlo Hlen. unfold lengthBetween in Hlen.
  apply andb_true_iff in Hlen as [Hlow _]. apply bool_decide_eq_true_1 in Hlow.
  unfold given. apply negb_true_iff, bool_decide_eq_false_2.
  intros ->. simpl in Hlow. lia.
Qed.

Lemma parseCreateUserInput_Some isEmail body email password fullName :
  parseCreateUserInput isEmail body = Some (email, password, fullName) →
  signup_email body = Some email ∧ signup_password body = Some password
  ∧ signup_full_name body = Some fullName
  ∧ given (Some email) = true ∧ given (Some password) = true.
Proof.
  unfold parseCreateUserInput.
  destruct (signup_email body) as [e|]; [|discriminate].
  destruct (signup_password body) as [p|]; [|discriminate].
  destruct (signup_full_name body) as [f|]; [|discriminate].
  destruct (_ && _) eqn:Hchecks; [|discriminate].
  intros [= -> -> ->].
  apply andb_true_iff in Hchecks as [Hchecks _].
  apply andb_true_iff in Hchecks as [Hchecks Hpassword].
  apply andb_true_iff in Hchecks as [_ Hemail].
  repeat split.
  - apply (lengthBetween_given 1 255); [lia|exact Hemail].
  - apply (lengthBetween_given 8 255); [lia|exact Hpassword].
Qed.

(** What a successful signup stored. *)
Lemma signup_SignedUp toLowerCase isEmail nodeEnv body userId nowText nowIso
    thrown users created users' :
  signup toLowerCase isEmail nodeEnv body userId nowText nowIso thrown users
  = (SignedUp created, users') →
  ∃ email password fullName,
    parseCreateUserInput isEmail body = Some (email, password, fullName)
    ∧ filter (λ u, idOf u = userId
                   ∨ emailOf u = Temporal.trim (toLowerCase email)) users = []
    ∧ created = {| new_id := userId;
                   new_email := Temporal.trim (toLowerCase email);
                   new_full_name := Temporal.trim fullName;
                   new_created_at := nowText |}
    ∧ users' = users ++ [ {| row := {| Server.id := userId;
                                       Server.email := Temporal.trim (toLowerCase email);
                                       Server.full_name := Temporal.trim fullName;
                                       Server.created_at := nowText;
                                       Server.updated_at := nowText |};
                             password_hash := password |} ].
Proof.
  unfold signup.
  destruct (parseCreateUserInput isEmail body) as [[[email password] fullName]|];
    [|discriminate].
  case_bool_decide; simpl; [|discriminate].
  case_bool_decide as Hfresh; simpl; [|discriminate].
  intros [= <- <-]. exists email, password, fullName. repeat split. exact Hfresh.
Qed.

Lemma filter_nil_not_elem {A} (P : A → Prop) `{∀ x, Decision (P x)} (l : list A) x :
  filter P l = [] → x ∈ l → ¬ P x.
Proof.
  intros Hnil Hin HP.
  assert (Hx : x ∈ filter P l) by (apply list_elem_of_filter; split; assumption).
  rewrite Hnil in Hx. inversion Hx.
Qed.

Lemma filter_nil_weaken {A} (P Q : A → Prop) `{∀ x, Decision (P x)}
    `{∀ x, Decision (Q x)} (l : list A) :
  (∀ x, Q x → P x) → filter P l = [] → filter Q l = [].
Proof.
  intros Himp Hnil. induction l as [|x l IH]; [reflexivity|].
  rewrite filter_cons in Hnil. destruct (decide (P x)) as [HP|HP]; [discriminate|].
  rewrite filter_cons. destruct (decide (Q x)) as [HQ|HQ]; [destruct (HP (Himp x HQ))|].
  exact (IH Hnil).
Qed.

Lemma applyUpdate_keeps user_id nowText body u :
  idOf (applyUpdate user_id nowText body u) = idOf u
  ∧ emailOf (applyUpdate user_id nowText body u) = emailOf u
  ∧ password_hash (applyUpdate user_id nowText body u) = password_hash u
  ∧ Server.created_at (row (applyUpdate user_id nowText body u))
    = Server.created_at (row u)
  ∧ (idOf u ≠ user_id → applyUpdate user_id nowText body u = u).
Proof.
  unfold applyUpdate. case_bool_decide as Hid; simpl.
  - repeat split. intros Hne. destruct (Hne Hid).
  - repeat split.
Qed.

Lemma updateUser_table nodeEnv authenticatedId user_id body nowText nowIso users :
  snd (updateUser nodeEnv authenticatedId user_id body nowText nowIso users) = users
  ∨ (authenticatedId = user_id
     ∧ snd (updateUser nodeEnv authenticatedId user_id body nowText nowIso users)
       = map (applyUpdate user_id nowText body) users).
Proof.
  unfold updateUser. case_bool_decide as Hown; simpl; [|left; reflexivity].
  destruct (hasAllowedField body); simpl; [|left; reflexivity].
  right. split; [exact Hown|].
  destruct (filter _ _); reflexivity.
Qed.

Lemma filter_map_row user_id (users : list StoredUser) :
  filter (λ u, Server.id u = user_id) (map row users)
  = map row (filter (λ u, idOf u = user_id) users).
Proof.
  induction users as [|u users IH]; [reflexivity|].
  cbn [map]. rewrite !filter_cons. unfold idOf at 1.
  destruct (decide (Server.id (row u) = user_id)); cbn [map]; rewrite IH; reflexivity.
Qed.

Lemma elem_of_take_drop {A} (l : list A) (n m : nat) (x : A) :
  x ∈ take n (drop m l) → x ∈ l.
Proof.
  intros Hx. apply (subseteq_drop m l), (subseteq_take n (drop m l)), Hx.
Qed.

Lemma matching_subset ilike search users u :
  u ∈ matching ilike search users → u ∈ users.
Proof.
  unfold matching. destruct (_ && _); [|tauto].
  intros Hu. apply list_elem_of_filter in Hu as [_ Hu]. exact Hu.
Qed.

Lemma matching_length ilike search users :
  length (matching ilike search users) ≤ length users.
Proof.
  unfold matching. destruct (_ && _); [apply length_filter|lia].
Qed.

Lemma parseSearchInput_Some parseInt q search l o sortBy sortOrder :
  parseSearchInput parseInt q = Some (search, l, o, sortBy, sortOrder) →
  1 ≤ l ∧ search = query q.
Proof.
  unfold parseSearchInput.
  destruct (intParam parseInt (limit q) 10) as [l'|]; [|discriminate].
  destruct (intParam parseInt (offset q) 0) as [o'|]; [|discriminate].
  destruct (_ && _) eqn:Hchecks; [|discriminate].
  intros [= <- <- <- <- <-].
  apply andb_true_iff in Hchecks as [Hchecks _].
  apply andb_true_iff in Hchecks as [Hchecks _].
  apply andb_true_iff in Hchecks as [Hl _].
  apply Z.ltb_lt in Hl. split; [lia|reflexivity].
Qed.

Lemma filter_fresh {A B} `{EqDecision B} (f : A → B) (l : list A) (b : B) :
  b ∉ map f l → filter (λ x, f x = b) l = [].
Proof.
  induction l as [|x l IH]; intros Hfresh; [reflexivity|].
  cbn [map] in Hfresh. apply not_elem_of_cons in Hfresh as [Hne Hfresh].
  rewrite filter_cons, decide_False by congruence. exact (IH Hfresh).
Qed.

Lemma filter_unique {A B} `{EqDecision B} (f : A → B) (l : list A) (u : A) :
  NoDup (map f l) → u ∈ l → filter (λ x, f x = f u) l = [u].
Proof.
  induction l as [|x l IH]; intros Hnodup Hin; [inversion Hin|].
  cbn [map] in Hnodup. apply NoDup_cons in Hnodup as [Hfresh Hnodup].
  rewrite filter_cons. apply elem_of_cons in Hin as [->|Hin].
  - rewrite decide_True by reflexivity. rewrite (filter_fresh f l (f x) Hfresh).
    reflexivity.
  - destruct (decide (f x = f u)) as [Heq|Hne].
    + destruct Hfresh. rewrite Heq. apply (list_elem_of_fmap_2 f). exact Hin.
    + exact (IH Hnodup Hin).
Qed.

(** [login] is [loginRequest] on a body whose email and password are
    strings or absent. *)
Lemma login_loginRequest toLowerCase nodeEnv body token nowIso thrown users :
  login toLowerCase nodeEnv body token nowIso users
  = loginRequest toLowerCase nodeEnv (JString <$> login_email body)
      (JString <$> login_password body) token nowIso thrown users.
Proof.
  unfold login, loginRequest.
  destruct body as [[emailText|] [passwordText|]]; simpl; try reflexivity;
    destruct (bool_decide (emailText = "")); reflexivity.
Qed.

End AccountsFacts.

Section AccountsExtras.
Import Accounts MoreScenarios.

(** X21: an account that signup has just created can log in: a login with
    the email and password of the signup body finds the new row and answers
    with its id, stored email and name, expertise "beginner" and score 0. *)
Theorem X21_signup_then_login :
  ∀ toLowerCase isEmail nodeEnv body userId nowText nowIso thrown users
    created users' token laterIso,
    signup toLowerCase isEmail nodeEnv body userId nowText nowIso thrown users
    = (SignedUp created, users') →
    login toLowerCase nodeEnv
      {| login_email := signup_email body; login_password := signup_password body |}
      token laterIso users'
    = LoggedIn token
        {| Server.res_id := new_id created;
           Server.res_email := new_email created;
           Server.res_full_name := new_full_name created;
           Server.res_expertise_level := "beginner";
           Server.res_credibility_score := 0 |}.
Proof.
  intros toLowerCase isEmail nodeEnv body userId nowText nowIso thrown users
    created users' token laterIso Hsignup.
  apply signup_SignedUp in Hsignup
    as (email & password & fullName & Hparsed & Hfresh & -> & ->).
  apply parseCreateUserInput_Some in Hparsed
    as (Hemail & Hpassword & _ & Hgiven & Hgiven').
  unfold login. cbn [login_email login_password]. rewrite Hemail, Hpassword.
  rewrite Hgiven, Hgiven'. cbn [negb orb default].
  rewrite filter_app.
  rewrite (filter_nil_weaken _ (λ u, emailOf u = Temporal.trim (toLowerCase email))
             users (λ u Hu, or_intror Hu) Hfresh).
  rewrite filter_cons, decide_True by reflexivity.
  cbn [app password_hash]. rewrite bool_decide_eq_true_2 by reflexivity.
  reflexivity.
Qed.

Lemma X21_signup_then_login_witness :
  let created := {| new_id := "user-3"; new_email := "carol@example.com";
                    new_full_name := "Carol"; new_created_at := "2025-11-02" |} in
  let carol := {| row := {| Server.id := "user-3";
                            Server.email := "carol@example.com";
                            Server.full_name := "Carol";
                            Server.created_at := "2025-11-02";
                            Server.updated_at := "2025-11-02" |};
                  password_hash := "password123" |} in
  signup asciiLower anyEmail "production" carolSignup "user-3" "2025-11-02"
    "2025-11-02T00:00:00.000Z" thrown [bob]
  = (SignedUp created, [bob; carol])
  ∧ login asciiLower "production" carolLogin "token-1" "2025-11-03T00:00:00.000Z"
      [bob; carol]
    = LoggedIn "token-1"
        {| Server.res_id := "user-3"; Server.res_email := "carol@example.com";
           Server.res_full_name := "Carol";
           Server.res_expertise_level := "beginner";
           Server.res_credibility_score := 0 |}.
Proof.
  cbv zeta.
  assert (Hsignup :
    signup asciiLower anyEmail "production" carolSignup "user-3" "2025-11-02"
      "2025-11-02T00:00:00.000Z" thrown [bob]
    = (SignedUp {| new_id := "user-3"; new_email := "carol@example.com";
                   new_full_name := "Carol"; new_created_at := "2025-11-02" |},
       [bob; {| row := {| Server.id := "user-3";
                          Server.email := "carol@example.com";
                          Server.full_name := "Carol";
                          Server.created_at := "2025-11-02";
                          Server.updated_at := "2025-11-02" |};
                password_hash := "password123" |}]))
    by (vm_compute; reflexivity).
  split; [exact Hsignup|].
  exact (X21_signup_then_login asciiLower anyEmail "production" carolSignup "user-3"
           "2025-11-02" "2025-11-02T00:00:00.000Z" thrown [bob] _ _ "token-1"
           "2025-11-03T00:00:00.000Z" Hsignup).
Defined.

(** X22: a login whose body carries a truthy email and a truthy password
    has three outcomes only.  For an email that is not a string the handler
    answers 500 with the error that [toLowerCase] threw.  For a string it
    succeeds for a stored row whose email is the trimmed, lower-cased email
    given and whose stored password is the password given, a string;
    otherwise the answer is the same 401 "Invalid email or password",
    whether the email is unknown or the password is wrong. *)
Theorem X22_login_outcomes :
  ∀ toLowerCase nodeEnv email password token nowIso thrown users,
    truthyField email = true →
    truthyField password = true →
    (∃ u emailText,
       email = Some (JString emailText)
       ∧ u ∈ users
       ∧ emailOf u = Temporal.trim (toLowerCase emailText)
       ∧ password = Some (JString (password_hash u))
       ∧ loginRequest toLowerCase nodeEnv email password token nowIso thrown users
         = LoggedIn token
             {| Server.res_id := idOf u;
                Server.res_email := emailOf u;
                Server.res_full_name := Server.full_name (row u);
                Server.res_expertise_level := "beginner";
                Server.res_credibility_score := 0 |})
    ∨ ((∃ emailText, email = Some (JString emailText))
       ∧ loginRequest toLowerCase nodeEnv email password token nowIso thrown users
         = Error 401 {| success := false;
                        message := "Invalid email or password";
                        timestamp := nowIso;
                        error_code := Some "INVALID_CREDENTIALS";
                        details := None |})
    ∨ ((∀ emailText, email ≠ Some (JString emailText))
       ∧ loginRequest toLowerCase nodeEnv email password token nowIso thrown users
         = Error 500 {| success := false;
                        message := "Internal server error";
                        timestamp := nowIso;
                        error_code := Some "INTERNAL_SERVER_ERROR";
                        details := if bool_decide (nodeEnv = "development")
                                   then Some thrown else None |}).
Proof.
  intros toLowerCase nodeEnv email password token nowIso thrown users Hemail Hpassword.
  unfold loginRequest. rewrite Hemail, Hpassword. cbn [negb orb].
  destruct email as [[| | |emailText| |]|];
    try (right; right; split; [intros emailText'; discriminate|reflexivity]).
  destruct (filter _ users) as [|u found] eqn:Hfound;
    [right; left; split; [eexists; reflexivity|reflexivity]|].
  assert (Hu : u ∈ u :: found) by (apply elem_of_cons; left; reflexivity).
  rewrite <- Hfound in Hu. apply list_elem_of_filter in Hu as [Hmatch Hu].
  destruct (differsFromText password (password_hash u)) eqn:Hdiffers;
    [right; left; split; [eexists; reflexivity|reflexivity]|].
  left. exists u, emailText.
  split; [reflexivity|]. split; [exact Hu|]. split; [exact Hmatch|].
  split; [|reflexivity].
  destruct password as [[| | |passwordText| |]|]; try discriminate Hdiffers.
  simpl in Hdiffers. apply negb_false_iff, bool_decide_eq_true_1 in Hdiffers.
  rewrite Hdiffers. reflexivity.
Qed.

(** A login whose email is the number 7. *)
Lemma X22_login_outcomes_witness :
  let email := Some (JNumber (JsNumber.ofZ 7)) in
  let password := Some (JString "bobs-password") in
  truthyField email = true ∧ truthyField password = true
  ∧ loginRequest asciiLower "production" email password "token-1"
      "2025-11-03T00:00:00.000Z" notAFunction [bob]
    = Error 500 {| success := false;
                   message := "Internal server error";
                   timestamp := "2025-11-03T00:00:00.000Z";
                   error_code := Some "INTERNAL_SERVER_ERROR";
                   details := None |}.
Proof.
  cbv zeta. split; [reflexivity|]. split; [reflexivity|].
  destruct (X22_login_outcomes asciiLower "production"
              (Some (JNumber (JsNumber.ofZ 7))) (Some (JString "bobs-password"))
              "token-1" "2025-11-03T00:00:00.000Z" notAFunction [bob]
              eq_refl eq_refl)
    as [(u & emailText & Hstring & _)|[[[emailText Hstring] _]|[_ Hanswer]]];
    [discriminate Hstring|discriminate Hstring|exact Hanswer].
Defined.

(** X23: while the stored emails are pairwise different, every stored
    account with a non-empty password can log in: any spelling of the email
    that trims and lower-cases to the stored one, together with the stored
    password, is answered with that account's data. *)
Theorem X23_stored_account_can_log_in :
  ∀ toLowerCase nodeEnv email token nowIso users u,
    NoDup (map emailOf users) →
    u ∈ users →
    email ≠ "" →
    password_hash u ≠ "" →
    Temporal.trim (toLowerCase email) = emailOf u →
    login toLowerCase nodeEnv
      {| login_email := Some email; login_password := Some (password_hash u) |}
      token nowIso users
    = LoggedIn token
        {| Server.res_id := idOf u;
           Server.res_email := emailOf u;
           Server.res_full_name := Server.full_name (row u);
           Server.res_expertise_level := "beginner";
           Server.res_credibility_score := 0 |}.
Proof.
  intros toLowerCase nodeEnv email token nowIso users u Hunique Hu Hemail Hpassword
    Hstored.
  unfold login, given. cbn [login_email login_password].
  rewrite (bool_decide_eq_false_2 _ Hemail), (bool_decide_eq_false_2 _ Hpassword).
  cbn [negb orb].
  change (default "" (Some email)) with email.
  change (default "" (Some (password_hash u))) with (password_hash u).
  rewrite Hstored, (filter_unique emailOf users u Hunique Hu).
  rewrite bool_decide_eq_true_2 by reflexivity. reflexivity.
Qed.

Lemma X23_stored_account_can_log_in_witness :
  NoDup (map emailOf members) ∧ member "erin" ∈ members
  ∧ "erin@example.com" ≠ "" ∧ password_hash (member "erin") ≠ ""
  ∧ Temporal.trim (asciiLower "erin@example.com") = emailOf (member "erin")
  ∧ login asciiLower "production"
      {| login_email := Some "erin@example.com";
         login_password := Some (password_hash (member "erin")) |}
      "token-2" "2025-11-03T00:00:00.000Z" members
    = LoggedIn "token-2"
        {| Server.res_id := idOf (member "erin");
           Server.res_email := emailOf (member "erin");
           Server.res_full_name := Server.full_name (row (member "erin"));
           Server.res_expertise_level := "beginner";
           Server.res_credibility_score := 0 |}.
Proof.
  assert (Hunique : NoDup (map emailOf members))
    by (apply (bool_decide_eq_true_1 _); vm_compute; reflexivity).
  assert (Hin : member "erin" ∈ members) by (unfold members; repeat constructor).
  assert (Hemail : "erin@example.com" ≠ "") by discriminate.
  assert (Hpassword : password_hash (member "erin") ≠ "") by discriminate.
  assert (Hstored : Temporal.trim (asciiLower "erin@example.com")
                    = emailOf (member "erin")) by (vm_compute; reflexivity).
  repeat (split; [assumption|]).
  exact (X23_stored_account_can_log_in asciiLower "production" "erin@example.com"
           "token-2" "2025-11-03T00:00:00.000Z" members (member "erin")
           Hunique Hin Hemail Hpassword Hstored).
Defined.

(** X24: signup and profile update keep the table's keys unique: when ids
    and emails are pairwise different before the request, they are pairwise
    different after it, whatever the request was and however it was
    answered. *)
Theorem X24_ids_and_emails_stay_unique :
  ∀ toLowerCase isEmail nodeEnv body userId authenticatedId user_id update
    nowText nowIso thrown users,
    NoDup (map idOf users) →
    NoDup (map emailOf users) →
    (NoDup (map idOf (snd (signup toLowerCase isEmail nodeEnv body userId nowText
                             nowIso thrown users)))
     ∧ NoDup (map emailOf (snd (signup toLowerCase isEmail nodeEnv body userId
                                  nowText nowIso thrown users))))
    ∧ (NoDup (map idOf (snd (updateUser nodeEnv authenticatedId user_id update
                               nowText nowIso users)))
       ∧ NoDup (map emailOf (snd (updateUser nodeEnv authenticatedId user_id update
                                    nowText nowIso users)))).
Proof.
  intros toLowerCase isEmail nodeEnv body userId authenticatedId user_id update
    nowText nowIso thrown users Hids Hemails. split.
  - destruct (signup toLowerCase isEmail nodeEnv body userId nowText nowIso thrown
                users) as [response users'] eqn:Hsignup.
    assert (Hcases : users' = users ∨ ∃ created, response = SignedUp created).
    { revert Hsignup. unfold signup.
      destruct (parseCreateUserInput isEmail body) as [[[email password] fullName]|];
        [|intros [= <- <-]; left; reflexivity].
      case_bool_decide; cbn [negb]; [|intros [= <- <-]; left; reflexivity].
      case_bool_decide; cbn [negb]; [|intros [= <- <-]; left; reflexivity].
      intros [= <- <-]. right. eexists. reflexivity. }
    destruct Hcases as [->|[created ->]]; [split; assumption|].
    apply signup_SignedUp in Hsignup
      as (email & password & fullName & _ & Hfresh & _ & ->).
    cbn [snd]. rewrite !map_app. cbn [map]. split.
    + apply NoDup_app. split; [exact Hids|]. split; [|apply NoDup_singleton].
      intros i Hi Hnew. apply list_elem_of_singleton in Hnew. cbn in Hnew.
      apply list_elem_of_fmap in Hi as (u & -> & Hu).
      apply (filter_nil_not_elem _ _ u Hfresh Hu). left. exact Hnew.
    + apply NoDup_app. split; [exact Hemails|]. split; [|apply NoDup_singleton].
      intros e He Hnew. apply list_elem_of_singleton in Hnew. cbn in Hnew.
      apply list_elem_of_fmap in He as (u & -> & Hu).
      apply (filter_nil_not_elem _ _ u Hfresh Hu). right. exact Hnew.
  - destruct (updateUser_table nodeEnv authenticatedId user_id update nowText nowIso
                users) as [->|[_ ->]]; [split; assumption|].
    rewrite !map_map.
    rewrite (map_ext (λ u, idOf (applyUpdate user_id nowText update u)) idOf)
      by (intros u; apply applyUpdate_keeps).
    rewrite (map_ext (λ u, emailOf (applyUpdate user_id nowText update u)) emailOf)
      by (intros u; apply applyUpdate_keeps).
    split; assumption.
Qed.

Lemma X24_ids_and_emails_stay_unique_witness :
  NoDup (map idOf members) ∧ NoDup (map emailOf members)
  ∧ (NoDup (map idOf (snd (signup asciiLower anyEmail "production" carolSignup
                             "user-3" "2025-11-02" "2025-11-02T00:00:00.000Z"
                             thrown members)))
     ∧ NoDup (map emailOf (snd (signup asciiLower anyEmail "production" carolSignup
                                  "user-3" "2025-11-02" "2025-11-02T00:00:00.000Z"
                                  thrown members))))
  ∧ (NoDup (map idOf (snd (updateUser "production" "user-2" "user-2" renameBob
                             "2025-11-02" "2025-11-02T00:00:00.000Z" members)))
     ∧ NoDup (map emailOf (snd (updateUser "production" "user-2" "user-2" renameBob
                                  "2025-11-02" "2025-11-02T00:00:00.000Z"
                                  members)))).
Proof.
  assert (Hids : NoDup (map idOf members))
    by (apply (bool_decide_eq_true_1 _); vm_compute; reflexivity).
  assert (Hemails : NoDup (map emailOf members))
    by (apply (bool_decide_eq_true_1 _); vm_compute; reflexivity).
  split; [exact Hids|]. split; [exact Hemails|].
  exact (X24_ids_and_emails_stay_unique asciiLower anyEmail "production" carolSignup
           "user-3" "user-2" "user-2" renameBob "2025-11-02"
           "2025-11-02T00:00:00.000Z" thrown members Hids Hemails).
Defined.

(** X25: a page of the user search, when the ordering only permutes the
    matching rows: the page holds the rows left after the offset, up to the
    limit; every item is a stored account; and [has_more] is true exactly
    when matching rows remain after this page. *)
Theorem X25_search_page :
  ∀ parseInt ilike nodeEnv orderBy q nowIso thrown users page,
    (∀ sortBy sortOrder found, orderBy sortBy sortOrder found ≡ₚ found) →
    searchUsers parseInt ilike nodeEnv orderBy q nowIso thrown users = Listed page →
    1 ≤ page_limit page
    ∧ total page ≤ length users
    ∧ length (items page) = min (page_limit page) (total page - page_offset page)
    ∧ (has_more page = true ↔ page_offset page + length (items page) < total page)
    ∧ ∀ item, item ∈ items page → ∃ u, u ∈ users ∧ item = listItem u.
Proof.
  intros parseInt ilike nodeEnv orderBy q nowIso thrown users page Hperm.
  unfold searchUsers.
  destruct (parseSearchInput parseInt q) as [[[[[search l] o] sortBy] sortOrder]|]
    eqn:Hparsed; [|discriminate].
  intros [= <-]. cbn [page_limit total page_offset items has_more].
  apply parseSearchInput_Some in Hparsed as [Hlimit _].
  assert (Hlength : length (map listItem
                              (take l (drop o (orderBy sortBy sortOrder
                                                 (matching ilike search users)))))
                    = min l (length (matching ilike search users) - o)).
  { rewrite length_map, length_take, length_drop, (Permutation_length (Hperm _ _ _)).
    reflexivity. }
  split; [exact Hlimit|]. split; [apply matching_length|].
  split; [exact Hlength|]. split.
  - rewrite Hlength, bool_decide_eq_true. lia.
  - intros item Hitem. apply list_elem_of_fmap in Hitem as (u & -> & Hu).
    exists u. split; [|reflexivity].
    apply elem_of_take_drop in Hu. rewrite (Hperm _ _ _) in Hu.
    exact (matching_subset _ _ _ _ Hu).
Qed.

Lemma X25_search_page_witness :
  let page := {| items := [listItem (member "erin"); listItem (member "frank")];
                 total := 5; page_limit := 2; page_offset := 2;
                 has_more := true |} in
  (∀ sortBy sortOrder found, unordered sortBy sortOrder found ≡ₚ found)
  ∧ searchUsers parseIntOf ilikeAll "production" unordered secondPage
      "2025-11-03T00:00:00.000Z" thrown members = Listed page
  ∧ 1 ≤ page_limit page
  ∧ total page ≤ length members
  ∧ length (items page) = min (page_limit page) (total page - page_offset page)
  ∧ (has_more page = true ↔ page_offset page + length (items page) < total page)
  ∧ ∀ item, item ∈ items page → ∃ u, u ∈ members ∧ item = listItem u.
Proof.
  cbv zeta.
  assert (Hperm : ∀ sortBy sortOrder found, unordered sortBy sortOrder found ≡ₚ found)
    by (intros; reflexivity).
  assert (Hlisted :
    searchUsers parseIntOf ilikeAll "production" unordered secondPage
      "2025-11-03T00:00:00.000Z" thrown members
    = Listed {| items := [listItem (member "erin"); listItem (member "frank")];
                total := 5; page_limit := 2; page_offset := 2;
                has_more := true |}) by (vm_compute; reflexivity).
  split; [exact Hperm|]. split; [exact Hlisted|].
  exact (X25_search_page parseIntOf ilikeAll "production" unordered secondPage
           "2025-11-03T00:00:00.000Z" thrown members _ Hperm Hlisted).
Defined.

(** X26: of a profile update only the name is stored. The answer of a
    successful PATCH carries the new name and echoes the expertise level of
    the body, but a later GET of the same user shows the new name with
    expertise "beginner" and score 0 again. *)
Theorem X26_update_stores_only_the_name :
  ∀ nodeEnv authenticatedId user_id body nowText nowIso users profile users',
    updateUser nodeEnv authenticatedId user_id body nowText nowIso users
    = (Updated profile, users') →
    upd_id profile = user_id
    ∧ upd_updated_at profile = nowText
    ∧ (given (body_full_name body) = true →
       upd_full_name profile = default "" (body_full_name body))
    ∧ (given (body_expertise_level body) = true →
       upd_expertise_level profile = default "" (body_expertise_level body))
    ∧ Server.getUser (selected users') user_id
      = Some {| Server.res_id := user_id;
                Server.res_email := upd_email profile;
                Server.res_full_name := upd_full_name profile;
                Server.res_expertise_level := "beginner";
                Server.res_credibility_score := 0 |}.
Proof.
  intros nodeEnv authenticatedId user_id body nowText nowIso users profile users'.
  unfold updateUser. case_bool_decide as Hown; cbn [negb]; [|discriminate].
  destruct (hasAllowedField body); cbn [negb]; [|discriminate].
  destruct (filter _ (map _ users)) as [|updatedUser rest] eqn:Hfound;
    [discriminate|].
  intros [= <- <-]. cbn [upd_id upd_updated_at upd_full_name upd_expertise_level
                         upd_email].
  assert (Hin : updatedUser ∈ updatedUser :: rest)
    by (apply elem_of_cons; left; reflexivity).
  rewrite <- Hfound in Hin. apply list_elem_of_filter in Hin as [Hid Hin].
  apply list_elem_of_fmap in Hin as (u & Hupdated & _).
  assert (Hu : idOf u = user_id).
  { rewrite <- Hid, Hupdated. symmetry. apply applyUpdate_keeps. }
  assert (Hrow : updatedUser
                 = {| row := {| Server.id := idOf u;
                                Server.email := emailOf u;
                                Server.full_name :=
                                  if given (body_full_name body)
                                  then default "" (body_full_name body)
                                  else Server.full_name (row u);
                                Server.created_at := Server.created_at (row u);
                                Server.updated_at := nowText |};
                      password_hash := password_hash u |}).
  { rewrite Hupdated. unfold applyUpdate.
    rewrite (bool_decide_eq_true_2 _ Hu). reflexivity. }
  split; [exact Hid|]. split; [rewrite Hrow; reflexivity|].
  split; [intros Hname; rewrite Hrow; cbn; rewrite Hname; reflexivity|].
  split; [intros Hlevel; rewrite Hlevel; reflexivity|].
  unfold Server.getUser, selected. rewrite filter_map_row, Hfound. cbn [map].
  fold (idOf updatedUser). fold (emailOf updatedUser). rewrite Hid. reflexivity.
Qed.

Lemma X26_update_stores_only_the_name_witness :
  let profile :=
    {| upd_id := "user-2"; upd_email := "bob@example.com";
       upd_full_name := "Robert"; upd_expertise_level := "expert";
       upd_primary_location := None; upd_interests := [];
       upd_credibility_score := 0;
       upd_data_privacy_settings :=
         {| Server.share_anonymized := true;
            Server.private_observations_visible := false |};
       upd_created_at := "2025-01-02"; upd_updated_at := "2025-11-02" |} in
  let users' := map (applyUpdate "user-2" "2025-11-02" renameBob) members in
  updateUser "production" "user-2" "user-2" renameBob "2025-11-02"
    "2025-11-02T00:00:00.000Z" members = (Updated profile, users')
  ∧ upd_id profile = "user-2"
  ∧ upd_updated_at profile = "2025-11-02"
  ∧ (given (body_full_name renameBob) = true →
     upd_full_name profile = default "" (body_full_name renameBob))
  ∧ (given (body_expertise_level renameBob) = true →
     upd_expertise_level profile = default "" (body_expertise_level renameBob))
  ∧ Server.getUser (selected users') "user-2"
    = Some {| Server.res_id := "user-2";
              Server.res_email := upd_email profile;
              Server.res_full_name := upd_full_name profile;
              Server.res_expertise_level := "beginner";
              Server.res_credibility_score := 0 |}.
Proof.
  cbv zeta.
  assert (Hupdated :
    updateUser "production" "user-2" "user-2" renameBob "2025-11-02"
      "2025-11-02T00:00:00.000Z" members
    = (Updated
         {| upd_id := "user-2"; upd_email := "bob@example.com";
            upd_full_name := "Robert"; upd_expertise_level := "expert";
            upd_primary_location := None; upd_interests := [];
            upd_credibility_score := 0;
            upd_data_privacy_settings :=
              {| Server.share_anonymized := true;
                 Server.private_observations_visible := false |};
            upd_created_at := "2025-01-02"; upd_updated_at := "2025-11-02" |},
       map (applyUpdate "user-2" "2025-11-02" renameBob) members))
    by (vm_compute; reflexivity).
  split; [exact Hupdated|].
  exact (X26_update_stores_only_the_name "production" "user-2" "user-2" renameBob
           "2025-11-02" "2025-11-02T00:00:00.000Z" members _ _ Hupdated).
Defined.

(** X27: what a profile update can touch. The table keeps its length and
    order; no row changes its id, email, password or creation time; rows of
    other users are left as they were; and a request for somebody else's
    profile changes nothing at all. *)
Theorem X27_update_leaves_the_rest_alone :
  ∀ nodeEnv authenticatedId user_id body nowText nowIso users,
    let users' :=
      snd (updateUser nodeEnv authenticatedId user_id body nowText nowIso users) in
    length users' = length users
    ∧ (authenticatedId ≠ user_id → users' = users)
    ∧ ∀ i u, users !! i = Some u →
        ∃ u', users' !! i = Some u'
              ∧ idOf u' = idOf u
              ∧ emailOf u' = emailOf u
              ∧ password_hash u' = password_hash u
              ∧ Server.created_at (row u') = Server.created_at (row u)
              ∧ (idOf u ≠ user_id → u' = u).
Proof.
  intros nodeEnv authenticatedId user_id body nowText nowIso users. cbv zeta.
  destruct (updateUser_table nodeEnv authenticatedId user_id body nowText nowIso
              users) as [->|[Hown ->]].
  - split; [reflexivity|]. split; [reflexivity|].
    intros i u Hi. exists u. repeat split. exact Hi.
  - split; [apply length_map|]. split; [intros Hother; destruct (Hother Hown)|].
    intros i u Hi. exists (applyUpdate user_id nowText body u).
    split; [rewrite list_lookup_fmap, Hi; reflexivity|].
    apply applyUpdate_keeps.
Qed.

End AccountsExtras.
